(** * Resilient paginated timeline fetch (bookmarks, bookmark folders, likes)

    A shallow embedding of [src/lib/twitter-client-timelines.ts]: the
    transient retry wrapper [fetchWithRetry], the per-collection page
    fetchers, the refresh wrapper [fetchWithRefresh], the pagination loops
    of [getBookmarksPaged] / [getBookmarkFolderTimelinePaged] and
    [getLikes]; then of what is built around it: [unbookmark]
    ([src/lib/twitter-client-bookmarks.ts]), the action of the bookmarks
    command ([src/commands/bookmarks.ts]), [extractTweetId] in its two
    versions, and the client for single tweets ([getTweet], [tweet],
    [reply]).

    Asynchronous methods are modelled in a small state-and-trace monad:
    a computation takes the client's world, returns a value and the new
    world, and emits the observable events it performed (HTTP calls with
    their outcome, back-off sleeps, query-id refreshes). *)

From Stdlib Require Import ZArith Ascii String List Lia Bool.
From stdpp Require Import base decidable option list gmap strings pretty.

Local Open Scope Z_scope.

(** ** JavaScript strings and numbers

    A JavaScript string is modelled by the bytes of its UTF-8 encoding (a
    lone surrogate by the three bytes of its generalised encoding): two
    strings are equal, or one occurs in the other, exactly when their
    encodings are.  A JavaScript number that is an integer is modelled by
    that integer, [NaN] and the infinities by [None]; the rounding to 53
    significant bits is written out where the code computes. *)

Module Js.

(** [haystack.includes(needle)] *)
Fixpoint includes (needle haystack : string) : bool :=
  String.prefix needle haystack
  || match haystack with
     | EmptyString => false
     | String _ rest => includes needle rest
     end.

(** The bytes of the high surrogate of the code point that the four
    bytes [a b c d] encode: what is left of it when a pair is cut. *)
Definition highSurrogate (a b c d : ascii) : string :=
  let point := (N_of_ascii a mod 8 * 262144 + N_of_ascii b mod 64 * 4096
                + N_of_ascii c mod 64 * 64 + N_of_ascii d mod 64)%N in
  let high := (55296 + (point - 65536) / 1024)%N in
  String (ascii_of_N 237)
    (String (ascii_of_N (128 + high / 64 mod 64))
       (String (ascii_of_N (128 + high mod 64)) EmptyString)).

(** [text.slice(0, n)] for a non-negative [n]: the first [n] UTF-16 code
    units.  A code point of one, two or three bytes is one unit, one of
    four bytes is a surrogate pair. *)
Fixpoint slice0 (n : nat) (text : string) {struct text} : string :=
  match n, text with
  | O, _ => EmptyString
  | _, EmptyString => EmptyString
  | S n', String a rest =>
      let lead := nat_of_ascii a in
      if Nat.ltb lead 192 then String a (slice0 n' rest)
      else if Nat.ltb lead 224 then
        match rest with
        | String b rest' => String a (String b (slice0 n' rest'))
        | EmptyString => text
        end
      else if Nat.ltb lead 240 then
        match rest with
        | String b (String c rest') => String a (String b (String c (slice0 n' rest')))
        | _ => text
        end
      else
        match rest with
        | String b (String c (String d rest')) =>
            match n' with
            | O => highSurrogate a b c d
            | S n'' => String a (String b (String c (String d (slice0 n'' rest'))))
            end
        | _ => text
        end
  end.

(** [parts.join(sep)] *)
Definition join (sep : string) (parts : list string) : string := String.concat sep parts.

(** Truthiness of a [string | undefined] value: defined and non-empty. *)
Definition truthy (s : option string) : bool :=
  match s with
  | Some (String _ _) => true
  | _ => false
  end.

(** White space skipped by [parseInt] (StrWhiteSpaceChar).  The ASCII
    ones: tab, line feed, vertical tab, form feed, carriage return, space. *)
Definition isWhiteSpace (c : ascii) : bool :=
  match nat_of_ascii c with
  | 9%nat | 10%nat | 11%nat | 12%nat | 13%nat | 32%nat => true
  | _ => false
  end.

(** U+00A0, of two bytes. *)
Definition isWhiteSpace2 (a b : ascii) : bool :=
  Nat.eqb (nat_of_ascii a) 194 && Nat.eqb (nat_of_ascii b) 160.

(** U+1680, U+2000 to U+200A, U+2028, U+2029, U+202F, U+205F, U+3000 and
    U+FEFF, of three bytes each. *)
Definition isWhiteSpace3 (a b c : ascii) : bool :=
  let x := nat_of_ascii a in
  let y := nat_of_ascii b in
  let z := nat_of_ascii c in
  Nat.eqb x 225 && Nat.eqb y 154 && Nat.eqb z 128
  || Nat.eqb x 226 && Nat.eqb y 128
     && (Nat.leb 128 z && Nat.leb z 138 || Nat.eqb z 168 || Nat.eqb z 169
         || Nat.eqb z 175)
  || Nat.eqb x 226 && Nat.eqb y 129 && Nat.eqb z 159
  || Nat.eqb x 227 && Nat.eqb y 128 && Nat.eqb z 128
  || Nat.eqb x 239 && Nat.eqb y 187 && Nat.eqb z 191.

Fixpoint trimStart (s : string) : string :=
  match s with
  | EmptyString => EmptyString
  | String a rest =>
      if isWhiteSpace a then trimStart rest
      else
        match rest with
        | String b rest2 =>
            if isWhiteSpace2 a b then trimStart rest2
            else
              match rest2 with
              | String c rest3 => if isWhiteSpace3 a b c then trimStart rest3 else s
              | EmptyString => s
              end
        | EmptyString => s
        end
  end.

Definition digitValue (c : ascii) : option Z :=
  let n := Z.of_nat (nat_of_ascii c) in
  if (48 <=? n) && (n <=? 57) then Some (n - 48) else None.

(** Longest prefix of decimal digits; [None] when there is no digit. *)
Fixpoint parseDigits (s : string) (acc : option Z) : option Z :=
  match s with
  | String c rest =>
      match digitValue c with
      | Some d => parseDigits rest (Some (10 * default 0 acc + d))
      | None => acc
      end
  | EmptyString => acc
  end.

(** The integer nearest to [z] among those that a double holds: 53
    significant bits, ties to the even significand. *)
Definition roundToDouble (z : Z) : Z :=
  let magnitude := Z.abs z in
  let e := Z.log2 magnitude - 52 in
  if e <=? 0 then z
  else
    let q := magnitude / 2 ^ e in
    let r := magnitude mod 2 ^ e in
    let half := 2 ^ (e - 1) in
    Z.sgn z * ((if (r <? half) || ((r =? half) && Z.even q) then q else q + 1) * 2 ^ e).

(** The Number for the integer [z]; [None] when it is an infinity. *)
Definition toNumber (z : Z) : option Z :=
  let rounded := roundToDouble z in
  if Z.abs rounded <? 2 ^ 1024 then Some rounded else None.

(** [Number.parseInt(s, 10)] when it is finite; [None] stands for [NaN]
    and for the infinities, which every caller tests with
    [Number.isFinite] before anything else.  The digits are read exactly
    and rounded once, as V8 does (ECMAScript lets an implementation read
    the digits after the twentieth as zeros). *)
Definition parseInt10 (s : string) : option Z :=
  match trimStart s with
  | String "-" rest => parseDigits rest None ≫= (fun n => toNumber (- n))
  | String "+" rest => parseDigits rest None ≫= toNumber
  | t => parseDigits t None ≫= toNumber
  end.

(** [Math.floor(r * scale)] for the double [r = k / 2^53] in [0, 1)
    that [Math.random()] draws; [raw] is reduced to 53 bits, and the
    product is rounded to a double before the floor. *)
Definition floorRandomTimes (scale : Z) (raw : N) : Z :=
  roundToDouble ((Z.of_N raw mod 2 ^ 53) * scale) / 2 ^ 53.

(** The character of a decimal digit [d < 10]. *)
Definition digitChar (d : nat) : ascii := ascii_of_nat (48 + d).

(** A header value made of the decimal digits [ds] (delta-seconds). *)
Definition digitsString (ds : list nat) : string :=
  string_of_list_ascii (digitChar <$> ds).

(** The number that the decimal digits [ds] denote. *)
Definition decimal (ds : list nat) : Z :=
  fold_left (fun a d => 10 * a + Z.of_nat d) ds 0.

(** ASCII letters: every HTTP-date starts with one (the day name). *)
Definition isLetter (c : ascii) : bool :=
  let n := Z.of_nat (nat_of_ascii c) in
  ((65 <=? n) && (n <=? 90)) || ((97 <=? n) && (n <=? 122)).

End Js.

(** ** Data model *)

(** [TweetData]: identity plus payload (the other fields play no role). *)
Record TweetData := { id : string; text : string }.

(** [SearchResult = { success; tweets?; error? }] *)
Record SearchResult := {
  success : bool;
  tweets : option (list TweetData);
  error : option string
}.

Inductive Operation := Bookmarks | BookmarkFolderTimeline | Likes.

(** The part of a GraphQL GET request that the engine decides: the path
    [/${queryId}/${operation}] and the members of [variables] that vary.
    Constant variables, [features] and headers are left out. *)
Record Request := {
  req_queryId : string;
  req_operation : Operation;
  req_count : option Z;
  req_cursor : option string;
  req_collection : option string;   (* bookmark_collection_id *)
  req_userId : option string
}.

(** Limit of the paged fetchers: a finite number, or a value for which
    [Number.isFinite] is false ([Number.POSITIVE_INFINITY] in the source).
    Finite limits are integers, as the command line parses them with
    [parseInt]. *)
Inductive Limit := Finite (n : Z) | NotFinite.

(** [TimelinePaginationOptions]; [includeRaw] only reaches the extractor. *)
Record TimelinePaginationOptions := { maxPages : option Z }.

(** The response extractor of [twitter-client-utils.js], external to the
    engine, over the payload type of [data.….timeline.instructions]
    ([None] is [undefined]). *)
Class ResponseExtractor (Instructions : Type) := {
  parseTweetsFromInstructions : option Instructions -> list TweetData;
  extractCursorFromInstructions : option Instructions -> option string
}.

Section Engine.

Context {Instructions : Type} `{Extractor : ResponseExtractor Instructions}.

(** Decoded response body: [{ data?: …instructions, errors? }]. *)
Record Data := {
  instructions : option Instructions;
  errors : option (list string)     (* the [message] of each entry *)
}.

(** Outcome of [await response.json()] followed by the field accesses. *)
Inductive Json :=
| JsonThrows (message : string)
| JsonValue (data : Data).

Record Response := {
  status : Z;
  retryAfter : option string;       (* [headers.get('retry-after')] *)
  body : string;                    (* [await response.text()] *)
  json : Json
}.

(** [response.ok] *)
Definition ok (response : Response) : bool :=
  (200 <=? status response) && (status response <=? 299).

(** A settled [fetchWithTimeout] promise. *)
Inductive FetchResult :=
| Rejected (message : string)
| Resolved (response : Response).

Inductive Event :=
| EvFetch (request : Request) (result : FetchResult)
| EvSleep (ms : Z)
| EvRefresh.

Record User := { user_id : string }.
Record UserResult := {
  user_success : bool;
  user : option User;
  user_error : option string
}.

(** The abstract base class [TwitterClientBase] together with the
    runtime's random source, over a world [W]. *)
Class TwitterClientBase (W : Type) := {
  getQueryId : string -> W -> string * W;
  refreshQueryIds : W -> W;
  fetchWithTimeout : Request -> W -> FetchResult * W;
  getCurrentUser : W -> UserResult * W;
  Math_random : W -> N * W
}.

Context {W : Type} `{Base : TwitterClientBase W}.

(** *** The monad *)

Record Out (A : Type) := mkOut { val : A; world : W; events : list Event }.
Arguments mkOut {A}.
Arguments val {A}.
Arguments world {A}.
Arguments events {A}.

Definition M (A : Type) : Type := W -> Out A.

Definition ret {A} (a : A) : M A := fun w => mkOut a w [].

Definition bind {A B} (m : M A) (k : A -> M B) : M B :=
  fun w =>
    let o1 := m w in
    let o2 := k (val o1) (world o1) in
    mkOut (val o2) (world o2) (events o1 ++ events o2).

Notation "'await' x ':=' m 'in' k" := (bind m (fun x => k))
  (at level 10, x pattern, m at level 100, k at level 200).

Definition lift {A} (f : W -> A * W) : M A :=
  fun w => let r := f w in mkOut (fst r) (snd r) [].

Definition emit (e : Event) : M unit := fun w => mkOut tt w [e].

(** [await this.fetchWithTimeout(url, init)], recorded. *)
Definition doFetch (request : Request) : M FetchResult :=
  fun w => let r := fetchWithTimeout request w in
           mkOut (fst r) (snd r) [EvFetch request (fst r)].

(** [await new Promise((resolve) => setTimeout(resolve, ms))]; the event
    records the delay handed to the timer. *)
Definition sleep (ms : Z) : M unit := emit (EvSleep ms).

(** [await this.refreshQueryIds()] *)
Definition doRefresh : M unit :=
  fun w => mkOut tt (refreshQueryIds w) [EvRefresh].

(** *** Transient retry wrapper *)

Definition maxRetries : Z := 2.
Definition baseDelayMs : Z := 500.
Definition retryable (st : Z) : bool :=
  bool_decide (st ∈ [429; 500; 502; 503; 504]).

(** [retryAfter ? Number.parseInt(retryAfter, 10) * 1000 : Number.NaN]
    when [Number.isFinite] holds of it; the product is a double. *)
Definition retryAfterMs (response : Response) : option Z :=
  if Js.truthy (retryAfter response)
  then (retryAfter response ≫= Js.parseInt10) ≫= (fun n => Js.toNumber (n * 1000))
  else None.

(** [baseDelayMs * 2 ** attempt + Math.floor(Math.random() * baseDelayMs)] *)
Definition exponentialBackoff (attempt : Z) (raw : N) : Z :=
  baseDelayMs * 2 ^ attempt + Js.floorRandomTimes baseDelayMs raw.

Definition backoffMs (response : Response) (attempt : Z) : M Z :=
  match retryAfterMs response with
  | Some ms => ret ms
  | None => await raw := lift Math_random in ret (exponentialBackoff attempt raw)
  end.

(** The [for (attempt = 0; attempt <= maxRetries; attempt += 1)] loop of
    [fetchWithRetry]; [remaining] counts the iterations still allowed by
    the loop condition, and the [O] branch is the statement after the
    loop.  A rejected [fetchWithTimeout] promise propagates. *)
Fixpoint fetchWithRetry_from (remaining : nat) (attempt : Z) (request : Request)
  : M FetchResult :=
  match remaining with
  | O => doFetch request
  | S remaining' =>
      await result := doFetch request in
      match result with
      | Rejected _ => ret result
      | Resolved response =>
          if negb (retryable (status response)) || (attempt =? maxRetries)
          then ret result
          else
            await ms := backoffMs response attempt in
            await _ := sleep ms in
            fetchWithRetry_from remaining' (attempt + 1) request
      end
  end.

Definition fetchWithRetry (request : Request) : M FetchResult :=
  fetchWithRetry_from (Z.to_nat (maxRetries + 1)) 0 request.

(** *** Candidate resolver *)

(** [Array.from(new Set(ids))]: first occurrences, in insertion order. *)
Fixpoint arrayFromSet (ids : list string) : list string :=
  match ids with
  | [] => []
  | x :: rest => x :: filter (fun y => y ≠ x) (arrayFromSet rest)
  end.

Definition getBookmarksQueryIds : M (list string) :=
  await primary := lift (getQueryId "Bookmarks") in
  ret (arrayFromSet [primary; "RV1g3b8n_SGOHwkqKYSCFw"; "tmd4ifV8RHltzn8ymGg1aw"]).

Definition getBookmarkFolderQueryIds : M (list string) :=
  await primary := lift (getQueryId "BookmarkFolderTimeline") in
  ret (arrayFromSet [primary; "KJIQpsvxrTfRIlbaRIySHQ"]).

Definition getLikesQueryIds : M (list string) :=
  await primary := lift (getQueryId "Likes") in
  ret (arrayFromSet [primary; "JR2gceKucIKcVNB_9JkhsA"]).

(** *** Page fetchers *)

(** Result objects of [fetchPage] / [tryOnce] / [fetchWithRefresh]:
    [{ success: true, tweets, cursor, had404 }] or
    [{ success: false, error, had404? }]. *)
Inductive PageResult :=
| Success (pageTweets : list TweetData) (nextCursor : option string) (flag : bool)
| Failure (message : string) (flag : option bool).

(** Truthiness of [result.had404]. *)
Definition had404Of (r : PageResult) : bool :=
  match r with
  | Success _ _ flag => flag
  | Failure _ flag => default false flag
  end.

Definition isSuccess (r : PageResult) : bool :=
  match r with Success _ _ _ => true | Failure _ _ => false end.

(** The two variables captured by the candidate loop. *)
Record Captured := { lastError : option string; had404 : bool }.

Definition initially : Captured := {| lastError := None; had404 := false |}.

(** [`HTTP ${response.status}`] *)
Definition httpStatus (response : Response) : string :=
  "HTTP " +:+ pretty (status response).

(** [`HTTP ${response.status}: ${text.slice(0, 200)}`] *)
Definition httpStatusWithBody (response : Response) : string :=
  httpStatus response +:+ ": " +:+ Js.slice0 200 (body response).

(** [data.errors && data.errors.length > 0] *)
Definition hasErrors (data : Data) : bool :=
  match errors data with
  | Some (_ :: _) => true
  | _ => false
  end.

(** [data.errors.map((e) => e.message).join(', ')] *)
Definition joinedErrors (data : Data) : string :=
  Js.join ", " (default [] (errors data)).

(** The [for (const queryId of queryIds)] loop shared, up to the request
    built and the fall-back message, by [fetchPage] of [getBookmarksPaged]
    and [tryOnce] of [getBookmarkFolderTimelinePaged].  The final value of
    the captured variables is returned with the result. *)
Fixpoint tryCandidates (mkRequest : string -> Request) (unknownError : string)
    (queryIds : list string) (vars : Captured) : M (PageResult * Captured) :=
  match queryIds with
  | [] => ret (Failure (default unknownError (lastError vars)) (Some (had404 vars)), vars)
  | queryId :: rest =>
      await result := fetchWithRetry (mkRequest queryId) in
      match result with
      | Rejected message =>
          tryCandidates mkRequest unknownError rest
            {| lastError := Some message; had404 := had404 vars |}
      | Resolved response =>
          if status response =? 404 then
            tryCandidates mkRequest unknownError rest
              {| lastError := Some (httpStatus response); had404 := true |}
          else if negb (ok response) then
            ret (Failure (httpStatusWithBody response) (Some (had404 vars)), vars)
          else
            match json response with
            | JsonThrows message =>
                tryCandidates mkRequest unknownError rest
                  {| lastError := Some message; had404 := had404 vars |}
            | JsonValue data =>
                let pageTweets := parseTweetsFromInstructions (instructions data) in
                let nextCursor := extractCursorFromInstructions (instructions data) in
                if hasErrors data && negb (bool_decide (is_Some (instructions data))) then
                  tryCandidates mkRequest unknownError rest
                    {| lastError := Some (joinedErrors data); had404 := had404 vars |}
                else
                  ret (Success pageTweets nextCursor (had404 vars), vars)
            end
      end
  end.

(** [...(pageCursor ? { cursor: pageCursor } : {})] *)
Definition cursorVariable (pageCursor : option string) : option string :=
  if Js.truthy pageCursor then pageCursor else None.

Definition bookmarksRequest (pageCount : Z) (pageCursor : option string)
    (queryId : string) : Request :=
  {| req_queryId := queryId; req_operation := Bookmarks;
     req_count := Some pageCount; req_cursor := cursorVariable pageCursor;
     req_collection := None; req_userId := None |}.

(** [buildVariables(pageCount, pageCursor, includeCount)] in its request *)
Definition folderRequest (folderId : string) (pageCount : Z)
    (pageCursor : option string) (includeCount : bool) (queryId : string) : Request :=
  {| req_queryId := queryId; req_operation := BookmarkFolderTimeline;
     req_count := if includeCount then Some pageCount else None;
     req_cursor := cursorVariable pageCursor;
     req_collection := Some folderId; req_userId := None |}.

Definition likesRequest (userId : string) (count : Z) (queryId : string) : Request :=
  {| req_queryId := queryId; req_operation := Likes;
     req_count := Some count; req_cursor := None;
     req_collection := None; req_userId := Some userId |}.

(** [fetchPage] of [getBookmarksPaged] *)
Definition bookmarksFetchPage (pageCount : Z) (pageCursor : option string)
    : M PageResult :=
  await queryIds := getBookmarksQueryIds in
  await r := tryCandidates (bookmarksRequest pageCount pageCursor)
               "Unknown error fetching bookmarks" queryIds initially in
  ret (fst r).

(** The double-quote character, and the two needles of the folder
    fetcher: [Variable], a space, and [$count] resp. [$cursor] in double
    quotes. *)
Definition dquote : string := String (ascii_of_nat 34) EmptyString.
Definition variableCount : string := "Variable " +:+ dquote +:+ "$count" +:+ dquote.
Definition variableCursor : string := "Variable " +:+ dquote +:+ "$cursor" +:+ dquote.

(** [!attempt.success && attempt.error?.includes(needle)] *)
Definition failedNaming (needle : string) (attempt : PageResult) : bool :=
  match attempt with
  | Success _ _ _ => false
  | Failure message _ => Js.includes needle message
  end.

Definition cursorRejected : string :=
  "Bookmark folder pagination rejected the cursor parameter".

(** [tryOnce(buildVariables(pageCount, pageCursor, includeCount))] of the
    folder fetcher, on the query ids and captured variables of its
    enclosing [fetchPage]. *)
Definition folderTryOnce (folderId : string) (pageCount : Z)
    (pageCursor : option string) (queryIds : list string)
    (includeCount : bool) (vars : Captured) : M (PageResult * Captured) :=
  tryCandidates (folderRequest folderId pageCount pageCursor includeCount)
    "Unknown error fetching bookmark folder" queryIds vars.

(** [fetchPage] of [getBookmarkFolderTimelinePaged] *)
Definition folderFetchPage (folderId : string) (pageCount : Z)
    (pageCursor : option string) : M PageResult :=
  await queryIds := getBookmarkFolderQueryIds in
  await first := folderTryOnce folderId pageCount pageCursor queryIds true initially in
  await attempt :=
    (if failedNaming variableCount (fst first)
     then await second := folderTryOnce folderId pageCount pageCursor queryIds
                            false (snd first) in
          ret (fst second)
     else ret (fst first)) in
  if failedNaming variableCursor attempt && Js.truthy pageCursor
  then ret (Failure cursorRejected (Some (had404Of attempt)))
  else ret attempt.

(** [fetchWithRefresh], written twice in the source with the same text,
    over the enclosing [fetchPage]. *)
Definition fetchWithRefresh (fetchPage : Z -> option string -> M PageResult)
    (pageCount : Z) (pageCursor : option string) : M PageResult :=
  await firstAttempt := fetchPage pageCount pageCursor in
  match firstAttempt with
  | Success _ _ _ => ret firstAttempt
  | Failure firstError _ =>
      if had404Of firstAttempt then
        await _ := doRefresh in
        await secondAttempt := fetchPage pageCount pageCursor in
        match secondAttempt with
        | Success _ _ _ => ret secondAttempt
        | Failure secondError _ => ret (Failure secondError None)
        end
      else ret (Failure firstError None)
  end.

(** *** Pagination driver *)

Definition pageSize : Z := 20.

(** [!Number.isFinite(limit)] *)
Definition unlimited (limit : Limit) : bool :=
  match limit with NotFinite => true | Finite _ => false end.

(** [tweets.length >= limit] for a finite limit *)
Definition reached (limit : Limit) (collected : list TweetData) : bool :=
  match limit with
  | NotFinite => false
  | Finite n => n <=? Z.of_nat (length collected)
  end.

(** The loop's variables [seen], [tweets], [cursor], [pagesFetched]. *)
Record LoopState := {
  st_seen : gset string;
  st_tweets : list TweetData;
  st_cursor : option string;
  st_pagesFetched : Z
}.

Definition initialState : LoopState :=
  {| st_seen := ∅; st_tweets := []; st_cursor := None; st_pagesFetched := 0 |}.

(** [unlimited || tweets.length < limit] *)
Definition loopCondition (limit : Limit) (st : LoopState) : bool :=
  unlimited limit || negb (reached limit (st_tweets st)).

(** [unlimited ? pageSize : Math.min(pageSize, limit - tweets.length)] *)
Definition pageCountFor (limit : Limit) (st : LoopState) : Z :=
  match limit with
  | NotFinite => pageSize
  | Finite n => Z.min pageSize (n - Z.of_nat (length (st_tweets st)))
  end.

(** The [for (const tweet of page.tweets)] loop. *)
Fixpoint mergePage (limit : Limit) (page : list TweetData)
    (seen : gset string) (collected : list TweetData)
    : gset string * list TweetData :=
  match page with
  | [] => (seen, collected)
  | tweet :: rest =>
      if bool_decide (id tweet ∈ seen) then mergePage limit rest seen collected
      else
        let seen' := {[ id tweet ]} ∪ seen in
        let collected' := collected ++ [tweet] in
        if negb (unlimited limit) && reached limit collected'
        then (seen', collected')
        else mergePage limit rest seen' collected'
  end.

(** [maxPages && pagesFetched >= maxPages] *)
Definition pageCeilingHit (options : TimelinePaginationOptions) (pagesFetched : Z) : bool :=
  match maxPages options with
  | Some m => negb (m =? 0) && (m <=? pagesFetched)
  | None => false
  end.

Definition succeed (collected : list TweetData) : SearchResult :=
  {| success := true; tweets := Some collected; error := None |}.

Definition failWith (message : option string) : SearchResult :=
  {| success := false; tweets := None; error := message |}.

(** The [while] loop, written twice in the source with the same text,
    over the enclosing [fetchWithRefresh].  [None] means that [fuel]
    iterations did not reach a [return]. *)
Fixpoint pagedLoop (fetch : Z -> option string -> M PageResult)
    (limit : Limit) (options : TimelinePaginationOptions)
    (fuel : nat) (st : LoopState) : M (option SearchResult) :=
  if negb (loopCondition limit st) then ret (Some (succeed (st_tweets st)))
  else
    match fuel with
    | O => ret None
    | S fuel' =>
        await page := fetch (pageCountFor limit st) (st_cursor st) in
        match page with
        | Failure message _ => ret (Some (failWith (Some message)))
        | Success pageTweets nextCursor _ =>
            let pagesFetched := st_pagesFetched st + 1 in
            let merged := mergePage limit pageTweets (st_seen st) (st_tweets st) in
            if negb (Js.truthy nextCursor)
               || bool_decide (nextCursor = st_cursor st)
               || (Z.of_nat (length pageTweets) =? 0)
            then ret (Some (succeed (snd merged)))
            else if pageCeilingHit options pagesFetched
            then ret (Some (succeed (snd merged)))
            else pagedLoop fetch limit options fuel'
                   {| st_seen := fst merged; st_tweets := snd merged;
                      st_cursor := nextCursor; st_pagesFetched := pagesFetched |}
        end
    end.

Definition getBookmarksPaged (fuel : nat) (limit : Limit)
    (options : TimelinePaginationOptions) : M (option SearchResult) :=
  pagedLoop (fetchWithRefresh bookmarksFetchPage) limit options fuel initialState.

Definition getBookmarkFolderTimelinePaged (fuel : nat) (folderId : string)
    (limit : Limit) (options : TimelinePaginationOptions) : M (option SearchResult) :=
  pagedLoop (fetchWithRefresh (folderFetchPage folderId)) limit options fuel initialState.

(** [getBookmarks(count, options)]; [options] has no [maxPages]. *)
Definition getBookmarks (fuel : nat) (count : Z) : M (option SearchResult) :=
  getBookmarksPaged fuel (Finite count) {| maxPages := None |}.

Definition getAllBookmarks (fuel : nat) (options : TimelinePaginationOptions)
    : M (option SearchResult) :=
  getBookmarksPaged fuel NotFinite options.

Definition getBookmarkFolderTimeline (fuel : nat) (folderId : string) (count : Z)
    : M (option SearchResult) :=
  getBookmarkFolderTimelinePaged fuel folderId (Finite count) {| maxPages := None |}.

Definition getAllBookmarkFolderTimeline (fuel : nat) (folderId : string)
    (options : TimelinePaginationOptions) : M (option SearchResult) :=
  getBookmarkFolderTimelinePaged fuel folderId NotFinite options.

(** *** Likes *)

(** The candidate loop of [tryOnce] in [getLikes]. *)
Fixpoint likesCandidates (mkRequest : string -> Request)
    (queryIds : list string) (vars : Captured) : M PageResult :=
  match queryIds with
  | [] => ret (Failure (default "Unknown error fetching likes" (lastError vars))
                 (Some (had404 vars)))
  | queryId :: rest =>
      await result := doFetch (mkRequest queryId) in
      match result with
      | Rejected message =>
          likesCandidates mkRequest rest
            {| lastError := Some message; had404 := had404 vars |}
      | Resolved response =>
          if status response =? 404 then
            likesCandidates mkRequest rest
              {| lastError := Some (httpStatus response); had404 := true |}
          else if negb (ok response) then
            ret (Failure (httpStatusWithBody response) (Some (had404 vars)))
          else
            match json response with
            | JsonThrows message =>
                likesCandidates mkRequest rest
                  {| lastError := Some message; had404 := had404 vars |}
            | JsonValue data =>
                if hasErrors data then
                  ret (Failure (joinedErrors data) (Some (had404 vars)))
                else
                  ret (Success (parseTweetsFromInstructions (instructions data))
                         None (had404 vars))
            end
      end
  end.

(** [tryOnce] of [getLikes] *)
Definition likesTryOnce (userId : string) (count : Z) : M PageResult :=
  await queryIds := getLikesQueryIds in
  likesCandidates (likesRequest userId count) queryIds initially.

Definition getLikes (count : Z) : M SearchResult :=
  await userResult := lift getCurrentUser in
  match user userResult with
  | Some currentUser =>
      if user_success userResult then
        await firstAttempt := likesTryOnce (user_id currentUser) count in
        match firstAttempt with
        | Success firstTweets _ _ => ret (succeed firstTweets)
        | Failure firstError _ =>
            if had404Of firstAttempt then
              await _ := doRefresh in
              await secondAttempt := likesTryOnce (user_id currentUser) count in
              match secondAttempt with
              | Success secondTweets _ _ => ret (succeed secondTweets)
              | Failure secondError _ => ret (failWith (Some secondError))
              end
            else ret (failWith (Some firstError))
        end
      else ret (failWith (Some (default "Could not determine current user"
                                  (user_error userResult))))
  | None => ret (failWith (Some (default "Could not determine current user"
                                   (user_error userResult))))
  end.

End Engine.

Arguments mkOut {Instructions W A}.
Arguments val {Instructions W A}.
Arguments world {Instructions W A}.
Arguments events {Instructions W A}.
Arguments Data : clear implicits.
Arguments Json : clear implicits.
Arguments Response : clear implicits.
Arguments FetchResult : clear implicits.
Arguments Event : clear implicits.
Arguments TwitterClientBase : clear implicits.
Arguments Out : clear implicits.
Arguments M : clear implicits.

(** ** Observers used to state the properties *)

Section Observers.

Context {Instructions : Type} `{Extractor : ResponseExtractor Instructions}.
Context {W : Type} `{Base : TwitterClientBase Instructions W}.

Definition isRefresh (e : Event Instructions) : bool :=
  match e with EvRefresh => true | _ => false end.

(** Number of [refreshQueryIds] calls in a trace. *)
Definition refreshCount (evs : list (Event Instructions)) : nat :=
  length (filter isRefresh evs).

(** The HTTP calls of a trace, in order. *)
Definition fetchesOf (evs : list (Event Instructions))
    : list (Request * FetchResult Instructions) :=
  omap (fun e => match e with EvFetch rq res => Some (rq, res) | _ => None end) evs.

Definition requestsOf (evs : list (Event Instructions)) : list Request :=
  (fetchesOf evs).*1.

Definition answered404 (res : FetchResult Instructions) : bool :=
  match res with
  | Resolved response => status response =? 404
  | Rejected _ => false
  end.

(** Some HTTP call of the trace was answered with status 404. *)
Definition saw404 (evs : list (Event Instructions)) : bool :=
  existsb answered404 (fetchesOf evs).*2.

(** Every candidate identifier was requested at least once. *)
Definition allCandidatesTried (queryIds : list string)
    (evs : list (Event Instructions)) : bool :=
  forallb (fun q => bool_decide (q ∈ req_queryId <$> requestsOf evs)) queryIds.

(** Events of a call that was retried after each response of [retried]
    and then settled with [final]. *)
Definition retryEvents (request : Request)
    (retried : list (Response Instructions * Z)) (final : FetchResult Instructions)
    : list (Event Instructions) :=
  (retried ≫= fun p => [EvFetch request (Resolved p.1); EvSleep p.2])
  ++ [EvFetch request final].

(** The delay slept after [response] at loop index [attempt]. *)
Definition delayOk (response : Response Instructions) (attempt : Z) (ms : Z) : Prop :=
  match retryAfterMs response with
  | Some hint => ms = hint
  | None => baseDelayMs * 2 ^ attempt <= ms < baseDelayMs * 2 ^ attempt + baseDelayMs
  end.

(** A trace of the transient retry wrapper: every response but the last
    had a recoverable status and was followed by its delay, at most
    [maxRetries] of them, and a recoverable last response means that the
    ceiling was hit. *)
Definition RetryRun (request : Request) (evs : list (Event Instructions))
    (final : FetchResult Instructions) : Prop :=
  exists retried : list (Response Instructions * Z),
    evs = retryEvents request retried final
    /\ (length retried <= Z.to_nat maxRetries)%nat
    /\ (forall i response ms, retried !! i = Some (response, ms) ->
          retryable (status response) = true /\ delayOk response (Z.of_nat i) ms)
    /\ (forall response, final = Resolved response ->
          retryable (status response) = true -> length retried = Z.to_nat maxRetries).

(** A trace in which each candidate tried, in the order of [queryIds],
    went through the retry wrapper. *)
Inductive ViaRetry (mkRequest : string -> Request)
    : list string -> list (Event Instructions) -> Prop :=
| ViaRetry_stop queryIds : ViaRetry mkRequest queryIds []
| ViaRetry_next queryId rest evs final more :
    RetryRun (mkRequest queryId) evs final ->
    ViaRetry mkRequest rest more ->
    ViaRetry mkRequest (queryId :: rest) (evs ++ more).

(** A trace in which each candidate tried, in the order of [queryIds],
    was sent exactly once. *)
Inductive SentOnce (mkRequest : string -> Request)
    : list string -> list (Event Instructions) -> Prop :=
| SentOnce_stop queryIds : SentOnce mkRequest queryIds []
| SentOnce_next queryId rest final more :
    SentOnce mkRequest rest more ->
    SentOnce mkRequest (queryId :: rest) (EvFetch (mkRequest queryId) final :: more).

(** What one iteration of a candidate loop decides from the settled
    request: go on with updated captured variables, or return. *)
Inductive Verdict :=
| Continue (vars : Captured)
| Stop (result : PageResult).

(** The decision in [fetchPage] (bookmarks) and [tryOnce] (folder). *)
Definition judge (vars : Captured) (result : FetchResult Instructions) : Verdict :=
  match result with
  | Rejected message => Continue {| lastError := Some message; had404 := had404 vars |}
  | Resolved response =>
      if status response =? 404 then
        Continue {| lastError := Some (httpStatus response); had404 := true |}
      else if negb (ok response) then
        Stop (Failure (httpStatusWithBody response) (Some (had404 vars)))
      else
        match json response with
        | JsonThrows message =>
            Continue {| lastError := Some message; had404 := had404 vars |}
        | JsonValue data =>
            if hasErrors data && negb (bool_decide (is_Some (instructions data))) then
              Continue {| lastError := Some (joinedErrors data); had404 := had404 vars |}
            else
              Stop (Success (parseTweetsFromInstructions (instructions data))
                      (extractCursorFromInstructions (instructions data))
                      (had404 vars))
        end
  end.

(** The decision in [tryOnce] of [getLikes]. *)
Definition judgeLikes (vars : Captured) (result : FetchResult Instructions) : Verdict :=
  match result with
  | Rejected message => Continue {| lastError := Some message; had404 := had404 vars |}
  | Resolved response =>
      if status response =? 404 then
        Continue {| lastError := Some (httpStatus response); had404 := true |}
      else if negb (ok response) then
        Stop (Failure (httpStatusWithBody response) (Some (had404 vars)))
      else
        match json response with
        | JsonThrows message =>
            Continue {| lastError := Some message; had404 := had404 vars |}
        | JsonValue data =>
            if hasErrors data then
              Stop (Failure (joinedErrors data) (Some (had404 vars)))
            else
              Stop (Success (parseTweetsFromInstructions (instructions data))
                      None (had404 vars))
        end
  end.

(** [o] after the events [evs]. *)
Definition after {A} (evs : list (Event Instructions)) (o : Out Instructions W A)
    : Out Instructions W A :=
  mkOut (val o) (world o) (evs ++ events o).

(** Items of [page] whose identity is neither in [seen] nor earlier in
    [page], in order. *)
Fixpoint dedupById (seen : gset string) (page : list TweetData) : list TweetData :=
  match page with
  | [] => []
  | tweet :: rest =>
      if bool_decide (id tweet ∈ seen) then dedupById seen rest
      else tweet :: dedupById ({[ id tweet ]} ∪ seen) rest
  end.

(** Identities of a list of items. *)
Definition idsOf (items : list TweetData) : gset string := list_to_set (id <$> items).

(** One entry per loop iteration whose page fetch succeeded: the size and
    cursor requested, the items and cursor obtained. *)
Record PageLog := {
  log_pageCount : Z;
  log_cursor : option string;
  log_tweets : list TweetData;
  log_next : option string
}.

(** The first of the loop's [break] conditions: no cursor, the cursor just
    used, or an empty page. *)
Definition endOfCollection (entry : PageLog) : bool :=
  negb (Js.truthy (log_next entry))
  || bool_decide (log_next entry = log_cursor entry)
  || (Z.of_nat (length (log_tweets entry)) =? 0).

(** The loop's variables after a page that did not end the loop. *)
Definition nextState (limit : Limit) (st : LoopState)
    (pageTweets : list TweetData) (nextCursor : option string) : LoopState :=
  let merged := mergePage limit pageTweets (st_seen st) (st_tweets st) in
  {| st_seen := merged.1; st_tweets := merged.2;
     st_cursor := nextCursor; st_pagesFetched := st_pagesFetched st + 1 |}.

(** The pages that the iterations of [pagedLoop] obtain, replaying the
    loop from [st] in world [w]. *)
Fixpoint pagesOf (fetch : Z -> option string -> M Instructions W PageResult)
    (limit : Limit) (options : TimelinePaginationOptions)
    (fuel : nat) (st : LoopState) (w : W) : list PageLog :=
  if negb (loopCondition limit st) then []
  else
    match fuel with
    | O => []
    | S fuel' =>
        let run := fetch (pageCountFor limit st) (st_cursor st) w in
        match val run with
        | Failure _ _ => []
        | Success pageTweets nextCursor _ =>
            let entry := {| log_pageCount := pageCountFor limit st;
                            log_cursor := st_cursor st;
                            log_tweets := pageTweets;
                            log_next := nextCursor |} in
            if endOfCollection entry || pageCeilingHit options (st_pagesFetched st + 1)
            then [entry]
            else entry :: pagesOf fetch limit options fuel'
                            (nextState limit st pageTweets nextCursor) (world run)
        end
    end.

(** Items collected before the [i]-th page of a history, for a finite
    limit [n]. *)
Definition collectedBefore (n : Z) (history : list PageLog) (i : nat) : list TweetData :=
  take (Z.to_nat n) (dedupById ∅ (concat (log_tweets <$> take i history))).

(** The two passes of the folder fetcher, named. *)
Definition folderFirst folderId pageCount pageCursor (w : W)
    : Out Instructions W (PageResult * Captured) :=
  folderTryOnce folderId pageCount pageCursor (val (getBookmarkFolderQueryIds w))
    true initially (world (getBookmarkFolderQueryIds w)).

Definition folderSecond folderId pageCount pageCursor (w : W)
    : Out Instructions W (PageResult * Captured) :=
  let first := folderFirst folderId pageCount pageCursor w in
  folderTryOnce folderId pageCount pageCursor (val (getBookmarkFolderQueryIds w))
    false (val first).2 (world first).

(** The [if] after the passes: a failure naming the cursor variable, with a
    cursor supplied, becomes the cursor-rejected failure. *)
Definition folderVerdict (pageCursor : option string) (attempt : PageResult) : PageResult :=
  if failedNaming variableCursor attempt && Js.truthy pageCursor
  then Failure cursorRejected (Some (had404Of attempt))
  else attempt.

(** Result of [fetchWithRefresh] for a failed attempt: [{ success, error }]. *)
Definition withoutFlag (attempt : PageResult) : PageResult :=
  match attempt with
  | Success _ _ _ => attempt
  | Failure message _ => Failure message None
  end.

(** The [SearchResult] that [getLikes] builds from an attempt. *)
Definition likesResult (attempt : PageResult) : SearchResult :=
  match attempt with
  | Success pageTweets _ _ => succeed pageTweets
  | Failure message _ => failWith (Some message)
  end.

(** A failed attempt that saw a 404: the condition of the refresh. *)
Definition notFoundFailure (attempt : PageResult) : bool :=
  negb (isSuccess attempt) && had404Of attempt.

End Observers.

(** ** A scripted server, to run the engine on concrete exchanges *)

Module Scripted.

(** Instruction payload: the entries of the page and its bottom cursor. *)
Record Timeline := { entries : list TweetData; bottom : option string }.

#[export] Instance extractor : ResponseExtractor Timeline := {|
  parseTweetsFromInstructions i := match i with Some t => entries t | None => [] end;
  extractCursorFromInstructions i := i ≫= bottom
|}.

(** The world: queued outcomes of the next HTTP calls, whether the query
    ids were refreshed, the account lookup's answer and the random draws. *)
Record Server := {
  script : list (FetchResult Timeline);
  refreshed : bool;
  account : UserResult;
  dice : list N
}.

Definition answer (s : Server) : FetchResult Timeline * Server :=
  match script s with
  | r :: rest =>
      (r, {| script := rest; refreshed := refreshed s;
             account := account s; dice := dice s |})
  | [] => (Rejected "fetch failed", s)
  end.

Definition draw (s : Server) : N * Server :=
  match dice s with
  | d :: rest =>
      (d, {| script := script s; refreshed := refreshed s;
             account := account s; dice := rest |})
  | [] => (0%N, s)
  end.

#[export] Instance client : TwitterClientBase Timeline Server := {|
  getQueryId op s := ((if refreshed s then "fresh-" else "stale-") +:+ op, s);
  refreshQueryIds s :=
    {| script := script s; refreshed := true; account := account s; dice := dice s |};
  fetchWithTimeout _ s := answer s;
  getCurrentUser s := (account s, s);
  Math_random s := draw s
|}.

Definition tweet (n : nat) : TweetData := {| id := pretty n; text := "tweet" |}.

(** Tweets numbered [from], …, [from + len - 1]. *)
Definition tweetsFrom (from len : nat) : list TweetData := tweet <$> seq from len.

(** A 200 response carrying a timeline. *)
Definition page (items : list TweetData) (next : option string) : FetchResult Timeline :=
  Resolved {| status := 200; retryAfter := None; body := "{}";
              json := JsonValue {| instructions := Some {| entries := items; bottom := next |};
                                   errors := None |} |}.

(** A 200 response carrying a timeline next to a provider error list. *)
Definition pageWithErrors (items : list TweetData) (next : option string)
    (messages : list string) : FetchResult Timeline :=
  Resolved {| status := 200; retryAfter := None; body := "{}";
              json := JsonValue {| instructions := Some {| entries := items; bottom := next |};
                                   errors := Some messages |} |}.

(** A response with no usable JSON body. *)
Definition reply (code : Z) (hint : option string) (text : string) : FetchResult Timeline :=
  Resolved {| status := code; retryAfter := hint; body := text;
              json := JsonThrows "Unexpected end of JSON input" |}.

Definition me : UserResult :=
  {| user_success := true; user := Some {| user_id := "42" |}; user_error := None |}.

Definition nobody : UserResult :=
  {| user_success := false; user := None; user_error := Some "HTTP 401" |}.

Definition server (outcomes : list (FetchResult Timeline)) : Server :=
  {| script := outcomes; refreshed := false; account := me; dice := [] |}.

(** *** Exchanges used below *)

(** Page 1 has 20 items and cursor c1; page 2 repeats 5 of them and echoes
    c1; a third page is available. *)
Definition echoedCursor : Server :=
  server [page (tweetsFrom 1 20) (Some "c1");
          page (tweetsFrom 1 5) (Some "c1");
          page (tweetsFrom 21 20) (Some "c2")].

(** Two full pages of fresh items. *)
Definition twoPages : Server :=
  server [page (tweetsFrom 1 20) (Some "c1");
          page (tweetsFrom 21 20) (Some "c2")].

(** Both likes candidates are unknown until the refresh. *)
Definition staleLikes : Server :=
  server [reply 404 None ""; reply 404 None ""; page (tweetsFrom 1 10) None].

(** A busy server that would answer the next call. *)
Definition busy : Server :=
  server [reply 503 None "busy"; page (tweetsFrom 1 3) None].

(** A usable page next to a provider error list. *)
Definition partial : Server :=
  server [pageWithErrors (tweetsFrom 1 3) (Some "c1") ["Rate limited"];
          page (tweetsFrom 4 3) None].

(** The primary id is unknown, the first fall-back is forbidden. *)
Definition forbiddenAfter404 : Server :=
  server [reply 404 None ""; reply 403 None "forbidden";
          page (tweetsFrom 1 3) None].

Definition forbidden : Server := server [reply 403 None "forbidden"].

(** Two recoverable answers, the first with a delay hint of 120 seconds. *)
Definition throttled : Server :=
  {| script := [reply 503 (Some "120") "busy"; reply 429 None "slow";
                page (tweetsFrom 1 3) None];
     refreshed := false; account := me; dice := [2 ^ 52]%N |}.

(** A recoverable answer with a hint of 2^53 + 1 seconds. *)
Definition farFuture : Server :=
  server [reply 503 (Some "9007199254740993") "busy"; page (tweetsFrom 1 3) None].

(** A recoverable answer with a hint of 310 nines, more than a double holds. *)
Definition beyondDouble : Server :=
  server [reply 503 (Some (Js.digitsString (replicate 310 9%nat))) "busy";
          page (tweetsFrom 1 3) None].

(** The server rejects the page-size variable. *)
Definition countRejected : Server :=
  server [reply 400 None (variableCount +:+ " is not accepted");
          page (tweetsFrom 1 3) (Some "c2")].

(** No session. *)
Definition anonymous : Server :=
  {| script := [page (tweetsFrom 1 3) None];
     refreshed := false; account := nobody; dice := [] |}.

(** The loop's variables after the first page of [echoedCursor]. *)
Definition afterFirstPage : LoopState :=
  {| st_seen := idsOf (tweetsFrom 1 20); st_tweets := tweetsFrom 1 20;
     st_cursor := Some "c1"; st_pagesFetched := 1 |}.

End Scripted.


(** ** Further observers *)

Section Measures.

Context {Instructions : Type}.

(** The delays slept in a trace, in order. *)
Definition sleepsOf (evs : list (Event Instructions)) : list Z :=
  omap (fun e => match e with EvSleep ms => Some ms | _ => None end) evs.

(** Number of HTTP calls in a trace. *)
Definition callCount (evs : list (Event Instructions)) : nat :=
  length (fetchesOf evs).

(** Total time slept in a trace, in milliseconds. *)
Definition totalSleep (evs : list (Event Instructions)) : Z :=
  foldr Z.add 0 (sleepsOf evs).

(** No response of the trace carries a Retry-After header. *)
Definition hintless (evs : list (Event Instructions)) : Prop :=
  Forall (fun res => match res with
                     | Resolved response => retryAfter response = None
                     | Rejected _ => True
                     end) (fetchesOf evs).*2.

(** Every HTTP call of the trace was rejected (network failure). *)
Definition allRejected (evs : list (Event Instructions)) : Prop :=
  Forall (fun res => match res with
                     | Resolved _ => False
                     | Rejected _ => True
                     end) (fetchesOf evs).*2.

End Measures.

(** ** Removing a bookmark ([src/lib/twitter-client-bookmarks.ts]) *)

(** [{ success, error? }] *)
Record BookmarkMutationResult := {
  mutation_success : bool;
  mutation_error : option string
}.

(** Where a mutation is posted: the operation URL
    [`${TWITTER_API_BASE}/${queryId}/DeleteBookmark`] or the generic
    [TWITTER_GRAPHQL_POST_URL]. *)
Inductive MutationUrl :=
| OperationUrl (queryId : string)
| GraphqlPostUrl.

(** A POST of [unbookmark]: its URL, the tweet id (in [variables] and in the
    referer header) and the [queryId] member of the body. *)
Record MutationRequest := {
  mut_url : MutationUrl;
  mut_tweetId : string;
  mut_queryId : string
}.

(** How an [async] function settles: it returns, or the promise it returns
    is rejected. *)
Inductive Settled (A : Type) :=
| Fulfilled (value : A)
| Thrown (message : string).
Arguments Fulfilled {A}.
Arguments Thrown {A}.

Section Unbookmark.

Context {Instructions : Type}.
Context {W : Type} `{Base : TwitterClientBase Instructions W}.

(** [this.fetchWithTimeout] at the POST requests of [unbookmark]. *)
Context (postWithTimeout : MutationRequest -> W -> FetchResult Instructions * W).

Inductive MutationEvent :=
| EvPost (request : MutationRequest) (result : FetchResult Instructions)
| EvRefreshIds.

Record MutationOut := mkMutationOut {
  mutation_val : Settled BookmarkMutationResult;
  mutation_world : W;
  mutation_events : list MutationEvent
}.

Definition mutationFailed (message : string) : BookmarkMutationResult :=
  {| mutation_success := false; mutation_error := Some message |}.

(** [parseResponse]; a body that does not decode makes it throw. *)
Definition parseResponse (response : Response Instructions)
    : Settled BookmarkMutationResult :=
  if negb (ok response) then Fulfilled (mutationFailed (httpStatusWithBody response))
  else
    match json response with
    | JsonThrows message => Thrown message
    | JsonValue data =>
        if hasErrors data then Fulfilled (mutationFailed (joinedErrors data))
        else Fulfilled {| mutation_success := true; mutation_error := None |}
    end.

(** [unbookmark].  The three [fetchWithTimeout] calls are awaited inside the
    [try] block, so their rejections are caught; [parseResponse] is
    returned without [await], so what it throws is not. *)
Definition unbookmark (tweetId : string) (w : W) : MutationOut :=
  let resolved := getQueryId "DeleteBookmark" w in
  let first := {| mut_url := OperationUrl resolved.1; mut_tweetId := tweetId;
                  mut_queryId := resolved.1 |} in
  let sent1 := postWithTimeout first resolved.2 in
  match sent1.1 with
  | Rejected message =>
      mkMutationOut (Fulfilled (mutationFailed message)) sent1.2 [EvPost first sent1.1]
  | Resolved response =>
      if status response =? 404 then
        let again := getQueryId "DeleteBookmark" (refreshQueryIds sent1.2) in
        let second := {| mut_url := OperationUrl again.1; mut_tweetId := tweetId;
                         mut_queryId := again.1 |} in
        let sent2 := postWithTimeout second again.2 in
        match sent2.1 with
        | Rejected message =>
            mkMutationOut (Fulfilled (mutationFailed message)) sent2.2
              [EvPost first sent1.1; EvRefreshIds; EvPost second sent2.1]
        | Resolved response2 =>
            if status response2 =? 404 then
              let third := {| mut_url := GraphqlPostUrl; mut_tweetId := tweetId;
                              mut_queryId := again.1 |} in
              let sent3 := postWithTimeout third sent2.2 in
              match sent3.1 with
              | Rejected message =>
                  mkMutationOut (Fulfilled (mutationFailed message)) sent3.2
                    [EvPost first sent1.1; EvRefreshIds; EvPost second sent2.1;
                     EvPost third sent3.1]
              | Resolved retry =>
                  mkMutationOut (parseResponse retry) sent3.2
                    [EvPost first sent1.1; EvRefreshIds; EvPost second sent2.1;
                     EvPost third sent3.1]
              end
            else
              mkMutationOut (parseResponse response2) sent2.2
                [EvPost first sent1.1; EvRefreshIds; EvPost second sent2.1]
        end
      else mkMutationOut (parseResponse response) sent1.2 [EvPost first sent1.1]
  end.

(** The POSTs of a trace, in order. *)
Definition postsOf (evs : list MutationEvent)
    : list (MutationRequest * FetchResult Instructions) :=
  omap (fun e => match e with EvPost rq res => Some (rq, res) | _ => None end) evs.

(** Number of [refreshQueryIds] calls in a trace. *)
Definition idRefreshes (evs : list MutationEvent) : nat :=
  length (omap (fun e => match e with EvRefreshIds => Some tt | _ => None end) evs).

(** What a settled POST decides when it is the last one. *)
Definition decided (result : FetchResult Instructions) : Settled BookmarkMutationResult :=
  match result with
  | Rejected message => Fulfilled (mutationFailed message)
  | Resolved response => parseResponse response
  end.

End Unbookmark.

Arguments MutationEvent : clear implicits.
Arguments MutationOut : clear implicits.

(** ** The bookmarks command ([src/commands/bookmarks.ts]) *)

(** The options of the command that decide what is fetched ([--json] and
    [--json-full] only change the rendering). *)
Record BookmarksOptions := {
  opt_count : option string;
  opt_folderId : option string;
  opt_all : bool;
  opt_maxPages : option string
}.

(** The part of the resolved cookies that the command looks at. *)
Record Cookies := { authToken : option string; ct0 : option string }.

(** What the action ends with: [process.exit(code)], or
    [ctx.printTweets(tweets, { …, emptyMessage })]. *)
Inductive CommandOutcome :=
| Exit (code : Z)
| PrintTweets (items : list TweetData) (emptyMessage : string).

(** Lines written with [console.error], and the end of the action. *)
Record CommandRun := { stderr : list string; outcome : CommandOutcome }.

(** What the validation of the options decides: an error message, or the
    client method to call, given by the folder, the limit and the options. *)
Inductive Plan :=
| Reject (message : string)
| Call (folder : option string) (limit : Limit) (options : TimelinePaginationOptions).

Section BookmarksCommand.

Context {Instructions : Type} `{Extractor : ResponseExtractor Instructions}.
Context {W : Type} `{Base : TwitterClientBase Instructions W}.

(** [ctx.p], the prefix of a kind of line, and [extractBookmarkFolderId]
    of [src/lib/extract-bookmark-folder-id.js], both external. *)
Context (p : string -> string).
Context (extractBookmarkFolderId : string -> option string).

(** [value || fallback] on an optional string *)
Definition orElse (value : option string) (fallback : string) : string :=
  if Js.truthy value then default fallback value else fallback.

(** [!Number.isFinite(n) || n <= 0], where [None] is [NaN] *)
Definition notPositive (n : option Z) : bool :=
  match n with
  | None => true
  | Some z => z <=? 0
  end.

(** [cmdOpts.maxPages ? Number.parseInt(cmdOpts.maxPages, 10) : undefined];
    the outer [None] is [undefined]. *)
Definition parsedMaxPages (opts : BookmarksOptions) : option (option Z) :=
  if Js.truthy (opt_maxPages opts)
  then Some (opt_maxPages opts ≫= Js.parseInt10)
  else None.

(** [Number.parseInt(cmdOpts.count || '20', 10)] *)
Definition parsedCount (opts : BookmarksOptions) : option Z :=
  Js.parseInt10 (orElse (opt_count opts) "20").

(** The checks of the action, in their order, up to the choice of the
    client method. *)
Definition planBookmarks (cookies : Cookies) (opts : BookmarksOptions) : Plan :=
  let count := parsedCount opts in
  let maxPages := parsedMaxPages opts in
  if negb (Js.truthy (authToken cookies)) || negb (Js.truthy (ct0 cookies)) then
    Reject (p "err" +:+ "Missing required credentials")
  else if bool_decide (maxPages <> None) && negb (opt_all opts) then
    Reject (p "err" +:+ "--max-pages requires --all.")
  else if negb (opt_all opts) && notPositive count then
    Reject (p "err" +:+ "Invalid --count. Expected a positive integer.")
  else if bool_decide (maxPages <> None) && notPositive (mjoin maxPages) then
    Reject (p "err" +:+ "Invalid --max-pages. Expected a positive integer.")
  else
    let folderId :=
      if Js.truthy (opt_folderId opts)
      then opt_folderId opts ≫= extractBookmarkFolderId
      else None in
    if Js.truthy (opt_folderId opts) && negb (Js.truthy folderId) then
      Reject (p "err" +:+ "Invalid --folder-id. Expected numeric ID or https://x.com/i/bookmarks/<id>.")
    else
      Call (if Js.truthy folderId then folderId else None)
        (if opt_all opts then NotFinite else Finite (default 0 count))
        {| maxPages := if opt_all opts then mjoin maxPages else None |}.

(** The client call of the action. *)
Definition callClient (fuel : nat) (folder : option string) (limit : Limit)
    (options : TimelinePaginationOptions) : M Instructions W (option SearchResult) :=
  match folder with
  | Some folderId => getBookmarkFolderTimelinePaged fuel folderId limit options
  | None => getBookmarksPaged fuel limit options
  end.

(** [emptyMessage] *)
Definition emptyMessageFor (folder : option string) : string :=
  match folder with
  | Some _ => "No bookmarks found in folder."
  | None => "No bookmarks found."
  end.

(** The end of the action: [if (result.success && result.tweets) … else …]. *)
Definition report (warnLines : list string) (folder : option string)
    (result : SearchResult) : CommandRun :=
  match success result, tweets result with
  | true, Some items =>
      {| stderr := warnLines; outcome := PrintTweets items (emptyMessageFor folder) |}
  | _, _ =>
      {| stderr := warnLines
                   ++ [p "err" +:+ "Failed to fetch bookmarks: "
                       +:+ default "undefined" (error result)];
         outcome := Exit 1 |}
  end.

(** The action of the command on resolved cookies and warnings.  [None]
    means that [fuel] iterations of the client's loop did not return. *)
Definition bookmarksAction (fuel : nat) (cookies : Cookies) (warnings : list string)
    (opts : BookmarksOptions) : M Instructions W (option CommandRun) :=
  let warnLines := (fun warning => p "warn" +:+ warning) <$> warnings in
  match planBookmarks cookies opts with
  | Reject message =>
      ret (Some {| stderr := warnLines ++ [message]; outcome := Exit 1 |})
  | Call folder limit options =>
      bind (callClient fuel folder limit options)
        (fun result => ret (report warnLines folder <$> result))
  end.

End BookmarksCommand.

(** ** Tweet ids from URLs ([src/lib/extract-tweet-id.ts]) *)

Module TweetId.

(** [\d] *)
Definition isDigit (c : ascii) : bool :=
  let n := Z.of_nat (nat_of_ascii c) in (48 <=? n) && (n <=? 57).

(** [\w]: ASCII letters, digits and the underscore *)
Definition isWord (c : ascii) : bool :=
  isDigit c || Js.isLetter c || Ascii.eqb c "_".

(** The rest of [s] after the literal [literal], if [s] starts with it. *)
Fixpoint stripPrefix (literal s : string) : option string :=
  match literal with
  | EmptyString => Some s
  | String a literal' =>
      match s with
      | String b s' => if Ascii.eqb a b then stripPrefix literal' s' else None
      | EmptyString => None
      end
  end.

(** The longest prefix of [s] made of characters in the class, and the
    rest: what a greedy [\w+] or [\d+] takes. *)
Fixpoint spanWhile (class : ascii -> bool) (s : string) : string * string :=
  match s with
  | String c s' =>
      if class c then let r := spanWhile class s' in (String c r.1, r.2)
      else (EmptyString, s)
  | EmptyString => (EmptyString, EmptyString)
  end.

(** [(?:twitter\.com|x\.com)] at the start of [s] *)
Definition stripDomain (s : string) : option string :=
  match stripPrefix "twitter.com" s with
  | Some rest => Some rest
  | None => stripPrefix "x.com" s
  end.

(** [\/\w+\/status\/(\d+)] at the start of [s]: the captured digits.  A
    shorter [\w+] cannot be followed by the slash, and nothing follows the
    [\d+], so the greedy choices are the only ones. *)
Definition matchPath (s : string) : option string :=
  match stripPrefix "/" s with
  | None => None
  | Some afterSlash =>
      match spanWhile isWord afterSlash with
      | (EmptyString, _) => None
      | (_, afterUser) =>
          match stripPrefix "/status/" afterUser with
          | None => None
          | Some afterStatus =>
              match spanWhile isDigit afterStatus with
              | (EmptyString, _) => None
              | (digits, _) => Some digits
              end
          end
      end
  end.

(** The regular expression anchored at the start of [s]. *)
Definition matchAt (s : string) : option string := stripDomain s ≫= matchPath.

(** [input.match(regex)]: the capture of the leftmost match. *)
Fixpoint search (s : string) : option string :=
  match matchAt s with
  | Some digits => Some digits
  | None =>
      match s with
      | String _ s' => search s'
      | EmptyString => None
      end
  end.

Definition extractTweetId (input : string) : string :=
  match search input with
  | Some digits => digits
  | None => input
  end.

(** Every character of [s] is in the class. *)
Fixpoint allChars (class : ascii -> bool) (s : string) : bool :=
  match s with
  | String c s' => class c && allChars class s'
  | EmptyString => true
  end.

(** [s] starts with a character of the class. *)
Definition startsWith (class : ascii -> bool) (s : string) : bool :=
  match s with
  | String c _ => class c
  | EmptyString => false
  end.

(** The URL shapes of a status link. *)
Definition schemes : list string :=
  [""; "https://"; "http://"; "https://www."; "https://mobile."].
Definition domains : list string := ["x.com"; "twitter.com"].

End TweetId.

(** ** Tweet ids from URLs, with [TWEET_URL_REGEX]

    The version of [extractTweetId] whose pattern is
    [/(?:twitter\.com|x\.com)\/(?:\w+\/status|i\/web\/status)\/(\d+)/i]. *)

Module TweetUrl.
Import TweetId.

(** The canonical form of a character under the [i] flag: ASCII letters
    are compared in upper case, every other character as it is. *)
Definition canonicalize (c : ascii) : ascii :=
  let n := nat_of_ascii c in
  if Nat.leb 97 n && Nat.leb n 122 then ascii_of_nat (n - 32) else c.

(** [stripPrefix] under the [i] flag. *)
Fixpoint stripPrefixI (literal s : string) : option string :=
  match literal with
  | EmptyString => Some s
  | String a literal' =>
      match s with
      | String b s' =>
          if Ascii.eqb (canonicalize a) (canonicalize b) then stripPrefixI literal' s'
          else None
      | EmptyString => None
      end
  end.

(** [\/(\d+)], the end of the pattern *)
Definition idAfterSlash (s : string) : option string :=
  match stripPrefix "/" s with
  | None => None
  | Some afterSlash =>
      match spanWhile isDigit afterSlash with
      | (EmptyString, _) => None
      | (digits, _) => Some digits
      end
  end.

(** The alternative [\w+\/status], followed by the end of the pattern.  A
    shorter [\w+] cannot be followed by the slash. *)
Definition viaUser (s : string) : option string :=
  match spanWhile isWord s with
  | (EmptyString, _) => None
  | (_, afterUser) => stripPrefixI "/status" afterUser ≫= idAfterSlash
  end.

(** The alternative [i\/web\/status], followed by the end of the pattern. *)
Definition viaWeb (s : string) : option string :=
  stripPrefixI "i/web/status" s ≫= idAfterSlash.

(** The pattern after the domain: the alternatives in their order. *)
Definition matchPathI (s : string) : option string :=
  match stripPrefix "/" s with
  | None => None
  | Some afterSlash =>
      match viaUser afterSlash with
      | Some digits => Some digits
      | None => viaWeb afterSlash
      end
  end.

(** The pattern anchored at the start of [s]: the domains in their order. *)
Definition matchAtI (s : string) : option string :=
  match stripPrefixI "twitter.com" s ≫= matchPathI with
  | Some digits => Some digits
  | None => stripPrefixI "x.com" s ≫= matchPathI
  end.

(** [TWEET_URL_REGEX.exec(input)]: the capture of the leftmost match. *)
Fixpoint exec (s : string) : option string :=
  match matchAtI s with
  | Some digits => Some digits
  | None =>
      match s with
      | String _ s' => exec s'
      | EmptyString => None
      end
  end.

Definition extractTweetId (input : string) : string :=
  match exec input with
  | Some digits => digits
  | None => input
  end.

(** [digits] is a non-empty run of decimal digits that occurs in [s]. *)
Definition digitsWithin (digits s : string) : Prop :=
  digits <> EmptyString /\ allChars isDigit digits = true
  /\ exists before after, s = before +:+ digits +:+ after.

(** No character of [s] is a dot. *)
Definition dotless (s : string) : bool :=
  allChars (fun c => negb (Ascii.eqb c ".")) s.

End TweetUrl.

(** ** The client for single tweets

    The [TwitterClient] class with [getTweet], [tweet] and [reply]: one
    GraphQL call each, followed by the decoding of the response. *)

Module TweetClient.

(** Optional chaining [value?.member]. *)
Notation "value ?> member" := (mbind member value)
  (at level 50, left associativity, only parsing).

(** *** Decoded response bodies; every member is optional *)

Record TweetLegacy := {
  full_text : option string;
  created_at : option string;
  reply_count : option Z;
  retweet_count : option Z;
  favorite_count : option Z
}.

Record UserLegacy := { screen_name : option string; name : option string }.

(** [core.user_results.result.legacy] *)
Record UserNode := { user_legacy : option UserLegacy }.
Record UserResults := { user_result : option UserNode }.
Record Core := { user_results : option UserResults }.

(** [tweet_results.result] *)
Record TweetNode := {
  rest_id : option string;
  legacy : option TweetLegacy;
  core : option Core
}.

(** [entry.content.itemContent.tweet_results.result]; [create_tweet] has
    the shape of [itemContent]. *)
Record TweetResults := { result : option TweetNode }.
Record ItemContent := { tweet_results : option TweetResults }.
Record Content := { itemContent : option ItemContent }.
Record Entry := { content : option Content }.
Record Instruction := { entries : option (list Entry) }.

(** [threaded_conversation_with_injections_v2], with its [instructions] *)
Record Conversation := { thread_instructions : option (list Instruction) }.

(** The [data] member of a response body; it is the payload of [Data]. *)
Record GraphqlData := {
  tweetResult : option TweetResults;
  threaded_conversation_with_injections_v2 : option Conversation;
  create_tweet : option ItemContent
}.

(** *** Results *)

Record Author := { username : string; author_name : string }.

Record TweetData := {
  id : string;
  text : string;
  author : Author;
  createdAt : option string;
  replyCount : option Z;
  retweetCount : option Z;
  likeCount : option Z
}.

(** [GetTweetResult = { success; tweet?; error? }] and
    [TweetResult = { success; tweetId?; error? }] *)
Record Result (A : Type) := {
  success : bool;
  payload : option A;
  error : option string
}.
Arguments success {A}.
Arguments payload {A}.
Arguments error {A}.

Definition failure {A} (message : string) : Result A :=
  {| success := false; payload := None; error := Some message |}.

(** *** The client and its requests *)

Record TwitterClientOptions := { cookies : Cookies; userAgent : option string }.

Record TwitterClient := {
  client_authToken : string;
  client_ct0 : string;
  client_userAgent : string
}.

Definition defaultUserAgent : string :=
  "Mozilla/5.0 (Macintosh; Intel Mac OS X 10_15_7) AppleWebKit/537.36 (KHTML, like Gecko) Chrome/131.0.0.0 Safari/537.36".

(** [new TwitterClient(options)]; [inl] is the message of the error that
    the constructor throws. *)
Definition newTwitterClient (options : TwitterClientOptions) : string + TwitterClient :=
  if negb (Js.truthy (authToken (cookies options)))
     || negb (Js.truthy (ct0 (cookies options)))
  then inl "Both authToken and ct0 cookies are required"
  else inr {| client_authToken := default "" (authToken (cookies options));
              client_ct0 := default "" (ct0 (cookies options));
              client_userAgent := orElse (userAgent options) defaultUserAgent |}.

(** The headers of [getHeaders] that depend on the client. *)
Record Headers := { x_csrf_token : string; cookie : string; user_agent : string }.

Definition getHeaders (client : TwitterClient) : Headers :=
  {| x_csrf_token := client_ct0 client;
     cookie := "auth_token=" +:+ client_authToken client +:+ "; ct0=" +:+ client_ct0 client;
     user_agent := client_userAgent client |}.

(** The GET of [TweetDetail] with its [focalTweetId], or the POST of
    [CreateTweet] with its [tweet_text] and [reply.in_reply_to_tweet_id]. *)
Inductive Call :=
| TweetDetail (focalTweetId : string)
| CreateTweet (tweet_text : string) (in_reply_to_tweet_id : option string).

Record HttpRequest := { rq_headers : Headers; rq_call : Call }.

Definition tweetDetailRequest (client : TwitterClient) (tweetId : string) : HttpRequest :=
  {| rq_headers := getHeaders client; rq_call := TweetDetail tweetId |}.

Definition createTweetRequest (client : TwitterClient) (tweet_text : string)
    (replyTo : option string) : HttpRequest :=
  {| rq_headers := getHeaders client; rq_call := CreateTweet tweet_text replyTo |}.

(** *** Decoding *)

(** [entry.content?.itemContent?.tweet_results?.result] *)
Definition resultOf (entry : Entry) : option TweetNode :=
  content entry ?> itemContent ?> tweet_results ?> result.

(** The inner [for] loop of [findTweetInInstructions]. *)
Fixpoint findInEntries (tweetId : string) (entryList : list Entry) : option TweetNode :=
  match entryList with
  | [] => None
  | entry :: rest =>
      let found := resultOf entry in
      if bool_decide (found ?> rest_id = Some tweetId) then found
      else findInEntries tweetId rest
  end.

(** The outer [for] loop, over [instruction.entries || []]. *)
Fixpoint findInInstructions (tweetId : string) (thread : list Instruction)
    : option TweetNode :=
  match thread with
  | [] => None
  | instruction :: rest =>
      match findInEntries tweetId (default [] (entries instruction)) with
      | Some found => Some found
      | None => findInInstructions tweetId rest
      end
  end.

Definition findTweetInInstructions (instructions : option (list Instruction))
    (tweetId : string) : option TweetNode :=
  match instructions with
  | None => None
  | Some thread => findInInstructions tweetId thread
  end.

(** The tweet results of a thread, in document order. *)
Definition threadResults (thread : list Instruction) : list TweetNode :=
  thread ≫= (fun instruction => omap resultOf (default [] (entries instruction))).

(** [found] is the first node of [nodes] with the given id, if any. *)
Inductive FirstMatch (tweetId : string) (nodes : list TweetNode)
    : option TweetNode -> Prop :=
| first_found before node after :
    nodes = before ++ node :: after ->
    rest_id node = Some tweetId ->
    Forall (fun other => rest_id other <> Some tweetId) before ->
    FirstMatch tweetId nodes (Some node)
| first_none :
    Forall (fun other => rest_id other <> Some tweetId) nodes ->
    FirstMatch tweetId nodes None.

(** [getTweet] from [let tweetResult = …] on, on [data.data]. *)
Definition readTweet (tweetId : string) (data : option GraphqlData) : Result TweetData :=
  let tweetResult :=
    match data ?> tweetResult ?> result with
    | Some direct => Some direct
    | None =>
        findTweetInInstructions
          (data ?> threaded_conversation_with_injections_v2 ?> thread_instructions)
          tweetId
    end in
  match tweetResult with
  | None => failure "Tweet not found in response"
  | Some node =>
      let userLegacy := core node ?> user_results ?> user_result ?> user_legacy in
      if negb (Js.truthy (legacy node ?> full_text))
         || negb (Js.truthy (userLegacy ?> screen_name))
      then failure "Incomplete tweet data"
      else
        (* both are non-empty strings here *)
        let full := default "" (legacy node ?> full_text) in
        let screen := default "" (userLegacy ?> screen_name) in
        {| success := true;
           payload := Some {| id := orElse (rest_id node) tweetId;
                              text := full;
                              author := {| username := screen;
                                           author_name := orElse (userLegacy ?> name) screen |};
                              createdAt := legacy node ?> created_at;
                              replyCount := legacy node ?> reply_count;
                              retweetCount := legacy node ?> retweet_count;
                              likeCount := legacy node ?> favorite_count |};
           error := None |}
  end.

(** [createTweet] from [const tweetId = …] on, on [data.data]. *)
Definition readCreated (data : option GraphqlData) : Result string :=
  let tweetId := data ?> create_tweet ?> tweet_results ?> result ?> rest_id in
  if Js.truthy tweetId
  then {| success := true; payload := tweetId; error := None |}
  else failure "Tweet created but no ID returned".

(** The [try] block that [getTweet] and [createTweet] both write around
    their decoding: a rejected [fetch] or [json()] is caught and gives its
    message, a non-2xx status gives the status line, a non-empty error
    list gives the joined messages. *)
Definition settle {A} (read : option GraphqlData -> Result A)
    (outcome : FetchResult GraphqlData) : Result A :=
  match outcome with
  | Rejected message => failure message
  | Resolved response =>
      if negb (ok response) then failure (httpStatusWithBody response)
      else
        match json response with
        | JsonThrows message => failure message
        | JsonValue data =>
            if hasErrors data then failure (joinedErrors data)
            else read (instructions data)
        end
  end.

Section Methods.

Context {W : Type}.

(** The global [fetch]. *)
Context (fetch : HttpRequest -> W -> FetchResult GraphqlData * W).

Definition getTweet (client : TwitterClient) (tweetId : string) (w : W)
    : Result TweetData * W :=
  let sent := fetch (tweetDetailRequest client tweetId) w in
  (settle (readTweet tweetId) sent.1, sent.2).

Definition createTweet (client : TwitterClient) (tweet_text : string)
    (replyTo : option string) (w : W) : Result string * W :=
  let sent := fetch (createTweetRequest client tweet_text replyTo) w in
  (settle readCreated sent.1, sent.2).

Definition tweet (client : TwitterClient) (tweet_text : string) : W -> Result string * W :=
  createTweet client tweet_text None.

Definition reply (client : TwitterClient) (tweet_text replyToTweetId : string)
    : W -> Result string * W :=
  createTweet client tweet_text (Some replyToTweetId).

End Methods.

End TweetClient.

(** ** Scripted exchanges for the mutation and the command *)

Module ScriptedCommand.
Import Scripted.

(** [fetchWithTimeout] at a POST: the next queued outcome. *)
Definition post (_ : MutationRequest) (s : Server) : FetchResult Timeline * Server :=
  answer s.

(** A 200 response to a mutation, without errors. *)
Definition removed : FetchResult Timeline :=
  Resolved {| status := 200; retryAfter := None; body := "{}";
              json := JsonValue {| instructions := None; errors := None |} |}.

(** The operation is unknown under both ids; the generic URL serves it. *)
Definition staleDelete : Server :=
  server [reply 404 None ""; reply 404 None ""; removed].

(** [ctx.p] as the test suite stubs it: no prefix. *)
Definition noPrefix (_ : string) : string := "".

(** A stand-in for [extractBookmarkFolderId]: numeric ids only. *)
Definition numericFolderId (s : string) : option string :=
  if TweetId.allChars TweetId.isDigit s then Some s else None.

(** The cookies of the test suite. *)
Definition session : Cookies := {| authToken := Some "auth"; ct0 := Some "ct0" |}.

(** [bird bookmarks --max-pages 2] *)
Definition maxPagesOnly : BookmarksOptions :=
  {| opt_count := Some "20"; opt_folderId := None; opt_all := false;
     opt_maxPages := Some "2" |}.

(** [bird bookmarks -n 5] *)
Definition firstFive : BookmarksOptions :=
  {| opt_count := Some "5"; opt_folderId := None; opt_all := false;
     opt_maxPages := None |}.

End ScriptedCommand.

(** ** Scripted exchanges for the client for single tweets *)

Module ScriptedTweets.
Import TweetClient.

(** The world: the queued outcomes of the next [fetch] calls. *)
Definition fetch (_ : HttpRequest) (w : list (FetchResult GraphqlData))
    : FetchResult GraphqlData * list (FetchResult GraphqlData) :=
  match w with
  | outcome :: rest => (outcome, rest)
  | [] => (Rejected "fetch failed", [])
  end.

(** A complete tweet result by [steipete]. *)
Definition node (tweetId content : string) : TweetNode :=
  {| rest_id := Some tweetId;
     legacy := Some {| full_text := Some content; created_at := None;
                       reply_count := Some 0; retweet_count := Some 0;
                       favorite_count := Some 0 |};
     core := Some {| user_results :=
                       Some {| user_result :=
                                 Some {| user_legacy :=
                                           Some {| screen_name := Some "steipete";
                                                   name := Some "Peter" |} |} |} |} |}.

Definition entryOf (found : TweetNode) : Entry :=
  {| content := Some {| itemContent := Some {| tweet_results := Some {| result := Some found |} |} |} |}.

(** An instruction without entries, then a cursor entry and two tweets. *)
Definition conversation : list Instruction :=
  [ {| entries := None |};
    {| entries := Some [ {| content := None |};
                         entryOf (node "1" "first");
                         entryOf (node "2" "second") ] |} ].

Definition respond (data : GraphqlData) : FetchResult GraphqlData :=
  Resolved {| status := 200; retryAfter := None; body := "{}";
              json := JsonValue {| instructions := Some data; errors := None |} |}.

(** A TweetDetail body with the thread only. *)
Definition threadOnly : GraphqlData :=
  {| tweetResult := None;
     threaded_conversation_with_injections_v2 :=
       Some {| thread_instructions := Some conversation |};
     create_tweet := None |}.

(** A CreateTweet body with the id of the new tweet. *)
Definition created (tweetId : string) : GraphqlData :=
  {| tweetResult := None;
     threaded_conversation_with_injections_v2 := None;
     create_tweet :=
       Some {| tweet_results :=
                 Some {| result := Some {| rest_id := Some tweetId; legacy := None;
                                           core := None |} |} |} |}.

Definition loggedIn : TwitterClientOptions :=
  {| cookies := ScriptedCommand.session; userAgent := None |}.

Definition steipete : TwitterClient :=
  {| client_authToken := "auth"; client_ct0 := "ct0";
     client_userAgent := defaultUserAgent |}.

(** The second tweet of [conversation], as [getTweet] returns it. *)
Definition second : TweetData :=
  {| id := "2"; text := "second";
     author := {| username := "steipete"; author_name := "Peter" |};
     createdAt := None; replyCount := Some 0; retweetCount := Some 0;
     likeCount := Some 0 |}.

End ScriptedTweets.

(** * Properties *)

Section Facts.

Context {Instructions : Type} `{Extractor : ResponseExtractor Instructions}.
Context {W : Type} `{Base : TwitterClientBase Instructions W}.

Abbreviation Ev := (Event Instructions).
Abbreviation Run := (M Instructions W).

(** ** The monad *)

Lemma events_bind {A B} (m : Run A) (k : A -> Run B) w :
  events (bind m k w) = events (m w) ++ events (k (val (m w)) (world (m w))).
Proof. reflexivity. Qed.

Lemma val_bind {A B} (m : Run A) (k : A -> Run B) w :
  val (bind m k w) = val (k (val (m w)) (world (m w))).
Proof. reflexivity. Qed.

Lemma world_bind {A B} (m : Run A) (k : A -> Run B) w :
  world (bind m k w) = world (k (val (m w)) (world (m w))).
Proof. reflexivity. Qed.

(** ** [parseInt] on the two kinds of Retry-After values *)

Lemma digitValue_digitChar d :
  (d < 10)%nat -> Js.digitValue (Js.digitChar d) = Some (Z.of_nat d).
Proof.
  intros Hd. do 10 (destruct d as [|d]; [reflexivity|]). lia.
Qed.

Lemma digitChar_plain d :
  (d < 10)%nat ->
  Js.isWhiteSpace (Js.digitChar d) = false
  /\ Js.digitChar d <> "-"%char /\ Js.digitChar d <> "+"%char.
Proof.
  intros Hd. do 10 (destruct d as [|d]; [repeat split; discriminate|]). lia.
Qed.

Lemma parseDigits_digits ds acc :
  Forall (fun d => (d < 10)%nat) ds ->
  Js.parseDigits (Js.digitsString ds) (Some acc)
  = Some (fold_left (fun a d => 10 * a + Z.of_nat d) ds acc).
Proof.
  intros Hds. revert acc. induction Hds as [|d ds Hd _ IH]; intros acc.
  - reflexivity.
  - change (Js.digitsString (d :: ds))
      with (String (Js.digitChar d) (Js.digitsString ds)).
    cbn [Js.parseDigits]. rewrite (digitValue_digitChar d Hd).
    cbn [default]. apply IH.
Qed.

Lemma trimStart_digit d rest :
  (d < 10)%nat ->
  Js.trimStart (String (Js.digitChar d) rest) = String (Js.digitChar d) rest.
Proof.
  intros Hd.
  do 10 (destruct d as [|d]; [destruct rest as [|b [|c rest]]; reflexivity|]). lia.
Qed.

Lemma decimal_nonneg ds : 0 <= Js.decimal ds.
Proof.
  assert (H : forall acc, 0 <= acc ->
                0 <= fold_left (fun a d => 10 * a + Z.of_nat d) ds acc).
  { induction ds as [|d ds IH]; intros a Ha; [exact Ha|]. apply IH. lia. }
  apply H. lia.
Qed.

(** Integers below 2^53 in absolute value are doubles. *)
Lemma roundToDouble_exact z : Z.abs z < 2 ^ 53 -> Js.roundToDouble z = z.
Proof.
  intros Hz. unfold Js.roundToDouble. cbv zeta.
  assert (Hlog : Z.log2 (Z.abs z) <= 52).
  { destruct (Z.eq_dec (Z.abs z) 0) as [->|Hne]; [cbn; lia|].
    assert (Z.log2 (Z.abs z) < 53) by (apply Z.log2_lt_pow2; lia). lia. }
  destruct (Z.leb_spec (Z.log2 (Z.abs z) - 52) 0); [reflexivity|lia].
Qed.

Lemma toNumber_exact z : Z.abs z < 2 ^ 53 -> Js.toNumber z = Some z.
Proof.
  intros Hz. unfold Js.toNumber. cbv zeta. rewrite (roundToDouble_exact z Hz).
  assert (Hle : 2 ^ 53 < 2 ^ 1024) by (apply Z.pow_lt_mono_r; lia).
  destruct (Z.ltb_spec (Z.abs z) (2 ^ 1024)); [reflexivity|lia].
Qed.

(** Rounding moves an integer below 2^62 by at most 2^8. *)
Lemma roundToDouble_near z :
  0 <= z < 2 ^ 62 -> 0 <= Js.roundToDouble z <= z + 256.
Proof.
  intros [Hz0 Hz]. unfold Js.roundToDouble. cbv zeta. rewrite (Z.abs_eq z Hz0).
  destruct (Z.leb_spec (Z.log2 z - 52) 0) as [He|He]; [lia|].
  assert (Hpos : 0 < z).
  { destruct (Z.eq_dec z 0) as [->|Hne]; [cbn in He; lia|lia]. }
  assert (He9 : Z.log2 z - 52 <= 9).
  { assert (Z.log2 z < 62) by (apply Z.log2_lt_pow2; lia). lia. }
  revert He He9. generalize (Z.log2 z - 52) as e. intros e He He9.
  rewrite (Z.sgn_pos z Hpos), Z.mul_1_l.
  assert (HE : 2 ^ e = 2 * 2 ^ (e - 1)).
  { rewrite <- Z.pow_succ_r by lia. f_equal. lia. }
  assert (Hhalf : 0 < 2 ^ (e - 1) <= 256).
  { split; [apply Z.pow_pos_nonneg; lia|].
    change 256 with (2 ^ 8). apply Z.pow_le_mono_r; lia. }
  pose proof (Z.div_mod z (2 ^ e) ltac:(lia)) as Hdm.
  pose proof (Z.mod_pos_bound z (2 ^ e) ltac:(lia)) as Hr.
  assert (Hq : 0 <= z / 2 ^ e) by (apply Z.div_pos; lia).
  revert Hdm Hr Hq. generalize (z / 2 ^ e) as q, (z mod 2 ^ e) as r.
  revert HE Hhalf. generalize (2 ^ (e - 1)) as half, (2 ^ e) as E.
  intros half E -> Hhalf q r Hdm Hr Hq.
  assert (Hprod : 0 <= q * half) by (apply Z.mul_nonneg_nonneg; lia).
  destruct ((r <? half) || ((r =? half) && Z.even q)) eqn:Hc.
  - lia.
  - apply orb_false_iff in Hc as [Hlt _]. apply Z.ltb_ge in Hlt. lia.
Qed.

(** An integer of 2^1024 or more rounds to an infinity. *)
Lemma toNumber_large z : 2 ^ 1024 <= z -> Js.toNumber z = None.
Proof.
  intros Hz.
  assert (Hbig : 0 < 2 ^ 1024) by (apply Z.pow_pos_nonneg; lia).
  assert (Hpos : 0 < z) by lia.
  assert (Hlog : 1024 <= Z.log2 z).
  { rewrite <- (Z.log2_pow2 1024) by lia. apply Z.log2_le_mono. exact Hz. }
  assert (Hround : 2 ^ 1024 <= Js.roundToDouble z).
  { unfold Js.roundToDouble. cbv zeta. rewrite (Z.abs_eq z) by lia.
    destruct (Z.leb_spec (Z.log2 z - 52) 0) as [He|He]; [lia|].
    rewrite (Z.sgn_pos z Hpos), Z.mul_1_l.
    assert (Hspec : 2 ^ (Z.log2 z) <= z) by (apply Z.log2_spec; exact Hpos).
    assert (Hsplit : 2 ^ (Z.log2 z) = 2 ^ 52 * 2 ^ (Z.log2 z - 52)).
    { rewrite <- Z.pow_add_r by lia. f_equal. lia. }
    assert (HE : 0 < 2 ^ (Z.log2 z - 52)) by (apply Z.pow_pos_nonneg; lia).
    assert (Hq : 2 ^ 52 <= z / 2 ^ (Z.log2 z - 52)).
    { apply Z.div_le_lower_bound; [exact HE|]. lia. }
    assert (Hmono : 2 ^ 1024 <= 2 ^ (Z.log2 z)) by (apply Z.pow_le_mono_r; lia).
    revert Hq Hsplit HE. generalize (z / 2 ^ (Z.log2 z - 52)) as q.
    generalize (z mod 2 ^ (Z.log2 z - 52)) as r.
    generalize (2 ^ (Z.log2 z - 52 - 1)) as half.
    generalize (2 ^ (Z.log2 z - 52)) as E.
    intros E half r q Hq Hsplit HE.
    assert (Hstep : 2 ^ 52 * E <= q * E) by (apply Z.mul_le_mono_nonneg_r; lia).
    destruct ((r <? half) || ((r =? half) && Z.even q)); lia. }
  unfold Js.toNumber. cbv zeta.
  destruct (Z.ltb_spec (Z.abs (Js.roundToDouble z)) (2 ^ 1024)) as [Hlt|Hge];
    [|reflexivity].
  rewrite Z.abs_eq in Hlt by lia. lia.
Qed.

Lemma parseInt10_digits ds :
  ds <> [] -> Forall (fun d => (d < 10)%nat) ds ->
  Js.parseInt10 (Js.digitsString ds) = Js.toNumber (Js.decimal ds).
Proof.
  intros Hne Hds. destruct ds as [|d ds]; [congruence|].
  inversion Hds as [|? ? Hd Hrest]; subst.
  destruct (digitChar_plain d Hd) as (_ & Hminus & Hplus).
  unfold Js.parseInt10.
  change (Js.digitsString (d :: ds))
    with (String (Js.digitChar d) (Js.digitsString ds)).
  rewrite (trimStart_digit d _ Hd).
  assert (Hgo : Js.parseDigits (String (Js.digitChar d) (Js.digitsString ds)) None
                ≫= Js.toNumber
                = Js.toNumber (Js.decimal (d :: ds))).
  { cbn [Js.parseDigits]. rewrite (digitValue_digitChar d Hd).
    cbn [default]. rewrite (parseDigits_digits ds _ Hrest). reflexivity. }
  revert Hminus Hplus Hgo. generalize (Js.digitsString ds) as rest.
  generalize (Js.digitChar d) as c.
  intros c rest Hminus Hplus Hgo.
  destruct c as [[] [] [] [] [] [] [] []]; try exact Hgo; congruence.
Qed.

Lemma parseInt10_letter c rest :
  Js.isLetter c = true -> Js.parseInt10 (String c rest) = None.
Proof.
  destruct c as [[] [] [] [] [] [] [] []]; intros Hc;
    try discriminate Hc; destruct rest as [|b [|c rest]]; reflexivity.
Qed.

Lemma floorRandomTimes_range raw :
  0 <= Js.floorRandomTimes baseDelayMs raw < baseDelayMs.
Proof.
  unfold Js.floorRandomTimes, baseDelayMs.
  pose proof (Z.mod_pos_bound (Z.of_N raw) (2 ^ 53) ltac:(lia)) as Hk.
  pose proof (roundToDouble_near (Z.of_N raw mod 2 ^ 53 * 500) ltac:(lia)) as Hr.
  split.
  - apply Z.div_pos; lia.
  - apply Z.div_lt_upper_bound; lia.
Qed.

(** ** Transient retry wrapper *)

Lemma retryAfterMs_absent (response : Response Instructions) :
  retryAfter response = None -> retryAfterMs response = None.
Proof. unfold retryAfterMs. intros ->. reflexivity. Qed.

Lemma retryAfterMs_digits (response : Response Instructions) ds :
  retryAfter response = Some (Js.digitsString ds) ->
  ds <> [] -> Forall (fun d => (d < 10)%nat) ds ->
  retryAfterMs response
  = Js.toNumber (Js.decimal ds) ≫= (fun n => Js.toNumber (n * 1000)).
Proof.
  intros Hh Hne Hds. unfold retryAfterMs. rewrite Hh.
  destruct ds as [|d ds]; [congruence|].
  cbn [Js.truthy Js.digitsString fmap list_fmap string_of_list_ascii mbind option_bind].
  change (String (Js.digitChar d) (string_of_list_ascii (Js.digitChar <$> ds)))
    with (Js.digitsString (d :: ds)).
  rewrite (parseInt10_digits (d :: ds) Hne Hds). reflexivity.
Qed.

Lemma retryAfterMs_seconds (response : Response Instructions) ds :
  retryAfter response = Some (Js.digitsString ds) ->
  ds <> [] -> Forall (fun d => (d < 10)%nat) ds ->
  Js.decimal ds * 1000 < 2 ^ 53 ->
  retryAfterMs response = Some (Js.decimal ds * 1000).
Proof.
  intros Hh Hne Hds Hsmall. rewrite (retryAfterMs_digits response ds Hh Hne Hds).
  pose proof (decimal_nonneg ds) as Hpos.
  rewrite (toNumber_exact (Js.decimal ds)) by lia.
  cbn [mbind option_bind]. apply toNumber_exact. lia.
Qed.

Lemma retryAfterMs_overflow (response : Response Instructions) ds :
  retryAfter response = Some (Js.digitsString ds) ->
  ds <> [] -> Forall (fun d => (d < 10)%nat) ds ->
  2 ^ 1024 <= Js.decimal ds ->
  retryAfterMs response = None.
Proof.
  intros Hh Hne Hds Hbig. rewrite (retryAfterMs_digits response ds Hh Hne Hds).
  rewrite (toNumber_large _ Hbig). reflexivity.
Qed.

Lemma retryAfterMs_date (response : Response Instructions) c rest :
  retryAfter response = Some (String c rest) -> Js.isLetter c = true ->
  retryAfterMs response = None.
Proof.
  intros Hh Hc. unfold retryAfterMs. rewrite Hh.
  cbn [Js.truthy mbind option_bind]. rewrite (parseInt10_letter c rest Hc).
  reflexivity.
Qed.

Lemma backoffMs_spec (response : Response Instructions) attempt w :
  events (backoffMs response attempt w) = []
  /\ delayOk response attempt (val (backoffMs response attempt w)).
Proof.
  unfold backoffMs, delayOk.
  destruct (retryAfterMs response) as [hint|]; [split; reflexivity|].
  split; [reflexivity|].
  cbn. unfold exponentialBackoff.
  pose proof (floorRandomTimes_range (Math_random w).1). lia.
Qed.

Lemma fetchWithRetry_from_run remaining attempt request w :
  attempt + Z.of_nat remaining = maxRetries + 1 -> (1 <= remaining)%nat ->
  exists retried : list (Response Instructions * Z),
    events (fetchWithRetry_from remaining attempt request w)
    = retryEvents request retried (val (fetchWithRetry_from remaining attempt request w))
    /\ (length retried <= remaining - 1)%nat
    /\ (forall i response ms, retried !! i = Some (response, ms) ->
          retryable (status response) = true
          /\ delayOk response (attempt + Z.of_nat i) ms)
    /\ (forall response,
          val (fetchWithRetry_from remaining attempt request w) = Resolved response ->
          retryable (status response) = true ->
          length retried = (remaining - 1)%nat).
Proof.
  revert attempt w. induction remaining as [|n IH]; intros attempt w Hsum Hpos; [lia|].
  cbn [fetchWithRetry_from].
  rewrite events_bind, val_bind.
  set (first := doFetch request w).
  assert (Hev : events first = [EvFetch request (val first)]) by reflexivity.
  destruct (val first) as [message|response] eqn:Hval.
  - exists []. rewrite Hev. cbn. repeat split; try lia; intros; discriminate.
  - destruct (retryable (status response)) eqn:Hretry; cbn [negb orb].
    + destruct (attempt =? maxRetries) eqn:Hlast.
      * exists []. rewrite Hev. cbn. apply Z.eqb_eq in Hlast.
        repeat split; try lia; try (intros; discriminate).
      * apply Z.eqb_neq in Hlast.
        rewrite ?events_bind, ?val_bind, ?world_bind.
        destruct (backoffMs_spec response attempt (world first)) as [Hnone Hdelay].
        rewrite Hnone.
        set (ms := val (backoffMs response attempt (world first))) in *.
        set (w1 := world (backoffMs response attempt (world first))).
        destruct (IH (attempt + 1) w1) as (retried & Hevs & Hlen & Hall & Hfin);
          [lia | lia |].
        exists ((response, ms) :: retried).
        change (world (sleep ms w1)) with w1.
        change (events (sleep ms w1)) with [@EvSleep Instructions ms].
        rewrite Hev, Hevs. split; [reflexivity|].
        split; [cbn [length]; lia|]. split.
        -- intros [|i] response' ms' Hi.
           ++ cbn in Hi. injection Hi as <- <-. rewrite Z.add_0_r. auto.
           ++ cbn in Hi. destruct (Hall i response' ms' Hi) as [Hr Hd].
              split; [exact Hr|].
              replace (attempt + Z.of_nat (S i)) with (attempt + 1 + Z.of_nat i) by lia.
              exact Hd.
        -- intros response' Hv Hr. cbn [length].
           rewrite (Hfin response' Hv Hr). lia.
    + exists []. rewrite Hev. cbn.
      repeat split; try lia; try (intros; discriminate).
      intros response' Hv Hr. congruence.
Qed.

Lemma fetchWithRetry_run request w :
  RetryRun request (events (fetchWithRetry request w)) (val (fetchWithRetry request w)).
Proof.
  unfold fetchWithRetry.
  destruct (fetchWithRetry_from_run (Z.to_nat (maxRetries + 1)) 0 request w)
    as (retried & Hevs & Hlen & Hall & Hfin); [reflexivity | vm_compute; lia |].
  exists retried. repeat split.
  - exact Hevs.
  - exact Hlen.
  - apply (Hall i response ms H).
  - apply (Hall i response ms H).
  - exact Hfin.
Qed.

(** ** Traces *)

Lemma refreshCount_app (a b : list Ev) :
  refreshCount (a ++ b) = (refreshCount a + refreshCount b)%nat.
Proof. unfold refreshCount. rewrite filter_app, length_app. reflexivity. Qed.

Lemma fetchesOf_app (a b : list Ev) : fetchesOf (a ++ b) = fetchesOf a ++ fetchesOf b.
Proof. unfold fetchesOf. apply omap_app. Qed.

Lemma requestsOf_app (a b : list Ev) : requestsOf (a ++ b) = requestsOf a ++ requestsOf b.
Proof. unfold requestsOf. rewrite fetchesOf_app, fmap_app. reflexivity. Qed.

Lemma saw404_app (a b : list Ev) : saw404 (a ++ b) = saw404 a || saw404 b.
Proof. unfold saw404. rewrite fetchesOf_app, fmap_app, existsb_app. reflexivity. Qed.

Lemma retryable_not_404 st : retryable st = true -> (st =? 404) = false.
Proof.
  unfold retryable. intros Hr. apply bool_decide_eq_true in Hr.
  apply Z.eqb_neq. intros ->.
  repeat (apply elem_of_cons in Hr as [Hr|Hr]; [discriminate|]).
  inversion Hr.
Qed.

Lemma RetryRun_facts request (evs : list Ev) final :
  RetryRun request evs final ->
  refreshCount evs = 0%nat
  /\ Forall (fun rq => rq = request) (requestsOf evs)
  /\ saw404 evs = answered404 final.
Proof.
  intros (retried & -> & _ & Hall & _). unfold retryEvents.
  assert (Hpre : refreshCount (retried ≫= fun p => [EvFetch request (Resolved p.1); EvSleep p.2]) = 0%nat
               /\ Forall (fun rq => rq = request)
                    (requestsOf (retried ≫= fun p => [EvFetch request (Resolved p.1); EvSleep p.2]))
               /\ saw404 (retried ≫= fun p => [EvFetch request (Resolved p.1); EvSleep p.2]) = false).
  { assert (Hret : Forall (fun p => retryable (status p.1) = true) retried).
    { apply Forall_lookup. intros i [response ms] Hi.
      apply (Hall i response ms Hi). }
    clear final Hall. induction Hret as [|[response ms] retried Hr _ IH].
    - repeat split. constructor.
    - destruct IH as (IH1 & IH2 & IH3).
      cbn [mbind list_bind].
      change (mbind ?f retried) with (retried ≫= f).
      rewrite refreshCount_app, requestsOf_app, saw404_app, IH1, IH3.
      repeat split.
      + apply Forall_app. split; [|exact IH2]. repeat constructor.
      + cbn. cbn in Hr. rewrite (retryable_not_404 _ Hr). reflexivity. }
  destruct Hpre as (H1 & H2 & H3).
  rewrite refreshCount_app, requestsOf_app, saw404_app, H1, H3.
  repeat split.
  - apply Forall_app. split; [exact H2|]. repeat constructor.
  - cbn. apply orb_false_r.
Qed.

Lemma fetchWithRetry_facts request w :
  refreshCount (events (fetchWithRetry request w)) = 0%nat
  /\ Forall (fun rq => rq = request) (requestsOf (events (fetchWithRetry request w)))
  /\ saw404 (events (fetchWithRetry request w)) = answered404 (val (fetchWithRetry request w)).
Proof. apply RetryRun_facts, fetchWithRetry_run. Qed.

(** ** Candidate loops *)

Lemma tryCandidates_nil mkRequest unknownError vars (w : W) :
  tryCandidates mkRequest unknownError [] vars w
  = mkOut (Failure (default unknownError (lastError vars)) (Some (had404 vars)), vars) w [].
Proof. reflexivity. Qed.

Lemma tryCandidates_cons mkRequest unknownError queryId rest vars (w : W) :
  tryCandidates mkRequest unknownError (queryId :: rest) vars w
  = let first := fetchWithRetry (mkRequest queryId) w in
    after (events first)
      match judge vars (val first) with
      | Continue vars' => tryCandidates mkRequest unknownError rest vars' (world first)
      | Stop result => ret (result, vars) (world first)
      end.
Proof.
  cbn [tryCandidates]. unfold bind at 1, after, judge. cbv zeta.
  destruct (val (fetchWithRetry (mkRequest queryId) w)) as [message|response];
    [reflexivity|].
  destruct (status response =? 404); [reflexivity|].
  destruct (negb (ok response)); [reflexivity|].
  destruct (json response) as [message|data]; [reflexivity|].
  destruct (hasErrors data && negb (bool_decide (is_Some (instructions data))));
    reflexivity.
Qed.

Lemma likesCandidates_cons mkRequest queryId rest vars (w : W) :
  likesCandidates mkRequest (queryId :: rest) vars w
  = let first := doFetch (mkRequest queryId) w in
    after (events first)
      match judgeLikes vars (val first) with
      | Continue vars' => likesCandidates mkRequest rest vars' (world first)
      | Stop result => ret result (world first)
      end.
Proof.
  cbn [likesCandidates]. unfold bind at 1, after, judgeLikes. cbv zeta.
  destruct (val (doFetch (mkRequest queryId) w)) as [message|response];
    [reflexivity|].
  destruct (status response =? 404); [reflexivity|].
  destruct (negb (ok response)); [reflexivity|].
  destruct (json response) as [message|data]; [reflexivity|].
  destruct (hasErrors data); reflexivity.
Qed.

Lemma judge_flag vars (result : FetchResult Instructions) :
  match judge vars result with
  | Continue vars' => had404 vars' = had404 vars || answered404 result
  | Stop r => answered404 result = false /\ had404Of r = had404 vars
  end.
Proof.
  unfold judge, answered404. destruct result as [message|response].
  - cbn. symmetry. apply orb_false_r.
  - destruct (status response =? 404); [cbn; symmetry; apply orb_true_r|].
    destruct (negb (ok response)); [split; reflexivity|].
    destruct (json response) as [message|data]; [cbn; symmetry; apply orb_false_r|].
    destruct (hasErrors data && negb (bool_decide (is_Some (instructions data))));
      [cbn; symmetry; apply orb_false_r | split; reflexivity].
Qed.

Lemma judgeLikes_flag vars (result : FetchResult Instructions) :
  match judgeLikes vars result with
  | Continue vars' => had404 vars' = had404 vars || answered404 result
  | Stop r => answered404 result = false /\ had404Of r = had404 vars
  end.
Proof.
  unfold judgeLikes, answered404. destruct result as [message|response].
  - cbn. symmetry. apply orb_false_r.
  - destruct (status response =? 404); [cbn; symmetry; apply orb_true_r|].
    destruct (negb (ok response)); [split; reflexivity|].
    destruct (json response) as [message|data]; [cbn; symmetry; apply orb_false_r|].
    destruct (hasErrors data); split; reflexivity.
Qed.

(** What every run of the shared candidate loop satisfies. *)
Lemma tryCandidates_facts mkRequest unknownError queryIds vars (w : W) :
  let run := tryCandidates mkRequest unknownError queryIds vars w in
  ViaRetry mkRequest queryIds (events run)
  /\ refreshCount (events run) = 0%nat
  /\ Forall (fun rq => exists q, q ∈ queryIds /\ rq = mkRequest q) (requestsOf (events run))
  /\ had404Of (val run).1 = had404 vars || saw404 (events run)
  /\ had404 (val run).2 = had404 vars || saw404 (events run).
Proof.
  revert vars w. induction queryIds as [|queryId rest IH]; intros vars w.
  - rewrite tryCandidates_nil. cbn.
    repeat split; try constructor; symmetry; apply orb_false_r.
  - rewrite tryCandidates_cons. cbv zeta.
    set (first := fetchWithRetry (mkRequest queryId) w).
    pose proof (fetchWithRetry_run (mkRequest queryId) w) as Hrun. fold first in Hrun.
    destruct (RetryRun_facts _ _ _ Hrun) as (Hno & Hreq & H404).
    pose proof (judge_flag vars (val first)) as Hflag.
    destruct (judge vars (val first)) as [vars'|result].
    + destruct (IH vars' (world first)) as (IH1 & IH2 & IH3 & IH4 & IH5).
      unfold after. cbn [events val world].
      rewrite refreshCount_app, requestsOf_app, saw404_app, Hno, IH2, H404.
      rewrite IH4, IH5, Hflag, !orb_assoc.
      repeat split.
      * econstructor; eassumption.
      * apply Forall_app. split.
        -- eapply Forall_impl; [exact Hreq|]. intros rq ->. exists queryId.
           split; [left|reflexivity].
        -- eapply Forall_impl; [exact IH3|]. intros rq (q & Hq & ->). exists q.
           split; [right; exact Hq|reflexivity].
    + destruct Hflag as [Hnot Hres].
      unfold after. cbn [events val world ret fst snd].
      rewrite !app_nil_r, H404, Hnot, Hres, orb_false_r.
      repeat split.
      * rewrite <- (app_nil_r (events first)). econstructor; [exact Hrun|constructor].
      * exact Hno.
      * eapply Forall_impl; [exact Hreq|]. intros rq ->. exists queryId.
        split; [left|reflexivity].
Qed.

(** What every run of the likes candidate loop satisfies. *)
Lemma likesCandidates_facts mkRequest queryIds vars (w : W) :
  let run := likesCandidates mkRequest queryIds vars w in
  SentOnce mkRequest queryIds (events run)
  /\ refreshCount (events run) = 0%nat
  /\ had404Of (val run) = had404 vars || saw404 (events run).
Proof.
  revert vars w. induction queryIds as [|queryId rest IH]; intros vars w.
  - cbn. repeat split; [constructor | symmetry; apply orb_false_r].
  - rewrite likesCandidates_cons. cbv zeta.
    set (first := doFetch (mkRequest queryId) w).
    assert (Hev : events first = [EvFetch (mkRequest queryId) (val first)]) by reflexivity.
    pose proof (judgeLikes_flag vars (val first)) as Hflag.
    destruct (judgeLikes vars (val first)) as [vars'|result].
    + destruct (IH vars' (world first)) as (IH1 & IH2 & IH3).
      unfold after. cbn [events val world]. rewrite Hev.
      rewrite refreshCount_app, saw404_app, IH2, IH3, Hflag, !orb_assoc.
      repeat split.
      * constructor. exact IH1.
      * cbn. rewrite orb_false_r. reflexivity.
    + destruct Hflag as [Hnot Hres].
      unfold after. cbn [events val world ret]. rewrite Hev, Hres.
      repeat split.
      * constructor. constructor.
      * change (saw404 ([EvFetch (mkRequest queryId) (val first)] ++ []))
          with (answered404 (val first) || false).
        rewrite Hnot. symmetry. apply orb_false_r.
Qed.

(** ** Page fetchers *)

Lemma bookmarksFetchPage_unfold pageCount pageCursor (w : W) :
  bookmarksFetchPage pageCount pageCursor w
  = let run := tryCandidates (bookmarksRequest pageCount pageCursor)
                 "Unknown error fetching bookmarks"
                 (val (getBookmarksQueryIds w)) initially
                 (world (getBookmarksQueryIds w)) in
    mkOut (val run).1 (world run) (events run ++ []).
Proof. reflexivity. Qed.

Lemma bookmarksFetchPage_facts pageCount pageCursor (w : W) :
  let run := bookmarksFetchPage pageCount pageCursor w in
  ViaRetry (bookmarksRequest pageCount pageCursor) (val (getBookmarksQueryIds w)) (events run)
  /\ refreshCount (events run) = 0%nat
  /\ Forall (fun rq => req_count rq = Some pageCount
                       /\ req_cursor rq = cursorVariable pageCursor)
       (requestsOf (events run))
  /\ had404Of (val run) = saw404 (events run).
Proof.
  rewrite bookmarksFetchPage_unfold. cbv zeta. cbn [events val].
  rewrite !app_nil_r.
  destruct (tryCandidates_facts (bookmarksRequest pageCount pageCursor)
              "Unknown error fetching bookmarks"
              (val (getBookmarksQueryIds w)) initially
              (world (getBookmarksQueryIds w))) as (H1 & H2 & H3 & H4 & _).
  repeat split; try assumption.
  eapply Forall_impl; [exact H3|]. intros rq (q & _ & ->). split; reflexivity.
Qed.

Lemma folderFetchPage_unfold folderId pageCount pageCursor (w : W) :
  let first := folderFirst folderId pageCount pageCursor w in
  let second := folderSecond folderId pageCount pageCursor w in
  folderFetchPage folderId pageCount pageCursor w
  = if failedNaming variableCount (val first).1
    then mkOut (folderVerdict pageCursor (val second).1) (world second)
           (events first ++ events second)
    else mkOut (folderVerdict pageCursor (val first).1) (world first) (events first).
Proof.
  cbv zeta. unfold folderFetchPage, folderSecond, folderVerdict.
  set (first := folderFirst folderId pageCount pageCursor w).
  unfold bind. cbn [events val world].
  change (folderTryOnce folderId pageCount pageCursor _ true initially _) with first.
  destruct (failedNaming variableCount (val first).1); cbn [events val world ret].
  - set (second := folderTryOnce folderId pageCount pageCursor _ false _ _).
    destruct (failedNaming variableCursor (val second).1 && Js.truthy pageCursor);
      cbn [events val world ret]; rewrite ?app_nil_r; reflexivity.
  - destruct (failedNaming variableCursor (val first).1 && Js.truthy pageCursor);
      cbn [events val world ret]; rewrite ?app_nil_r; reflexivity.
Qed.

Lemma had404Of_folderVerdict pageCursor attempt :
  had404Of (folderVerdict pageCursor attempt) = had404Of attempt
  /\ isSuccess (folderVerdict pageCursor attempt) = isSuccess attempt.
Proof.
  unfold folderVerdict. destruct attempt as [ts c b|message flag]; cbn; [auto|].
  destruct (Js.includes variableCursor message && Js.truthy pageCursor); auto.
Qed.

Lemma folderPasses_facts folderId pageCount pageCursor (w : W) :
  let first := folderFirst folderId pageCount pageCursor w in
  let second := folderSecond folderId pageCount pageCursor w in
  let ids := val (getBookmarkFolderQueryIds w) in
  (ViaRetry (folderRequest folderId pageCount pageCursor true) ids (events first)
   /\ ViaRetry (folderRequest folderId pageCount pageCursor false) ids (events second))
  /\ (refreshCount (events first) = 0%nat /\ refreshCount (events second) = 0%nat)
  /\ Forall (fun rq => req_count rq = Some pageCount
                       /\ req_cursor rq = cursorVariable pageCursor)
       (requestsOf (events first))
  /\ Forall (fun rq => req_count rq = None
                       /\ req_cursor rq = cursorVariable pageCursor)
       (requestsOf (events second))
  /\ had404Of (val first).1 = saw404 (events first)
  /\ had404Of (val second).1 = saw404 (events first ++ events second).
Proof.
  cbv zeta. unfold folderSecond.
  set (first := folderFirst folderId pageCount pageCursor w).
  destruct (tryCandidates_facts (folderRequest folderId pageCount pageCursor true)
              "Unknown error fetching bookmark folder"
              (val (getBookmarkFolderQueryIds w)) initially
              (world (getBookmarkFolderQueryIds w))) as (A1 & A2 & A3 & A4 & A5).
  fold (folderTryOnce folderId pageCount pageCursor (val (getBookmarkFolderQueryIds w))
          true initially (world (getBookmarkFolderQueryIds w))) in A1, A2, A3, A4, A5.
  fold (folderFirst folderId pageCount pageCursor w) in A1, A2, A3, A4, A5.
  fold first in A1, A2, A3, A4, A5.
  destruct (tryCandidates_facts (folderRequest folderId pageCount pageCursor false)
              "Unknown error fetching bookmark folder"
              (val (getBookmarkFolderQueryIds w)) (val first).2
              (world first)) as (B1 & B2 & B3 & B4 & _).
  fold (folderTryOnce folderId pageCount pageCursor (val (getBookmarkFolderQueryIds w))
          false (val first).2 (world first)) in B1, B2, B3, B4.
  rewrite saw404_app, B4, A5.
  repeat split; try assumption.
  - eapply Forall_impl; [exact A3|]. intros rq (q & _ & ->). split; reflexivity.
  - eapply Forall_impl; [exact B3|]. intros rq (q & _ & ->). split; reflexivity.
Qed.

Lemma folderFetchPage_facts folderId pageCount pageCursor (w : W) :
  let run := folderFetchPage folderId pageCount pageCursor w in
  refreshCount (events run) = 0%nat
  /\ Forall (fun rq => req_cursor rq = cursorVariable pageCursor) (requestsOf (events run))
  /\ had404Of (val run) = saw404 (events run).
Proof.
  cbv zeta.
  pose proof (folderFetchPage_unfold folderId pageCount pageCursor w) as Heq.
  cbv zeta in Heq. rewrite Heq. clear Heq.
  destruct (folderPasses_facts folderId pageCount pageCursor w)
    as (_ & (N1 & N2) & R1 & R2 & H1 & H2).
  destruct (failedNaming variableCount
              (val (folderFirst folderId pageCount pageCursor w)).1);
    cbn [events val world].
  - rewrite refreshCount_app, requestsOf_app, N1, N2.
    rewrite (proj1 (had404Of_folderVerdict _ _)), H2.
    repeat split. apply Forall_app. split.
    + eapply Forall_impl; [exact R1|]. intros rq [_ Hc]. exact Hc.
    + eapply Forall_impl; [exact R2|]. intros rq [_ Hc]. exact Hc.
  - rewrite (proj1 (had404Of_folderVerdict _ _)), H1.
    repeat split; [exact N1|].
    eapply Forall_impl; [exact R1|]. intros rq [_ Hc]. exact Hc.
Qed.

(** ** Refresh wrapper *)

Lemma fetchWithRefresh_unfold (fetchPage : Z -> option string -> Run PageResult)
    pageCount pageCursor (w : W) :
  let first := fetchPage pageCount pageCursor w in
  let second := fetchPage pageCount pageCursor (refreshQueryIds (world first)) in
  fetchWithRefresh fetchPage pageCount pageCursor w
  = if notFoundFailure (val first)
    then mkOut (withoutFlag (val second)) (world second)
           (events first ++ [EvRefresh] ++ events second)
    else mkOut (withoutFlag (val first)) (world first) (events first).
Proof.
  cbv zeta. unfold fetchWithRefresh, notFoundFailure.
  unfold bind at 1. cbn [events val world].
  destruct (val (fetchPage pageCount pageCursor w)) as [ts c b|message flag] eqn:Hfirst;
    cbn [isSuccess negb andb].
  - cbn. rewrite app_nil_r. reflexivity.
  - destruct (had404Of (Failure message flag)).
    + unfold bind, doRefresh. cbn [events val world].
      destruct (val (fetchPage pageCount pageCursor
                       (refreshQueryIds (world (fetchPage pageCount pageCursor w)))));
        cbn; rewrite app_nil_r; reflexivity.
    + cbn. rewrite app_nil_r. reflexivity.
Qed.

Lemma fetchWithRefresh_refreshCount (fetchPage : Z -> option string -> Run PageResult)
    pageCount pageCursor (w : W) :
  (forall w', refreshCount (events (fetchPage pageCount pageCursor w')) = 0%nat) ->
  refreshCount (events (fetchWithRefresh fetchPage pageCount pageCursor w))
  = if notFoundFailure (val (fetchPage pageCount pageCursor w)) then 1%nat else 0%nat.
Proof.
  intros Hnone.
  pose proof (fetchWithRefresh_unfold fetchPage pageCount pageCursor w) as Heq.
  cbv zeta in Heq. rewrite Heq.
  destruct (notFoundFailure (val (fetchPage pageCount pageCursor w))); cbn [events].
  - rewrite !refreshCount_app, !Hnone. reflexivity.
  - apply Hnone.
Qed.

(** ** Likes *)

Lemma likesTryOnce_facts userId count (w : W) :
  let run := likesTryOnce userId count w in
  SentOnce (likesRequest userId count) (val (getLikesQueryIds w)) (events run)
  /\ refreshCount (events run) = 0%nat
  /\ had404Of (val run) = saw404 (events run).
Proof.
  cbv zeta.
  destruct (likesCandidates_facts (likesRequest userId count)
              (val (getLikesQueryIds w)) initially (world (getLikesQueryIds w)))
    as (H1 & H2 & H3).
  repeat split; assumption.
Qed.

Lemma getLikes_unfold count (w : W) :
  let lookup := getCurrentUser w in
  getLikes count w
  = match user lookup.1 with
    | Some currentUser =>
        if user_success lookup.1 then
          let first := likesTryOnce (user_id currentUser) count lookup.2 in
          let second := likesTryOnce (user_id currentUser) count
                          (refreshQueryIds (world first)) in
          if notFoundFailure (val first)
          then mkOut (likesResult (val second)) (world second)
                 (events first ++ [EvRefresh] ++ events second)
          else mkOut (likesResult (val first)) (world first) (events first)
        else mkOut (failWith (Some (default "Could not determine current user"
                                      (user_error lookup.1)))) lookup.2 []
    | None => mkOut (failWith (Some (default "Could not determine current user"
                                       (user_error lookup.1)))) lookup.2 []
    end.
Proof.
  cbv zeta. unfold getLikes, notFoundFailure. unfold bind at 1. unfold lift.
  cbn [events val world app].
  destruct (user (getCurrentUser w).1) as [currentUser|]; [|reflexivity].
  destruct (user_success (getCurrentUser w).1); [|reflexivity].
  rewrite events_bind, val_bind, world_bind.
  set (first := likesTryOnce (user_id currentUser) count (getCurrentUser w).2).
  destruct (val first) as [ts c b|message flag]; cbn [isSuccess negb andb].
  - cbn [ret val world events likesResult]. rewrite app_nil_r. reflexivity.
  - destruct (had404Of (Failure message flag)).
    + rewrite !events_bind, !val_bind, !world_bind.
      change (world (doRefresh (world first))) with (refreshQueryIds (world first)).
      change (events (doRefresh (world first))) with [@EvRefresh Instructions].
      set (second := likesTryOnce (user_id currentUser) count _).
      destruct (val second);
        cbn [ret val world events likesResult]; rewrite app_nil_r; reflexivity.
    + cbn [ret val world events likesResult]. rewrite app_nil_r. reflexivity.
Qed.

Lemma getLikes_refreshCount count (w : W) :
  (refreshCount (events (getLikes count w)) <= 1)%nat.
Proof.
  pose proof (getLikes_unfold count w) as Heq. cbv zeta in Heq. rewrite Heq.
  destruct (user (getCurrentUser w).1) as [currentUser|]; [|vm_compute; lia].
  destruct (user_success (getCurrentUser w).1); [|vm_compute; lia].
  destruct (notFoundFailure _); cbn [events].
  - rewrite !refreshCount_app.
    rewrite (proj1 (proj2 (likesTryOnce_facts _ _ _))).
    rewrite (proj1 (proj2 (likesTryOnce_facts _ _ _))). vm_compute. lia.
  - rewrite (proj1 (proj2 (likesTryOnce_facts _ _ _))). lia.
Qed.

(** ** Claims on the page fetchers and the wrappers *)

(** C3.  [fetchWithRefresh] runs the page fetch once.  Exactly when that
    attempt is a failure whose [had404] flag is set, it refreshes the query
    ids and runs the page fetch one more time, in the refreshed world; it
    returns the successful attempt, otherwise the failure of the last
    attempt made (the second one after a refresh).  For the bookmarks and
    the folder fetcher, and for the same pattern inlined in [getLikes], a
    call refreshes at most once, and exactly once after a not-found first
    attempt, whatever the second attempt answers. *)
Theorem fetchWithRefresh_at_most_one_refresh :
  (forall (fetchPage : Z -> option string -> Run PageResult) pageCount pageCursor (w : W),
     let first := fetchPage pageCount pageCursor w in
     let second := fetchPage pageCount pageCursor (refreshQueryIds (world first)) in
     let run := fetchWithRefresh fetchPage pageCount pageCursor w in
     if notFoundFailure (val first)
     then events run = events first ++ [EvRefresh] ++ events second
          /\ world run = world second
          /\ val run = withoutFlag (val second)
     else events run = events first
          /\ world run = world first
          /\ val run = withoutFlag (val first))
  /\ (forall pageCount pageCursor (w : W),
        refreshCount (events (fetchWithRefresh bookmarksFetchPage pageCount pageCursor w))
        = if notFoundFailure (val (bookmarksFetchPage pageCount pageCursor w))
          then 1%nat else 0%nat)
  /\ (forall folderId pageCount pageCursor (w : W),
        refreshCount (events (fetchWithRefresh (folderFetchPage folderId)
                                pageCount pageCursor w))
        = if notFoundFailure (val (folderFetchPage folderId pageCount pageCursor w))
          then 1%nat else 0%nat)
  /\ (forall count (w : W), (refreshCount (events (getLikes count w)) <= 1)%nat)
  /\ (forall count (w : W) currentUser,
        user (getCurrentUser w).1 = Some currentUser ->
        user_success (getCurrentUser w).1 = true ->
        let first := likesTryOnce (user_id currentUser) count (getCurrentUser w).2 in
        let second := likesTryOnce (user_id currentUser) count
                        (refreshQueryIds (world first)) in
        let run := getLikes count w in
        if notFoundFailure (val first)
        then events run = events first ++ [EvRefresh] ++ events second
             /\ val run = likesResult (val second)
        else events run = events first /\ val run = likesResult (val first)).
Proof.
  split; [|split; [|split; [|split]]].
  - intros fetchPage pageCount pageCursor w. cbv zeta.
    pose proof (fetchWithRefresh_unfold fetchPage pageCount pageCursor w) as Heq.
    cbv zeta in Heq. rewrite Heq.
    destruct (notFoundFailure (val (fetchPage pageCount pageCursor w)));
      repeat split.
  - intros. apply fetchWithRefresh_refreshCount.
    intros w'. apply (bookmarksFetchPage_facts pageCount pageCursor w').
  - intros. apply fetchWithRefresh_refreshCount.
    intros w'. apply (folderFetchPage_facts folderId pageCount pageCursor w').
  - apply getLikes_refreshCount.
  - intros count w currentUser Huser Hok. cbv zeta.
    pose proof (getLikes_unfold count w) as Heq. cbv zeta in Heq.
    rewrite Heq, Huser, Hok.
    destruct (notFoundFailure _); split; reflexivity.
Qed.

(** C6, as the code has it.  A page fetch (bookmarks or folder) returns a
    failure with the [had404] flag set exactly when it returned no success
    and some request it made was answered with HTTP 404, whether or not the
    remaining candidates were tried: a fetch cut short by another non-2xx
    status after an earlier 404 carries the flag too.  The refresh wrapper
    refreshes exactly for such a first attempt. *)
Theorem had404_iff_failed_after_some_404 :
  (forall pageCount pageCursor (w : W),
     let run := bookmarksFetchPage pageCount pageCursor w in
     notFoundFailure (val run) = negb (isSuccess (val run)) && saw404 (events run))
  /\ (forall folderId pageCount pageCursor (w : W),
        let run := folderFetchPage folderId pageCount pageCursor w in
        notFoundFailure (val run) = negb (isSuccess (val run)) && saw404 (events run))
  /\ (forall pageCount pageCursor (w : W),
        let first := bookmarksFetchPage pageCount pageCursor w in
        refreshCount (events (fetchWithRefresh bookmarksFetchPage pageCount pageCursor w))
        = if negb (isSuccess (val first)) && saw404 (events first) then 1%nat else 0%nat)
  /\ (forall folderId pageCount pageCursor (w : W),
        let first := folderFetchPage folderId pageCount pageCursor w in
        refreshCount (events (fetchWithRefresh (folderFetchPage folderId)
                                pageCount pageCursor w))
        = if negb (isSuccess (val first)) && saw404 (events first) then 1%nat else 0%nat).
Proof.
  assert (Hb : forall pageCount pageCursor (w : W),
             notFoundFailure (val (bookmarksFetchPage pageCount pageCursor w))
             = negb (isSuccess (val (bookmarksFetchPage pageCount pageCursor w)))
               && saw404 (events (bookmarksFetchPage pageCount pageCursor w))).
  { intros. unfold notFoundFailure.
    rewrite (proj2 (proj2 (proj2 (bookmarksFetchPage_facts pageCount pageCursor w)))).
    reflexivity. }
  assert (Hf : forall folderId pageCount pageCursor (w : W),
             notFoundFailure (val (folderFetchPage folderId pageCount pageCursor w))
             = negb (isSuccess (val (folderFetchPage folderId pageCount pageCursor w)))
               && saw404 (events (folderFetchPage folderId pageCount pageCursor w))).
  { intros. unfold notFoundFailure.
    rewrite (proj2 (proj2 (folderFetchPage_facts folderId pageCount pageCursor w))).
    reflexivity. }
  repeat split.
  - exact Hb.
  - exact Hf.
  - intros pageCount pageCursor w first. subst first.
    rewrite <- Hb. apply fetchWithRefresh_refreshCount.
    intros w'. apply (bookmarksFetchPage_facts pageCount pageCursor w').
  - intros folderId pageCount pageCursor w first. subst first.
    rewrite <- Hf. apply fetchWithRefresh_refreshCount.
    intros w'. apply (folderFetchPage_facts folderId pageCount pageCursor w').
Qed.

(** C4, as the code has it.  The bookmarks fetcher and both passes of the
    folder fetcher execute each candidate's request through
    [fetchWithRetry]: the trace of a page fetch is, candidate after
    candidate in the order of the query ids, a run of the retry wrapper.
    The likes fetcher calls [fetchWithTimeout] directly: each candidate it
    tries is sent exactly once. *)
Theorem bookmark_candidates_via_retry_likes_sent_once :
  (forall pageCount pageCursor (w : W),
     ViaRetry (bookmarksRequest pageCount pageCursor)
       (val (getBookmarksQueryIds w))
       (events (bookmarksFetchPage pageCount pageCursor w)))
  /\ (forall folderId pageCount pageCursor (w : W),
        let first := folderFirst folderId pageCount pageCursor w in
        let second := folderSecond folderId pageCount pageCursor w in
        ViaRetry (folderRequest folderId pageCount pageCursor true)
          (val (getBookmarkFolderQueryIds w)) (events first)
        /\ ViaRetry (folderRequest folderId pageCount pageCursor false)
             (val (getBookmarkFolderQueryIds w)) (events second)
        /\ events (folderFetchPage folderId pageCount pageCursor w)
           = if failedNaming variableCount (val first).1
             then events first ++ events second
             else events first)
  /\ (forall userId count (w : W),
        SentOnce (likesRequest userId count) (val (getLikesQueryIds w))
          (events (likesTryOnce userId count w))).
Proof.
  repeat split.
  - apply bookmarksFetchPage_facts.
  - apply (folderPasses_facts folderId pageCount pageCursor w).
  - apply (folderPasses_facts folderId pageCount pageCursor w).
  - pose proof (folderFetchPage_unfold folderId pageCount pageCursor w) as Heq.
    cbv zeta in Heq. rewrite Heq.
    destruct (failedNaming variableCount _); reflexivity.
  - apply likesTryOnce_facts.
Qed.

Lemma ok_not_404 (response : Response Instructions) :
  ok response = true -> (status response =? 404) = false.
Proof. unfold ok. intros Hok. apply Z.eqb_neq. lia. Qed.

(** C5, as the code has it.  In the candidate loop of the bookmarks and
    folder fetchers, a 2xx response that carries an instructions tree is an
    immediate success with the extracted items and cursor, with or without
    a provider error list, and the remaining candidates are not tried; with
    a non-empty error list and no instructions tree the loop records the
    joined messages and goes on to the next candidate.  In the candidate
    loop of [getLikes], a non-empty error list is an immediate failure with
    the joined messages even next to an instructions tree, and no other
    candidate is tried. *)
Theorem page_structure_outweighs_errors_except_in_likes :
  (forall mkRequest unknownError queryId rest vars (w : W) response data tree,
     let first := fetchWithRetry (mkRequest queryId) w in
     let run := tryCandidates mkRequest unknownError (queryId :: rest) vars w in
     val first = Resolved response -> ok response = true ->
     json response = JsonValue data -> instructions data = Some tree ->
     val run = (Success (parseTweetsFromInstructions (Some tree))
                  (extractCursorFromInstructions (Some tree)) (had404 vars), vars)
     /\ events run = events first /\ world run = world first)
  /\ (forall mkRequest unknownError queryId rest vars (w : W) response data,
        let first := fetchWithRetry (mkRequest queryId) w in
        val first = Resolved response -> ok response = true ->
        json response = JsonValue data -> instructions data = None ->
        hasErrors data = true ->
        tryCandidates mkRequest unknownError (queryId :: rest) vars w
        = after (events first)
            (tryCandidates mkRequest unknownError rest
               {| lastError := Some (joinedErrors data); had404 := had404 vars |}
               (world first)))
  /\ (forall mkRequest queryId rest vars (w : W) response data,
        let first := doFetch (mkRequest queryId) w in
        let run := likesCandidates mkRequest (queryId :: rest) vars w in
        val first = Resolved response -> ok response = true ->
        json response = JsonValue data -> hasErrors data = true ->
        val run = Failure (joinedErrors data) (Some (had404 vars))
        /\ events run = events first /\ world run = world first).
Proof.
  split; [|split].
  - intros mkRequest unknownError queryId rest vars w response data tree first run
      Hval Hok Hjson Htree.
    subst run. rewrite tryCandidates_cons. cbv zeta. fold first.
    unfold judge. rewrite Hval, (ok_not_404 _ Hok), Hok, Hjson, Htree.
    cbn [negb]. rewrite andb_false_r. cbn. rewrite app_nil_r. auto.
  - intros mkRequest unknownError queryId rest vars w response data first
      Hval Hok Hjson Hnone Herrors.
    rewrite tryCandidates_cons. cbv zeta. fold first.
    unfold judge. rewrite Hval, (ok_not_404 _ Hok), Hok, Hjson, Hnone, Herrors.
    reflexivity.
  - intros mkRequest queryId rest vars w response data first run
      Hval Hok Hjson Herrors.
    subst run. rewrite likesCandidates_cons. cbv zeta. fold first.
    unfold judgeLikes. rewrite Hval, (ok_not_404 _ Hok), Hok, Hjson, Herrors.
    cbn. auto.
Qed.

(** C9.  In the folder fetcher, every request of the first pass carries the
    page size, and the pass is run again, once, with the page size left out
    exactly when it failed with an error containing [variableCount];
    no further pass is made.  Every request of either pass carries the
    cursor that was supplied.  When the attempt that would be returned
    failed with an error containing [variableCursor] and a cursor was
    supplied, the fetch returns a failure with the message
    ['Bookmark folder pagination rejected the cursor parameter'] and that
    attempt's [had404]; otherwise it returns the attempt. *)
Theorem folder_retries_without_count_and_rejects_cursor
    folderId pageCount pageCursor (w : W) :
  let first := folderFirst folderId pageCount pageCursor w in
  let second := folderSecond folderId pageCount pageCursor w in
  let run := folderFetchPage folderId pageCount pageCursor w in
  Forall (fun rq => req_count rq = Some pageCount
                    /\ req_cursor rq = cursorVariable pageCursor)
    (requestsOf (events first))
  /\ Forall (fun rq => req_count rq = None
                       /\ req_cursor rq = cursorVariable pageCursor)
       (requestsOf (events second))
  /\ (failedNaming variableCount (val first).1 = true ->
        events run = events first ++ events second
        /\ val run = folderVerdict pageCursor (val second).1)
  /\ (failedNaming variableCount (val first).1 = false ->
        events run = events first
        /\ val run = folderVerdict pageCursor (val first).1)
  /\ (forall attempt,
        failedNaming variableCursor attempt = true -> Js.truthy pageCursor = true ->
        folderVerdict pageCursor attempt
        = Failure "Bookmark folder pagination rejected the cursor parameter"
            (Some (had404Of attempt)))
  /\ (forall attempt,
        failedNaming variableCursor attempt = false \/ Js.truthy pageCursor = false ->
        folderVerdict pageCursor attempt = attempt).
Proof.
  cbv zeta.
  pose proof (folderFetchPage_unfold folderId pageCount pageCursor w) as Heq.
  cbv zeta in Heq.
  destruct (folderPasses_facts folderId pageCount pageCursor w)
    as (_ & _ & R1 & R2 & _).
  split; [exact R1|]. split; [exact R2|]. split; [|split; [|split]].
  - intros Hc. rewrite Heq, Hc. split; reflexivity.
  - intros Hc. rewrite Heq, Hc. split; reflexivity.
  - intros attempt Ha Hc. unfold folderVerdict. rewrite Ha, Hc. reflexivity.
  - intros attempt [Ha|Hc]; unfold folderVerdict.
    + rewrite Ha. reflexivity.
    + rewrite Hc, andb_false_r. reflexivity.
Qed.

Lemma SentOnce_requests mkRequest queryIds (evs : list Ev) :
  SentOnce mkRequest queryIds evs ->
  Forall (fun rq => exists q, rq = mkRequest q) (requestsOf evs).
Proof.
  induction 1 as [|queryId rest final more _ IH]; [constructor|].
  constructor; [exists queryId; reflexivity | exact IH].
Qed.

(** C10.  [getLikes] begins with the current-user lookup.  When the lookup
    reports no success or carries no user, [getLikes] returns a failure
    with the lookup's error string, or ['Could not determine current user']
    when it has none, performs no HTTP call and no refresh, and leaves the
    world as the lookup left it.  Otherwise every request it sends is a
    Likes request for the id of the user that the lookup returned. *)
Theorem getLikes_requires_current_user count (w : W) :
  (user_success (getCurrentUser w).1 = false \/ user (getCurrentUser w).1 = None ->
     val (getLikes count w)
     = failWith (Some (default "Could not determine current user"
                         (user_error (getCurrentUser w).1)))
     /\ events (getLikes count w) = []
     /\ world (getLikes count w) = (getCurrentUser w).2)
  /\ (forall currentUser,
        user (getCurrentUser w).1 = Some currentUser ->
        user_success (getCurrentUser w).1 = true ->
        Forall (fun rq => req_operation rq = Likes
                          /\ req_userId rq = Some (user_id currentUser))
          (requestsOf (events (getLikes count w)))).
Proof.
  pose proof (getLikes_unfold count w) as Heq. cbv zeta in Heq.
  split.
  - intros Hno. rewrite Heq.
    destruct (user (getCurrentUser w).1) as [currentUser|]; [|repeat split].
    destruct Hno as [Hno|Hno]; [|discriminate]. rewrite Hno. repeat split.
  - intros currentUser Huser Hok. rewrite Heq, Huser, Hok.
    assert (Hsent : forall w',
              Forall (fun rq => req_operation rq = Likes
                                /\ req_userId rq = Some (user_id currentUser))
                (requestsOf (events (likesTryOnce (user_id currentUser) count w')))).
    { intros w'.
      eapply Forall_impl;
        [apply (SentOnce_requests _ _ _ (proj1 (likesTryOnce_facts _ _ w')))|].
      intros rq (q & ->). split; reflexivity. }
    destruct (notFoundFailure _); cbn [events].
    + rewrite !requestsOf_app. apply Forall_app. split; [apply Hsent|].
      apply Forall_app. split; [constructor|apply Hsent].
    + apply Hsent.
Qed.

(** C8.  A call of [fetchWithRetry] sends the same request up to three
    times.  Every response but the last had a status among 429, 500, 502,
    503, 504 and was followed by one delay: the Retry-After value times
    1000 when [parseInt] reads a number from it, otherwise a value in
    [500 * 2^attempt, 500 * 2^attempt + 500).  The last outcome is what the
    call returns; it has a recoverable status only when it is the third.
    A Retry-After made of decimal digits is the product of its value and
    1000 as doubles compute it: that many seconds in milliseconds when the
    product is below 2^53, and no number at all, hence the exponential
    delay, when the value is 2^1024 or more.  An absent one, or one that
    starts with a letter as every HTTP-date does, falls back to the
    exponential delay. *)
Theorem fetchWithRetry_bounded_backoff request (w : W) :
  (exists retried : list (Response Instructions * Z),
     events (fetchWithRetry request w)
     = retryEvents request retried (val (fetchWithRetry request w))
     /\ (length retried <= 2)%nat
     /\ (forall i response ms, retried !! i = Some (response, ms) ->
           status response ∈ [429; 500; 502; 503; 504]
           /\ match retryAfterMs response with
              | Some hint => ms = hint
              | None => 500 * 2 ^ Z.of_nat i <= ms < 500 * 2 ^ Z.of_nat i + 500
              end)
     /\ (forall response,
           val (fetchWithRetry request w) = Resolved response ->
           status response ∈ [429; 500; 502; 503; 504] ->
           length retried = 2%nat))
  /\ (forall (response : Response Instructions) ds,
        retryAfter response = Some (Js.digitsString ds) ->
        ds <> [] -> Forall (fun d => (d < 10)%nat) ds ->
        retryAfterMs response
        = Js.toNumber (Js.decimal ds) ≫= (fun n => Js.toNumber (n * 1000))
        /\ (Js.decimal ds * 1000 < 2 ^ 53 ->
            retryAfterMs response = Some (Js.decimal ds * 1000))
        /\ (2 ^ 1024 <= Js.decimal ds -> retryAfterMs response = None))
  /\ (forall response : Response Instructions,
        retryAfter response = None -> retryAfterMs response = None)
  /\ (forall (response : Response Instructions) c rest,
        retryAfter response = Some (String c rest) -> Js.isLetter c = true ->
        retryAfterMs response = None).
Proof.
  split; [|split; [|split]].
  - destruct (fetchWithRetry_run request w) as (retried & Hevs & Hlen & Hall & Hfin).
    exists retried. split; [exact Hevs|]. split; [exact Hlen|]. split.
    + intros i response ms Hi. destruct (Hall i response ms Hi) as [Hr Hd].
      split; [apply bool_decide_eq_true in Hr; exact Hr | exact Hd].
    + intros response Hv Hin. apply (Hfin response Hv).
      apply bool_decide_eq_true. exact Hin.
  - intros response ds Hh Hne Hds. split; [|split].
    + exact (retryAfterMs_digits response ds Hh Hne Hds).
    + exact (retryAfterMs_seconds response ds Hh Hne Hds).
    + exact (retryAfterMs_overflow response ds Hh Hne Hds).
  - apply retryAfterMs_absent.
  - apply retryAfterMs_date.
Qed.

(** ** Pagination driver *)

Lemma pagedLoop_done (fetch : Z -> option string -> Run PageResult)
    limit options fuel st (w : W) :
  loopCondition limit st = false ->
  pagedLoop fetch limit options fuel st w = mkOut (Some (succeed (st_tweets st))) w [].
Proof. intros Hc. destruct fuel; cbn [pagedLoop]; rewrite Hc; reflexivity. Qed.

Lemma pagedLoop_step (fetch : Z -> option string -> Run PageResult)
    limit options fuel st (w : W) :
  loopCondition limit st = true ->
  let page := fetch (pageCountFor limit st) (st_cursor st) w in
  pagedLoop fetch limit options (S fuel) st w
  = after (events page)
      match val page with
      | Failure message _ => ret (Some (failWith (Some message))) (world page)
      | Success pageTweets nextCursor _ =>
          let entry := {| log_pageCount := pageCountFor limit st;
                          log_cursor := st_cursor st;
                          log_tweets := pageTweets;
                          log_next := nextCursor |} in
          if endOfCollection entry || pageCeilingHit options (st_pagesFetched st + 1)
          then ret (Some (succeed (mergePage limit pageTweets (st_seen st) (st_tweets st)).2))
                 (world page)
          else pagedLoop fetch limit options fuel
                 (nextState limit st pageTweets nextCursor) (world page)
      end.
Proof.
  intros Hc. cbv zeta. cbn [pagedLoop]. rewrite Hc. cbn [negb].
  unfold bind, after, endOfCollection. cbn [log_next log_cursor log_tweets].
  destruct (val (fetch (pageCountFor limit st) (st_cursor st) w))
    as [pageTweets nextCursor flag|message flag]; [|reflexivity].
  destruct (negb (Js.truthy nextCursor) || bool_decide (nextCursor = st_cursor st)
            || (Z.of_nat (length pageTweets) =? 0)); cbn [orb]; [reflexivity|].
  destruct (pageCeilingHit options (st_pagesFetched st + 1)); reflexivity.
Qed.

Lemma pagedLoop_failure (fetch : Z -> option string -> Run PageResult)
    limit options fuel st (w : W) r :
  val (pagedLoop fetch limit options fuel st w) = Some r -> success r = false ->
  exists st' w' message flag,
    val (fetch (pageCountFor limit st') (st_cursor st') w') = Failure message flag
    /\ r = failWith (Some message).
Proof.
  revert st w. induction fuel as [|fuel IH]; intros st w Hval Hfail.
  - destruct (loopCondition limit st) eqn:Hc.
    + cbn [pagedLoop] in Hval. rewrite Hc in Hval. discriminate Hval.
    + rewrite (pagedLoop_done _ _ _ _ _ _ Hc) in Hval. cbn in Hval.
      injection Hval as <-. discriminate Hfail.
  - destruct (loopCondition limit st) eqn:Hc.
    + pose proof (pagedLoop_step fetch limit options fuel st w Hc) as Heq.
      cbv zeta in Heq. rewrite Heq in Hval. clear Heq.
      unfold after in Hval. cbn [val] in Hval.
      destruct (val (fetch (pageCountFor limit st) (st_cursor st) w))
        as [pageTweets nextCursor flag|message flag] eqn:Hpage.
      * destruct (endOfCollection _ || pageCeilingHit _ _).
        -- cbn in Hval. injection Hval as <-. discriminate Hfail.
        -- apply (IH _ _ Hval Hfail).
      * cbn in Hval. injection Hval as <-.
        exists st, w, message, flag. split; [exact Hpage|reflexivity].
    + rewrite (pagedLoop_done _ _ _ _ _ _ Hc) in Hval. cbn in Hval.
      injection Hval as <-. discriminate Hfail.
Qed.

(** C7.  When the page fetch of an iteration fails, whatever the loop has
    collected so far, the driver returns [{ success: false, error }] with
    that page's error and no [tweets] field.  Hence every unsuccessful
    result of the driver (of [getBookmarksPaged] and
    [getBookmarkFolderTimelinePaged] in particular) has no items and
    carries the error of the page fetch that failed. *)
Theorem failed_page_discards_collected_items
    (fetch : Z -> option string -> Run PageResult) limit options :
  (forall fuel st (w : W) message flag,
     loopCondition limit st = true ->
     val (fetch (pageCountFor limit st) (st_cursor st) w) = Failure message flag ->
     val (pagedLoop fetch limit options (S fuel) st w)
     = Some {| success := false; tweets := None; error := Some message |})
  /\ (forall fuel st (w : W) r,
        val (pagedLoop fetch limit options fuel st w) = Some r ->
        success r = false ->
        tweets r = None
        /\ exists st' w' message flag,
             val (fetch (pageCountFor limit st') (st_cursor st') w') = Failure message flag
             /\ error r = Some message)
  /\ (forall fuel (w : W) r,
        val (getBookmarksPaged fuel limit options w) = Some r ->
        success r = false -> tweets r = None /\ is_Some (error r))
  /\ (forall fuel folderId (w : W) r,
        val (getBookmarkFolderTimelinePaged fuel folderId limit options w) = Some r ->
        success r = false -> tweets r = None /\ is_Some (error r)).
Proof.
  split; [|split; [|split]].
  - intros fuel st w message flag Hc Hpage.
    pose proof (pagedLoop_step fetch limit options fuel st w Hc) as Heq.
    cbv zeta in Heq. rewrite Heq, Hpage. reflexivity.
  - intros fuel st w r Hval Hfail.
    destruct (pagedLoop_failure fetch limit options fuel st w r Hval Hfail)
      as (st' & w' & message & flag & Hpage & ->).
    split; [reflexivity|]. exists st', w', message, flag. split; [exact Hpage|reflexivity].
  - intros fuel w r Hval Hfail. unfold getBookmarksPaged in Hval.
    destruct (pagedLoop_failure _ limit options fuel _ w r Hval Hfail)
      as (st' & w' & message & flag & _ & ->).
    split; [reflexivity|]. exists message. reflexivity.
  - intros fuel folderId w r Hval Hfail. unfold getBookmarkFolderTimelinePaged in Hval.
    destruct (pagedLoop_failure _ limit options fuel _ w r Hval Hfail)
      as (st' & w' & message & flag & _ & ->).
    split; [reflexivity|]. exists message. reflexivity.
Qed.

(** ** Merging a page *)

Lemma union_known (i : string) (seen rest : gset string) :
  i ∈ seen -> seen ∪ ({[ i ]} ∪ rest) = seen ∪ rest.
Proof.
  intros Hi. apply set_eq. intros x.
  rewrite !elem_of_union, elem_of_singleton.
  split; [intros [?|[->|?]]; auto | intros [?|?]; auto].
Qed.

Lemma union_fresh (i : string) (seen rest : gset string) :
  seen ∪ ({[ i ]} ∪ rest) = {[ i ]} ∪ seen ∪ rest.
Proof.
  apply set_eq. intros x. rewrite !elem_of_union, elem_of_singleton. tauto.
Qed.

Lemma union_nothing (seen : gset string) : seen ∪ ∅ = seen.
Proof. apply set_eq. intros x. rewrite elem_of_union, elem_of_empty. tauto. Qed.

Lemma idsOf_nil : idsOf [] = ∅.
Proof. reflexivity. Qed.

Lemma idsOf_cons x (items : list TweetData) : idsOf (x :: items) = {[ id x ]} ∪ idsOf items.
Proof. reflexivity. Qed.

Lemma idsOf_app (a b : list TweetData) : idsOf (a ++ b) = idsOf a ∪ idsOf b.
Proof. unfold idsOf. rewrite fmap_app. apply leibniz_equiv, list_to_set_app. Qed.

Lemma dedupById_app seen (a b : list TweetData) :
  dedupById seen (a ++ b) = dedupById seen a ++ dedupById (seen ∪ idsOf a) b.
Proof.
  revert seen. induction a as [|x a IH]; intros seen.
  - cbn [app dedupById]. rewrite idsOf_nil.
    rewrite union_nothing. reflexivity.
  - cbn [app dedupById]. rewrite idsOf_cons.
    destruct (bool_decide (id x ∈ seen)) eqn:Hin.
    + apply bool_decide_eq_true in Hin. rewrite IH.
      rewrite (union_known _ _ _ Hin). reflexivity.
    + rewrite IH. cbn [app].
      rewrite union_fresh. reflexivity.
Qed.

Lemma dedupById_known seen (page : list TweetData) :
  Forall (fun tweet => id tweet ∈ seen) page -> dedupById seen page = [].
Proof.
  induction 1 as [|x page Hx _ IH]; [reflexivity|].
  cbn. rewrite (bool_decide_eq_true_2 _ Hx). exact IH.
Qed.

Lemma mergePage_unlimited (page : list TweetData) seen collected :
  mergePage NotFinite page seen collected
  = (seen ∪ idsOf page, collected ++ dedupById seen page).
Proof.
  revert seen collected. induction page as [|x page IH]; intros seen collected.
  - cbn [mergePage dedupById]. rewrite app_nil_r, idsOf_nil.
    rewrite union_nothing. reflexivity.
  - cbn [mergePage dedupById]. rewrite idsOf_cons.
    destruct (bool_decide (id x ∈ seen)) eqn:Hin.
    + apply bool_decide_eq_true in Hin. rewrite IH.
      rewrite (union_known _ _ _ Hin). reflexivity.
    + cbn [unlimited negb andb]. rewrite IH, <- app_assoc.
      rewrite union_fresh. reflexivity.
Qed.

Lemma mergePage_finite n (page : list TweetData) seen collected :
  Z.of_nat (length collected) < n ->
  let merged := mergePage (Finite n) page seen collected in
  merged.2 = take (Z.to_nat n) (collected ++ dedupById seen page)
  /\ (Z.of_nat (length merged.2) < n -> merged.1 = seen ∪ idsOf page).
Proof.
  revert seen collected. induction page as [|x page IH]; intros seen collected Hlt.
  - cbn [mergePage dedupById fst snd]. rewrite app_nil_r, idsOf_nil. split.
    + rewrite take_ge; [reflexivity|lia].
    + intros _. symmetry. apply union_nothing.
  - cbn [mergePage dedupById]. rewrite idsOf_cons.
    destruct (bool_decide (id x ∈ seen)) eqn:Hin.
    + apply bool_decide_eq_true in Hin.
      destruct (IH seen collected Hlt) as [IH1 IH2]. split; [exact IH1|].
      intros Hshort. rewrite (IH2 Hshort), (union_known _ _ _ Hin). reflexivity.
    + cbn [unlimited negb andb reached].
      destruct (n <=? Z.of_nat (length (collected ++ [x]))) eqn:Hfull.
      * apply Z.leb_le in Hfull. rewrite length_app in Hfull. cbn in Hfull.
        cbn [fst snd]. split.
        -- change (x :: dedupById ({[id x]} ∪ seen) page)
             with ([x] ++ dedupById ({[id x]} ∪ seen) page).
           rewrite app_assoc, take_app_le by (rewrite length_app; cbn; lia).
           rewrite take_ge; [reflexivity|rewrite length_app; cbn; lia].
        -- rewrite length_app. cbn. lia.
      * apply Z.leb_gt in Hfull.
        destruct (IH ({[id x]} ∪ seen) (collected ++ [x]) Hfull) as [IH1 IH2].
        split.
        -- rewrite IH1, <- app_assoc. reflexivity.
        -- intros Hshort. rewrite (IH2 Hshort), union_fresh. reflexivity.
Qed.

(** ** The history of a bounded run *)

Lemma pagesOf_done (fetch : Z -> option string -> Run PageResult)
    limit options fuel st (w : W) :
  loopCondition limit st = false -> pagesOf fetch limit options fuel st w = [].
Proof. intros Hc. destruct fuel; cbn [pagesOf]; rewrite Hc; reflexivity. Qed.

Lemma pagesOf_step (fetch : Z -> option string -> Run PageResult)
    limit options fuel st (w : W) :
  loopCondition limit st = true ->
  let page := fetch (pageCountFor limit st) (st_cursor st) w in
  pagesOf fetch limit options (S fuel) st w
  = match val page with
    | Failure _ _ => []
    | Success pageTweets nextCursor _ =>
        let entry := {| log_pageCount := pageCountFor limit st;
                        log_cursor := st_cursor st;
                        log_tweets := pageTweets;
                        log_next := nextCursor |} in
        if endOfCollection entry || pageCeilingHit options (st_pagesFetched st + 1)
        then [entry]
        else entry :: pagesOf fetch limit options fuel
                        (nextState limit st pageTweets nextCursor) (world page)
    end.
Proof. intros Hc. cbv zeta. cbn [pagesOf]. rewrite Hc. reflexivity. Qed.

Lemma take_short {A} k (l : list A) : (length (take k l) < k)%nat -> take k l = l.
Proof. rewrite length_take. intros Hlt. apply take_ge. lia. Qed.

Lemma dedupById_snoc (a b : list TweetData) :
  dedupById ∅ (a ++ b) = dedupById ∅ a ++ dedupById (idsOf a) b.
Proof.
  rewrite dedupById_app. f_equal. f_equal.
  apply set_eq. intros x. rewrite elem_of_union, elem_of_empty. tauto.
Qed.

Lemma concat_snoc {A} (prefix : list (list A)) page :
  concat (prefix ++ [page]) = concat prefix ++ page.
Proof. rewrite concat_app. cbn. rewrite app_nil_r. reflexivity. Qed.

Lemma loopCondition_finite n st :
  loopCondition (Finite n) st = negb (n <=? Z.of_nat (length (st_tweets st))).
Proof. reflexivity. Qed.

Lemma pagedLoop_bounded (fetch : Z -> option string -> Run PageResult)
    n options fuel st (w : W) prefix :
  st_tweets st = take (Z.to_nat n) (dedupById ∅ (concat prefix)) ->
  (Z.of_nat (length (st_tweets st)) < n -> st_seen st = idsOf (concat prefix)) ->
  let history := pagesOf fetch (Finite n) options fuel st w in
  (forall r, val (pagedLoop fetch (Finite n) options fuel st w) = Some r ->
     success r = true ->
     tweets r = Some (take (Z.to_nat n)
                        (dedupById ∅ (concat (prefix ++ (log_tweets <$> history))))))
  /\ (forall i entry, history !! i = Some entry ->
        log_pageCount entry
        = Z.min pageSize
            (n - Z.of_nat (length (take (Z.to_nat n)
                 (dedupById ∅ (concat (prefix ++ take i (log_tweets <$> history))))))))
  /\ (forall r items, maxPages options = None ->
        val (pagedLoop fetch (Finite n) options fuel st w) = Some r ->
        tweets r = Some items -> Z.of_nat (length items) < n ->
        exists entry, last history = Some entry /\ endOfCollection entry = true).
Proof.
  revert st w prefix. induction fuel as [|fuel IH]; intros st w prefix Htweets Hseen;
    cbv zeta.
  - destruct (loopCondition (Finite n) st) eqn:Hc.
    + cbn [pagedLoop pagesOf]. rewrite Hc. cbn.
      repeat split; intros; discriminate || congruence.
    + rewrite (pagedLoop_done _ _ _ _ _ _ Hc), (pagesOf_done _ _ _ _ _ _ Hc).
      cbn [val fmap list_fmap]. rewrite app_nil_r. repeat split.
      * intros r [= <-] _. cbn. rewrite <- Htweets. reflexivity.
      * intros i entry Hi. discriminate Hi.
      * intros r items _ [= <-] [= <-] Hlt.
        rewrite loopCondition_finite in Hc. apply negb_false_iff, Z.leb_le in Hc. lia.
  - destruct (loopCondition (Finite n) st) eqn:Hc.
    2:{ rewrite (pagedLoop_done _ _ _ _ _ _ Hc), (pagesOf_done _ _ _ _ _ _ Hc).
        cbn [val fmap list_fmap]. rewrite app_nil_r. repeat split.
        * intros r [= <-] _. cbn. rewrite <- Htweets. reflexivity.
        * intros i entry Hi. discriminate Hi.
        * intros r items _ [= <-] [= <-] Hlt.
          rewrite loopCondition_finite in Hc. apply negb_false_iff, Z.leb_le in Hc. lia. }
    pose proof (pagedLoop_step fetch (Finite n) options fuel st w Hc) as Hloop.
    pose proof (pagesOf_step fetch (Finite n) options fuel st w Hc) as Hpages.
    cbv zeta in Hloop, Hpages. rewrite Hloop, Hpages. clear Hloop Hpages.
    rewrite loopCondition_finite in Hc. apply negb_true_iff, Z.leb_gt in Hc.
    specialize (Hseen Hc).
    assert (Hall : st_tweets st = dedupById ∅ (concat prefix)).
    { rewrite Htweets. apply take_short. rewrite <- Htweets. lia. }
    unfold after. cbn [val].
    destruct (val (fetch (pageCountFor (Finite n) st) (st_cursor st) w))
      as [pageTweets nextCursor flag|message flag].
    2:{ cbn. repeat split; intros; simplify_eq/=. }
    set (entry := {| log_pageCount := pageCountFor (Finite n) st;
                     log_cursor := st_cursor st;
                     log_tweets := pageTweets; log_next := nextCursor |}).
    destruct (mergePage_finite n pageTweets (st_seen st) (st_tweets st) Hc)
      as [Hmerged Hids]. cbv zeta in Hmerged, Hids.
    assert (Hnew : (mergePage (Finite n) pageTweets (st_seen st) (st_tweets st)).2
                   = take (Z.to_nat n) (dedupById ∅ (concat (prefix ++ [pageTweets])))).
    { rewrite Hmerged, concat_snoc, dedupById_snoc, Hall, Hseen. reflexivity. }
    assert (Hfirst : log_pageCount entry
                     = Z.min pageSize
                         (n - Z.of_nat (length (take (Z.to_nat n)
                                                  (dedupById ∅ (concat (prefix ++ []))))))).
    { rewrite app_nil_r, <- Htweets. reflexivity. }
    destruct (endOfCollection entry || pageCeilingHit options (st_pagesFetched st + 1))
      eqn:Hstop.
    + cbn [ret val fmap list_fmap log_tweets entry]. repeat split.
      * intros r [= <-] _. cbn [tweets succeed]. rewrite Hnew. reflexivity.
      * intros [|i] e Hi; [|discriminate Hi].
        cbn in Hi. injection Hi as <-. rewrite take_0. exact Hfirst.
      * intros r items Hnone _ _ _. exists entry. split; [reflexivity|].
        unfold pageCeilingHit in Hstop. rewrite Hnone, orb_false_r in Hstop.
        exact Hstop.
    + destruct (IH (nextState (Finite n) st pageTweets nextCursor)
                  (world (fetch (pageCountFor (Finite n) st) (st_cursor st) w))
                  (prefix ++ [pageTweets])) as (IH1 & IH2 & IH3).
      { exact Hnew. }
      { cbn [nextState st_tweets st_seen]. intros Hshort.
        rewrite (Hids Hshort), Hseen, concat_snoc, idsOf_app. reflexivity. }
      cbv zeta in IH1, IH2, IH3.
      set (history := pagesOf fetch (Finite n) options fuel _ _) in *.
      cbn [fmap list_fmap log_tweets entry].
      change (list_fmap PageLog (list TweetData) log_tweets history)
        with (log_tweets <$> history).
      repeat split.
      * intros r Hval Hok. rewrite (IH1 r Hval Hok), <- app_assoc. reflexivity.
      * intros [|i] e Hi.
        -- cbn in Hi. injection Hi as <-. rewrite take_0. exact Hfirst.
        -- cbn in Hi. rewrite (IH2 i e Hi). cbn [take]. rewrite <- app_assoc.
           reflexivity.
      * intros r items Hnone Hval Hitems Hlt.
        destruct (IH3 r items Hnone Hval Hitems Hlt) as (e & Hlast & Hend).
        exists e. split; [|exact Hend]. rewrite last_cons, Hlast. reflexivity.
Qed.

Lemma fetchWithRefresh_requests (fetchPage : Z -> option string -> Run PageResult)
    (P : Request -> Prop) pageCount pageCursor (w : W) :
  (forall w', Forall P (requestsOf (events (fetchPage pageCount pageCursor w')))) ->
  Forall P (requestsOf (events (fetchWithRefresh fetchPage pageCount pageCursor w))).
Proof.
  intros Hall.
  pose proof (fetchWithRefresh_unfold fetchPage pageCount pageCursor w) as Heq.
  cbv zeta in Heq. rewrite Heq.
  destruct (notFoundFailure _); cbn [events]; [|apply Hall].
  rewrite !requestsOf_app. apply Forall_app. split; [apply Hall|].
  apply Forall_app. split; [constructor|apply Hall].
Qed.

(** C1.  For a finite limit [n > 0], a successful run of the pagination
    loop returns the first [n] of the distinct items (by identity, in
    order of first appearance) of the pages it obtained: at most [n]
    items, and fewer than [n] only when these pages hold fewer distinct
    items, in which case, without a page ceiling, the last page ended the
    collection (no cursor, the cursor just used, or no item).  The size
    requested for each page is [min(20, n - items collected before it)],
    and it is the [count] variable of every request of that page fetch
    (the folder fetcher may also omit it).  [getBookmarksPaged] and
    [getBookmarkFolderTimelinePaged] are this loop over their own
    [fetchWithRefresh]. *)
Theorem bounded_fetch_collects_up_to_limit :
  (forall (fetch : Z -> option string -> Run PageResult) n options fuel (w : W) r,
     0 < n ->
     val (pagedLoop fetch (Finite n) options fuel initialState w) = Some r ->
     success r = true ->
     let history := pagesOf fetch (Finite n) options fuel initialState w in
     let yielded := dedupById ∅ (concat (log_tweets <$> history)) in
     exists items,
       tweets r = Some items
       /\ items = take (Z.to_nat n) yielded
       /\ Z.of_nat (length items) <= n
       /\ (Z.of_nat (length items) < n -> items = yielded)
       /\ (Z.of_nat (length items) < n -> maxPages options = None ->
             exists entry, last history = Some entry /\ endOfCollection entry = true)
       /\ (forall i entry, history !! i = Some entry ->
             log_pageCount entry
             = Z.min 20 (n - Z.of_nat (length (collectedBefore n history i)))))
  /\ (forall pageCount pageCursor (w : W),
        Forall (fun rq => req_count rq = Some pageCount)
          (requestsOf (events (fetchWithRefresh bookmarksFetchPage pageCount pageCursor w))))
  /\ (forall folderId pageCount pageCursor (w : W),
        Forall (fun rq => req_count rq = Some pageCount \/ req_count rq = None)
          (requestsOf (events (fetchWithRefresh (folderFetchPage folderId)
                                 pageCount pageCursor w))))
  /\ (forall fuel n options,
        getBookmarksPaged fuel (Finite n) options
        = pagedLoop (fetchWithRefresh bookmarksFetchPage) (Finite n) options fuel initialState)
  /\ (forall fuel folderId n options,
        getBookmarkFolderTimelinePaged fuel folderId (Finite n) options
        = pagedLoop (fetchWithRefresh (folderFetchPage folderId)) (Finite n) options
            fuel initialState).
Proof.
  split; [|split; [|split; [|split]]].
  - intros fetch n options fuel w r Hpos Hval Hok history yielded.
    destruct (pagedLoop_bounded fetch n options fuel initialState w [])
      as (H1 & H2 & H3).
    { cbn. symmetry. apply take_nil. }
    { intros _. reflexivity. }
    cbv zeta in H1, H2, H3. cbn [app] in H1, H2.
    fold history in H1, H2, H3. fold yielded in H1.
    exists (take (Z.to_nat n) yielded).
    split; [exact (H1 r Hval Hok)|]. split; [reflexivity|]. split; [|split; [|split]].
    + rewrite length_take. lia.
    + intros Hshort. apply take_short. lia.
    + intros Hshort Hnone. apply (H3 r _ Hnone Hval (H1 r Hval Hok) Hshort).
    + intros i entry Hi. rewrite (H2 i entry Hi). unfold collectedBefore.
      rewrite fmap_take. reflexivity.
  - intros pageCount pageCursor w. apply fetchWithRefresh_requests. intros w'.
    eapply Forall_impl; [apply (bookmarksFetchPage_facts pageCount pageCursor w')|].
    intros rq [Hc _]. exact Hc.
  - intros folderId pageCount pageCursor w. apply fetchWithRefresh_requests. intros w'.
    pose proof (folderFetchPage_unfold folderId pageCount pageCursor w') as Heq.
    cbv zeta in Heq. rewrite Heq.
    destruct (folderPasses_facts folderId pageCount pageCursor w')
      as (_ & _ & R1 & R2 & _).
    assert (R1' : Forall (fun rq => req_count rq = Some pageCount \/ req_count rq = None)
                    (requestsOf (events (folderFirst folderId pageCount pageCursor w')))).
    { eapply Forall_impl; [exact R1|]. intros rq [Hc _]. left. exact Hc. }
    destruct (failedNaming variableCount _); cbn [events]; [|exact R1'].
    rewrite requestsOf_app. apply Forall_app. split; [exact R1'|].
    eapply Forall_impl; [exact R2|]. intros rq [Hc _]. right. exact Hc.
  - reflexivity.
  - reflexivity.
Qed.


End Facts.

(** * The engine on the scripted server *)

Import Scripted.


(** ** Sanity checks of the embedding *)

Example parseInt10_examples :
  Js.parseInt10 "120" = Some 120
  /\ Js.parseInt10 " 42px" = Some 42
  /\ Js.parseInt10 "-5" = Some (-5)
  /\ Js.parseInt10 "+" = None
  /\ Js.parseInt10 "" = None
  /\ Js.parseInt10 "Wed, 21 Oct 2015 07:28:00 GMT" = None.
Proof. repeat split. Qed.

(** [parseInt] skips the white space of Unicode (here U+00A0 and U+3000),
    rounds to 53 significant bits, and reads an infinity from 310 digits. *)
Example parseInt10_doubles :
  Js.parseInt10 (String (ascii_of_nat 194) (String (ascii_of_nat 160) "5")) = Some 5
  /\ Js.parseInt10 (String (ascii_of_nat 227) (String (ascii_of_nat 128)
                      (String (ascii_of_nat 128) " 7"))) = Some 7
  /\ Js.parseInt10 "9007199254740993" = Some 9007199254740992
  /\ Js.parseInt10 "9007199254740995" = Some 9007199254740996
  /\ Js.parseInt10 (Js.digitsString (replicate 310 9%nat)) = None
  /\ Js.parseInt10 ("-" +:+ Js.digitsString (replicate 310 9%nat)) = None.
Proof. vm_compute. repeat split. Qed.

(** [slice] counts UTF-16 code units: a code point of three bytes is one
    unit, and a pair that is cut leaves its high surrogate. *)
Example slice0_examples :
  Js.slice0 3 "abcdef" = "abc"
  /\ Js.slice0 2 (String (ascii_of_nat 227) (String (ascii_of_nat 128)
                    (String (ascii_of_nat 128) "ab")))
     = String (ascii_of_nat 227) (String (ascii_of_nat 128)
                (String (ascii_of_nat 128) "a"))
  /\ Js.slice0 1 (String (ascii_of_nat 240) (String (ascii_of_nat 159)
                    (String (ascii_of_nat 152) (String (ascii_of_nat 128) "a"))))
     = String (ascii_of_nat 237) (String (ascii_of_nat 160)
                (String (ascii_of_nat 189) EmptyString)).
Proof. vm_compute. repeat split. Qed.

Example includes_examples :
  Js.includes variableCount ("HTTP 400: " +:+ variableCount +:+ " is not accepted") = true
  /\ Js.includes variableCursor ("HTTP 400: " +:+ variableCount) = false
  /\ Js.includes "" "" = true.
Proof. repeat split. Qed.

Example arrayFromSet_examples :
  arrayFromSet ["RV1g3b8n_SGOHwkqKYSCFw"; "RV1g3b8n_SGOHwkqKYSCFw"; "tmd4ifV8RHltzn8ymGg1aw"]
  = ["RV1g3b8n_SGOHwkqKYSCFw"; "tmd4ifV8RHltzn8ymGg1aw"]
  /\ arrayFromSet ["a"; "b"; "a"; "c"; "b"] = ["a"; "b"; "c"].
Proof. split; reflexivity. Qed.

(** On [throttled]: the hint of 120 seconds is slept exactly, the second
    delay is 500 * 2 + 250 for the draw 1/2, and the third answer is
    returned. *)
Example fetchWithRetry_throttled :
  let run := fetchWithRetry (bookmarksRequest 20 None "q") throttled in
  val run = page (tweetsFrom 1 3) None
  /\ omap (fun e => match e with EvSleep ms => Some ms | _ => None end) (events run)
     = [120000; 1250]
  /\ length (requestsOf (events run)) = 3%nat.
Proof. vm_compute. repeat split. Qed.

(** All candidates answer 404, then the refreshed primary id serves 10
    items: one refresh, 10 items. *)
Example refresh_recovers_stale_ids :
  let run := getBookmarks 3 20
               (server [reply 404 None ""; reply 404 None ""; reply 404 None "";
                        page (tweetsFrom 1 10) None]) in
  val run = Some (succeed (tweetsFrom 1 10))
  /\ refreshCount (events run) = 1%nat
  /\ req_queryId <$> requestsOf (events run)
     = ["stale-Bookmarks"; "RV1g3b8n_SGOHwkqKYSCFw"; "tmd4ifV8RHltzn8ymGg1aw";
        "fresh-Bookmarks"].
Proof. vm_compute. repeat split. Qed.

(** A page ceiling of 1 on an unbounded fetch: page 1 only. *)
Example page_ceiling_stops_after_first_page :
  let run := getAllBookmarks 3 {| maxPages := Some 1 |} twoPages in
  val run = Some (succeed (tweetsFrom 1 20))
  /\ length (requestsOf (events run)) = 1%nat.
Proof. vm_compute. repeat split. Qed.

(** ** The claims at concrete exchanges *)

(** C1 on [twoPages] with a limit of 25: sizes 20 then 5, 25 items. *)
Lemma bounded_fetch_collects_up_to_limit_witness :
  0 < 25
  /\ val (getBookmarks 5 25 twoPages) = Some (succeed (tweetsFrom 1 25))
  /\ (exists items,
        tweets (succeed (tweetsFrom 1 25)) = Some items
        /\ Z.of_nat (length items) <= 25)
  /\ log_pageCount
       <$> pagesOf (fetchWithRefresh bookmarksFetchPage) (Finite 25)
             {| maxPages := None |} 5 initialState twoPages
     = [20; 5].
Proof.
  assert (Hpos : 0 < 25) by lia.
  assert (Hval : val (pagedLoop (fetchWithRefresh bookmarksFetchPage) (Finite 25)
                        {| maxPages := None |} 5 initialState twoPages)
                 = Some (succeed (tweetsFrom 1 25)))
    by (vm_compute; reflexivity).
  split; [exact Hpos|]. split; [exact Hval|]. split.
  - destruct (proj1 bounded_fetch_collects_up_to_limit
                (fetchWithRefresh bookmarksFetchPage) 25 {| maxPages := None |}
                5%nat twoPages (succeed (tweetsFrom 1 25)) Hpos Hval eq_refl)
      as (items & Hitems & _ & Hle & _).
    exists items. split; [exact Hitems | exact Hle].
  - vm_compute. reflexivity.
Defined.


(** C3 on [staleLikes]: one refresh, then the refreshed attempt's items. *)
Lemma fetchWithRefresh_at_most_one_refresh_witness :
  user (getCurrentUser staleLikes).1 = Some {| user_id := "42" |}
  /\ user_success (getCurrentUser staleLikes).1 = true
  /\ (let first := likesTryOnce "42" 20 (getCurrentUser staleLikes).2 in
      let second := likesTryOnce "42" 20 (refreshQueryIds (world first)) in
      let run := getLikes 20 staleLikes in
      if notFoundFailure (val first)
      then events run = events first ++ [EvRefresh] ++ events second
           /\ val run = likesResult (val second)
      else events run = events first /\ val run = likesResult (val first))
  /\ refreshCount (events (getLikes 20 staleLikes)) = 1%nat.
Proof.
  assert (Huser : user (getCurrentUser staleLikes).1 = Some {| user_id := "42" |})
    by reflexivity.
  assert (Hok : user_success (getCurrentUser staleLikes).1 = true) by reflexivity.
  split; [exact Huser|]. split; [exact Hok|]. split.
  - apply (proj2 (proj2 (proj2 (proj2 fetchWithRefresh_at_most_one_refresh)))
             20 staleLikes {| user_id := "42" |} Huser Hok).
  - vm_compute. reflexivity.
Defined.

(** C5 on [partial]: the bookmarks loop takes the page in spite of the
    error list. *)
Lemma page_structure_outweighs_errors_except_in_likes_witness :
  let response := {| status := 200; retryAfter := None; body := "{}";
                     json := JsonValue
                               {| instructions := Some {| entries := tweetsFrom 1 3;
                                                          bottom := Some "c1" |};
                                  errors := Some ["Rate limited"] |} |} in
  val (fetchWithRetry (bookmarksRequest 20 None "stale-Bookmarks") partial)
  = Resolved response
  /\ ok response = true
  /\ val (tryCandidates (bookmarksRequest 20 None) "Unknown error fetching bookmarks"
            ["stale-Bookmarks"; "RV1g3b8n_SGOHwkqKYSCFw"] initially partial)
     = (Success (tweetsFrom 1 3) (Some "c1") false, initially).
Proof.
  cbv zeta.
  set (tree := {| entries := tweetsFrom 1 3; bottom := Some "c1" |}).
  set (data := {| instructions := Some tree; errors := Some ["Rate limited"] |}).
  set (response := {| status := 200; retryAfter := None; body := "{}";
                      json := JsonValue data |}).
  assert (Hval : val (fetchWithRetry (bookmarksRequest 20 None "stale-Bookmarks") partial)
                 = Resolved response) by reflexivity.
  assert (Hok : ok response = true) by reflexivity.
  assert (Hjson : json response = JsonValue data) by reflexivity.
  assert (Htree : instructions data = Some tree) by reflexivity.
  split; [exact Hval|]. split; [exact Hok|].
  exact (proj1 (proj1 page_structure_outweighs_errors_except_in_likes
                  (bookmarksRequest 20 None) "Unknown error fetching bookmarks"
                  "stale-Bookmarks" ["RV1g3b8n_SGOHwkqKYSCFw"] initially partial
                  response data tree Hval Hok Hjson Htree)).
Defined.

(** C7 on [forbidden], with 20 items already collected. *)
Lemma failed_page_discards_collected_items_witness :
  loopCondition NotFinite afterFirstPage = true
  /\ val (fetchWithRefresh bookmarksFetchPage (pageCountFor NotFinite afterFirstPage)
            (st_cursor afterFirstPage) forbidden)
     = Failure "HTTP 403: forbidden" None
  /\ val (pagedLoop (fetchWithRefresh bookmarksFetchPage) NotFinite
            {| maxPages := None |} 1 afterFirstPage forbidden)
     = Some {| success := false; tweets := None; error := Some "HTTP 403: forbidden" |}.
Proof.
  assert (Hpage : val (fetchWithRefresh bookmarksFetchPage
                         (pageCountFor NotFinite afterFirstPage)
                         (st_cursor afterFirstPage) forbidden)
                  = Failure "HTTP 403: forbidden" None)
    by (vm_compute; reflexivity).
  split; [reflexivity|]. split; [exact Hpage|].
  apply (proj1 (failed_page_discards_collected_items
                  (fetchWithRefresh bookmarksFetchPage) NotFinite {| maxPages := None |})
           0%nat afterFirstPage forbidden "HTTP 403: forbidden" None eq_refl Hpage).
Defined.

(** C8 on a response whose Retry-After is 120. *)
Lemma fetchWithRetry_bounded_backoff_witness :
  let response : Response Timeline :=
    {| status := 503; retryAfter := Some "120"; body := "busy";
       json := JsonThrows "Unexpected end of JSON input" |} in
  retryAfter response = Some (Js.digitsString [1; 2; 0]%nat)
  /\ [1; 2; 0]%nat <> []
  /\ Forall (fun d => (d < 10)%nat) [1; 2; 0]%nat
  /\ Js.decimal [1; 2; 0]%nat * 1000 < 2 ^ 53
  /\ retryAfterMs response = Some 120000.
Proof.
  cbv zeta.
  set (response := {| status := 503; retryAfter := Some "120"; body := "busy";
                      json := JsonThrows "Unexpected end of JSON input" |}
                   : Response Timeline).
  assert (Hhint : retryAfter response = Some (Js.digitsString [1; 2; 0]%nat))
    by reflexivity.
  assert (Hne : [1; 2; 0]%nat <> []) by discriminate.
  assert (Hds : Forall (fun d => (d < 10)%nat) [1; 2; 0]%nat)
    by (repeat constructor; lia).
  assert (Hsmall : Js.decimal [1; 2; 0]%nat * 1000 < 2 ^ 53)
    by (vm_compute; reflexivity).
  split; [exact Hhint|]. split; [exact Hne|]. split; [exact Hds|].
  split; [exact Hsmall|].
  exact (proj1 (proj2 (proj1 (proj2 (fetchWithRetry_bounded_backoff
                                       (bookmarksRequest 20 None "q") throttled))
                         response [1; 2; 0]%nat Hhint Hne Hds))
           Hsmall).
Defined.

(** C8 as stated fails for hints beyond the integers that a double holds.
    On [farFuture] the hint of 2^53 + 1 seconds is a delta-seconds value,
    and the delay is 2^53 * 1000 milliseconds, not that value times 1000.
    On [beyondDouble] the hint of 310 nines is a delta-seconds value too,
    [parseInt] reads an infinity from it, and the delay is the exponential
    one. *)
Lemma retry_after_not_exact_beyond_doubles :
  let request := bookmarksRequest 20 None "q" in
  let hint := [9; 0; 0; 7; 1; 9; 9; 2; 5; 4; 7; 4; 0; 9; 9; 3]%nat in
  script farFuture !! 0%nat = Some (reply 503 (Some (Js.digitsString hint)) "busy")
  /\ Js.decimal hint = 2 ^ 53 + 1
  /\ sleepsOf (events (fetchWithRetry request farFuture)) = [2 ^ 53 * 1000]
  /\ sleepsOf (events (fetchWithRetry request farFuture)) <> [Js.decimal hint * 1000]
  /\ script beyondDouble !! 0%nat
     = Some (reply 503 (Some (Js.digitsString (replicate 310 9%nat))) "busy")
  /\ sleepsOf (events (fetchWithRetry request beyondDouble)) = [500]
  /\ sleepsOf (events (fetchWithRetry request beyondDouble))
     <> [Js.decimal (replicate 310 9%nat) * 1000].
Proof.
  cbv zeta.
  assert (Hfar : sleepsOf (events (fetchWithRetry (bookmarksRequest 20 None "q") farFuture))
                 = [2 ^ 53 * 1000]) by (vm_compute; reflexivity).
  assert (Hbeyond : sleepsOf (events (fetchWithRetry (bookmarksRequest 20 None "q")
                                        beyondDouble))
                    = [500]) by (vm_compute; reflexivity).
  split; [reflexivity|]. split; [vm_compute; reflexivity|]. split; [exact Hfar|].
  split; [rewrite Hfar; vm_compute; intros H; discriminate H|].
  split; [reflexivity|]. split; [exact Hbeyond|].
  rewrite Hbeyond. vm_compute. intros H. discriminate H.
Qed.

(** C9 on [countRejected]: one more pass, without the page size. *)
Lemma folder_retries_without_count_and_rejects_cursor_witness :
  let first := folderFirst "7" 20 (Some "c1") countRejected in
  let second := folderSecond "7" 20 (Some "c1") countRejected in
  let run := folderFetchPage "7" 20 (Some "c1") countRejected in
  failedNaming variableCount (val first).1 = true
  /\ events run = events first ++ events second
  /\ val run = folderVerdict (Some "c1") (val second).1
  /\ req_count <$> requestsOf (events run) = [Some 20; None].
Proof.
  cbv zeta.
  assert (Hnamed : failedNaming variableCount
                     (val (folderFirst "7" 20 (Some "c1") countRejected)).1 = true)
    by (vm_compute; reflexivity).
  split; [exact Hnamed|].
  destruct (proj1 (proj2 (proj2 (folder_retries_without_count_and_rejects_cursor
                                   "7" 20 (Some "c1") countRejected))) Hnamed)
    as [Hevents Hval].
  split; [exact Hevents|]. split; [exact Hval|]. vm_compute. reflexivity.
Defined.

(** C10 on [anonymous]: the lookup's error, and nothing sent. *)
Lemma getLikes_requires_current_user_witness :
  (user_success (getCurrentUser anonymous).1 = false
   \/ user (getCurrentUser anonymous).1 = None)
  /\ val (getLikes 20 anonymous) = failWith (Some "HTTP 401")
  /\ events (getLikes 20 anonymous) = []
  /\ world (getLikes 20 anonymous) = anonymous.
Proof.
  assert (Hno : user_success (getCurrentUser anonymous).1 = false
                \/ user (getCurrentUser anonymous).1 = None)
    by (left; reflexivity).
  split; [exact Hno|].
  apply (proj1 (getLikes_requires_current_user 20 anonymous) Hno).
Defined.

(** C4 as stated fails for likes: on [busy], the 503 of the first
    candidate is final after a single call, although the next call would
    have been answered. *)
Lemma likes_request_not_retried :
  let run := getLikes 20 busy in
  val run = failWith (Some "HTTP 503: busy")
  /\ length (requestsOf (events run)) = 1%nat
  /\ ~ ViaRetry (likesRequest "42" 20) (val (getLikesQueryIds busy)) (events run).
Proof.
  cbv zeta. split; [vm_compute; reflexivity|]. split; [vm_compute; reflexivity|].
  intros Hvia.
  assert (Hev : exists e rq, events (getLikes 20 busy) = [e]
                  /\ e = EvFetch rq (reply 503 None "busy")).
  { eexists _, _. split; vm_compute; reflexivity. }
  destruct Hev as (e & rq & Hev & ->). rewrite Hev in Hvia. clear Hev.
  inversion Hvia as [|queryId rest evs final more Hrun _ Hids Hevs]; subst.
  destruct Hrun as (retried & -> & _ & _ & Hfin).
  unfold retryEvents in Hevs.
  destruct retried as [|[r1 ms1] retried].
  - cbn in Hevs. injection Hevs as _ -> _.
    specialize (Hfin _ eq_refl eq_refl). discriminate Hfin.
  - cbn in Hevs. injection Hevs as _ _ Hnil. discriminate Hnil.
Qed.

(** C5 as stated fails for likes: on [partial], the error list makes
    [getLikes] fail although the body carries a page. *)
Lemma likes_errors_fatal_despite_page :
  val (getLikes 20 partial) = failWith (Some "Rate limited")
  /\ val (getLikes 20 partial) <> succeed (tweetsFrom 1 3)
  /\ length (requestsOf (events (getLikes 20 partial))) = 1%nat.
Proof.
  split; [vm_compute; reflexivity|]. split; [|vm_compute; reflexivity].
  intros Heq.
  assert (Hfail : success (val (getLikes 20 partial)) = false)
    by (vm_compute; reflexivity).
  rewrite Heq in Hfail. discriminate Hfail.
Qed.

(** C6 as stated fails: on [forbiddenAfter404] the fetch fails with the
    flag set although the third candidate was never tried. *)
Lemma had404_set_without_exhaustion :
  let run := bookmarksFetchPage 20 None forbiddenAfter404 in
  let queryIds := val (getBookmarksQueryIds forbiddenAfter404) in
  ~ (notFoundFailure (val run) = true
     <-> isSuccess (val run) = false
         /\ allCandidatesTried queryIds (events run) = true
         /\ saw404 (events run) = true).
Proof.
  cbv zeta. intros [Hflag _].
  assert (Hset : notFoundFailure (val (bookmarksFetchPage 20 None forbiddenAfter404)) = true)
    by (vm_compute; reflexivity).
  destruct (Hflag Hset) as (_ & Htried & _).
  vm_compute in Htried. discriminate Htried.
Qed.

(** * Further properties of the engine *)

Section Further.

Context {Instructions : Type} `{Extractor : ResponseExtractor Instructions}.
Context {W : Type} `{Base : TwitterClientBase Instructions W}.

Abbreviation Ev' := (Event Instructions).
Abbreviation Run' := (M Instructions W).

(** ** Candidate lists *)

Lemma arrayFromSet_elem_of ids x : x ∈ arrayFromSet ids <-> x ∈ ids.
Proof.
  induction ids as [|y ids IH]; [reflexivity|].
  cbn [arrayFromSet]. rewrite !elem_of_cons, list_elem_of_filter, IH.
  destruct (decide (x = y)) as [->|Hne]; [tauto|]. tauto.
Qed.

Lemma arrayFromSet_NoDup ids : NoDup (arrayFromSet ids).
Proof.
  induction ids as [|y ids IH]; [constructor|].
  cbn [arrayFromSet]. constructor.
  - rewrite list_elem_of_filter. tauto.
  - apply NoDup_filter, IH.
Qed.

Lemma arrayFromSet_sublist ids : arrayFromSet ids `sublist_of` ids.
Proof.
  induction ids as [|y ids IH]; [constructor|].
  cbn [arrayFromSet]. apply sublist_skip.
  etransitivity; [apply sublist_filter|exact IH].
Qed.

(** X1.  The candidate identifiers of each of the three collections start
    with the identifier that [getQueryId] currently resolves, contain no
    duplicate, contain every hard-coded fall-back, are at most three (two
    for folders and likes), and resolving them leaves the world and the
    trace untouched. *)
Theorem candidate_ids_primary_first_without_duplicates (w : W) :
  (head (val (getBookmarksQueryIds w)) = Some (getQueryId "Bookmarks" w).1
   /\ NoDup (val (getBookmarksQueryIds w))
   /\ "RV1g3b8n_SGOHwkqKYSCFw" ∈ val (getBookmarksQueryIds w)
   /\ "tmd4ifV8RHltzn8ymGg1aw" ∈ val (getBookmarksQueryIds w)
   /\ (1 <= length (val (getBookmarksQueryIds w)) <= 3)%nat
   /\ events (getBookmarksQueryIds w) = []
   /\ world (getBookmarksQueryIds w) = (getQueryId "Bookmarks" w).2)
  /\ (head (val (getBookmarkFolderQueryIds w))
      = Some (getQueryId "BookmarkFolderTimeline" w).1
      /\ NoDup (val (getBookmarkFolderQueryIds w))
      /\ "KJIQpsvxrTfRIlbaRIySHQ" ∈ val (getBookmarkFolderQueryIds w)
      /\ (1 <= length (val (getBookmarkFolderQueryIds w)) <= 2)%nat
      /\ events (getBookmarkFolderQueryIds w) = []
      /\ world (getBookmarkFolderQueryIds w) = (getQueryId "BookmarkFolderTimeline" w).2)
  /\ (head (val (getLikesQueryIds w)) = Some (getQueryId "Likes" w).1
      /\ NoDup (val (getLikesQueryIds w))
      /\ "JR2gceKucIKcVNB_9JkhsA" ∈ val (getLikesQueryIds w)
      /\ (1 <= length (val (getLikesQueryIds w)) <= 2)%nat
      /\ events (getLikesQueryIds w) = []
      /\ world (getLikesQueryIds w) = (getQueryId "Likes" w).2).
Proof.
  assert (Hlen : forall ids : list string,
             ids <> [] -> (1 <= length (arrayFromSet ids) <= length ids)%nat).
  { intros [|y ids] Hne; [congruence|]. split.
    - cbn. lia.
    - apply sublist_length, arrayFromSet_sublist. }
  split; [|split].
  - change (val (getBookmarksQueryIds w))
      with (arrayFromSet [(getQueryId "Bookmarks" w).1;
                          "RV1g3b8n_SGOHwkqKYSCFw"; "tmd4ifV8RHltzn8ymGg1aw"]).
    split; [reflexivity|]. split; [apply arrayFromSet_NoDup|].
    split; [apply arrayFromSet_elem_of; repeat constructor|].
    split; [apply arrayFromSet_elem_of; repeat constructor|].
    split; [apply (Hlen [_; _; _]); discriminate|]. split; reflexivity.
  - change (val (getBookmarkFolderQueryIds w))
      with (arrayFromSet [(getQueryId "BookmarkFolderTimeline" w).1;
                          "KJIQpsvxrTfRIlbaRIySHQ"]).
    split; [reflexivity|]. split; [apply arrayFromSet_NoDup|].
    split; [apply arrayFromSet_elem_of; repeat constructor|].
    split; [apply (Hlen [_; _]); discriminate|]. split; reflexivity.
  - change (val (getLikesQueryIds w))
      with (arrayFromSet [(getQueryId "Likes" w).1; "JR2gceKucIKcVNB_9JkhsA"]).
    split; [reflexivity|]. split; [apply arrayFromSet_NoDup|].
    split; [apply arrayFromSet_elem_of; repeat constructor|].
    split; [apply (Hlen [_; _]); discriminate|]. split; reflexivity.
Qed.

Lemma candidate_ids_nonempty (w : W) :
  (1 <= length (val (getBookmarksQueryIds w)))%nat
  /\ (1 <= length (val (getBookmarkFolderQueryIds w)))%nat
  /\ (1 <= length (val (getLikesQueryIds w)))%nat.
Proof. repeat split; cbn; lia. Qed.

(** ** How many calls, how much waiting *)

Lemma callCount_app (a b : list Ev') : callCount (a ++ b) = (callCount a + callCount b)%nat.
Proof. unfold callCount. rewrite fetchesOf_app, length_app. reflexivity. Qed.

Lemma sleepsOf_app (a b : list Ev') : sleepsOf (a ++ b) = sleepsOf a ++ sleepsOf b.
Proof. unfold sleepsOf. apply omap_app. Qed.

Lemma retryEvents_measures request (retried : list (Response Instructions * Z)) final :
  fetchesOf (retryEvents request retried final)
  = ((fun p => (request, Resolved p.1)) <$> retried) ++ [(request, final)]
  /\ sleepsOf (retryEvents request retried final) = retried.*2.
Proof.
  unfold retryEvents. rewrite fetchesOf_app, sleepsOf_app.
  induction retried as [|[response ms] retried [IH1 IH2]].
  - split; reflexivity.
  - cbn [mbind list_bind].
    change (mbind ?f retried) with (retried ≫= f).
    rewrite fetchesOf_app, sleepsOf_app in *.
    cbn [fmap list_fmap app fst snd] in *.
    change (fetchesOf [EvFetch request (Resolved response); EvSleep ms])
      with [(request, @Resolved Instructions response)].
    change (sleepsOf [EvFetch request (Resolved response); EvSleep ms]) with [ms].
    cbn [app]. split.
    + f_equal. exact IH1.
    + rewrite app_nil_r in *. f_equal. exact IH2.
Qed.

Lemma RetryRun_measures request (evs : list Ev') final :
  RetryRun request evs final ->
  (1 <= callCount evs <= 3)%nat
  /\ S (length (sleepsOf evs)) = callCount evs
  /\ last (fetchesOf evs) = Some (request, final).
Proof.
  intros (retried & -> & Hlen & _ & _).
  destruct (retryEvents_measures request retried final) as [Hf Hs].
  unfold callCount. rewrite Hf, Hs, length_app, !length_fmap, last_snoc.
  change (Z.to_nat maxRetries) with 2%nat in Hlen. cbn [length].
  repeat split; lia.
Qed.

Lemma ViaRetry_calls mkRequest queryIds (evs : list Ev') :
  ViaRetry mkRequest queryIds evs -> (callCount evs <= 3 * length queryIds)%nat.
Proof.
  induction 1 as [|queryId rest evs final more Hrun _ IH]; [cbn; lia|].
  rewrite callCount_app. cbn [length].
  destruct (RetryRun_measures _ _ _ Hrun) as [[_ Hle] _]. lia.
Qed.

Lemma SentOnce_measures mkRequest queryIds (evs : list Ev') :
  SentOnce mkRequest queryIds evs ->
  (callCount evs <= length queryIds)%nat /\ sleepsOf evs = [].
Proof.
  induction 1 as [|queryId rest final more _ [IH1 IH2]]; [split; [cbn; lia|reflexivity]|].
  split.
  - change (callCount (EvFetch (mkRequest queryId) final :: more))
      with (S (callCount more)). cbn [length]. lia.
  - exact IH2.
Qed.

Lemma queryIds_lengths (w : W) :
  (length (val (getBookmarksQueryIds w)) <= 3)%nat
  /\ (length (val (getBookmarkFolderQueryIds w)) <= 2)%nat
  /\ (length (val (getLikesQueryIds w)) <= 2)%nat.
Proof.
  repeat split.
  - exact (sublist_length _ _ (arrayFromSet_sublist
             [(getQueryId "Bookmarks" w).1;
              "RV1g3b8n_SGOHwkqKYSCFw"; "tmd4ifV8RHltzn8ymGg1aw"])).
  - exact (sublist_length _ _ (arrayFromSet_sublist
             [(getQueryId "BookmarkFolderTimeline" w).1; "KJIQpsvxrTfRIlbaRIySHQ"])).
  - exact (sublist_length _ _ (arrayFromSet_sublist
             [(getQueryId "Likes" w).1; "JR2gceKucIKcVNB_9JkhsA"])).
Qed.

Lemma fetchWithRefresh_calls (fetchPage : Z -> option string -> Run' PageResult)
    bound pageCount pageCursor (w : W) :
  (forall w', (callCount (events (fetchPage pageCount pageCursor w')) <= bound)%nat) ->
  (callCount (events (fetchWithRefresh fetchPage pageCount pageCursor w)) <= 2 * bound)%nat.
Proof.
  intros Hb.
  pose proof (fetchWithRefresh_unfold fetchPage pageCount pageCursor w) as Heq.
  cbv zeta in Heq. rewrite Heq.
  pose proof (Hb w) as H1.
  destruct (notFoundFailure _); cbn [events]; [|lia].
  rewrite !callCount_app.
  pose proof (Hb (refreshQueryIds (world (fetchPage pageCount pageCursor w)))) as H2.
  change (callCount [EvRefresh]) with 0%nat. lia.
Qed.

Lemma bookmarksFetchPage_calls pageCount pageCursor (w : W) :
  (callCount (events (bookmarksFetchPage pageCount pageCursor w)) <= 9)%nat.
Proof.
  pose proof (ViaRetry_calls _ _ _
                (proj1 (bookmarksFetchPage_facts pageCount pageCursor w))) as Hc.
  pose proof (proj1 (queryIds_lengths w)). lia.
Qed.

Lemma folderFetchPage_calls folderId pageCount pageCursor (w : W) :
  (callCount (events (folderFetchPage folderId pageCount pageCursor w)) <= 12)%nat.
Proof.
  pose proof (folderFetchPage_unfold folderId pageCount pageCursor w) as Heq.
  cbv zeta in Heq. rewrite Heq.
  destruct (folderPasses_facts folderId pageCount pageCursor w) as ([V1 V2] & _).
  apply ViaRetry_calls in V1, V2.
  pose proof (proj1 (proj2 (queryIds_lengths w))).
  destruct (failedNaming variableCount _); cbn [events]; [rewrite callCount_app|]; lia.
Qed.

(** X2.  The number of HTTP calls is bounded: one call of [fetchWithRetry]
    sends between 1 and 3 requests; a bookmarks page fetch sends at most 9
    and at most 18 with its refresh cycle; a folder page fetch at most 12
    and at most 24 with its refresh cycle; [getLikes] sends at most 4 and
    never waits. *)
Theorem http_calls_are_bounded :
  (forall request (w : W),
     (1 <= callCount (events (fetchWithRetry request w)) <= 3)%nat)
  /\ (forall pageCount pageCursor (w : W),
        (callCount (events (bookmarksFetchPage pageCount pageCursor w)) <= 9)%nat
        /\ (callCount (events (fetchWithRefresh bookmarksFetchPage
                                 pageCount pageCursor w)) <= 18)%nat)
  /\ (forall folderId pageCount pageCursor (w : W),
        (callCount (events (folderFetchPage folderId pageCount pageCursor w)) <= 12)%nat
        /\ (callCount (events (fetchWithRefresh (folderFetchPage folderId)
                                 pageCount pageCursor w)) <= 24)%nat)
  /\ (forall count (w : W),
        (callCount (events (getLikes count w)) <= 4)%nat
        /\ sleepsOf (events (getLikes count w)) = []).
Proof.
  split; [|split; [|split]].
  - intros request w. apply (RetryRun_measures _ _ _ (fetchWithRetry_run request w)).
  - intros pageCount pageCursor w. split; [apply bookmarksFetchPage_calls|].
    apply (fetchWithRefresh_calls bookmarksFetchPage 9).
    intros w'. apply bookmarksFetchPage_calls.
  - intros folderId pageCount pageCursor w. split; [apply folderFetchPage_calls|].
    apply (fetchWithRefresh_calls (folderFetchPage folderId) 12).
    intros w'. apply folderFetchPage_calls.
  - intros count w.
    assert (Honce : forall userId w',
               (callCount (events (likesTryOnce userId count w')) <= 2)%nat
               /\ sleepsOf (events (likesTryOnce userId count w')) = []).
    { intros userId w'.
      destruct (SentOnce_measures _ _ _ (proj1 (likesTryOnce_facts userId count w')))
        as [Hc Hs].
      pose proof (proj2 (proj2 (queryIds_lengths w'))). split; [lia|exact Hs]. }
    pose proof (getLikes_unfold count w) as Heq. cbv zeta in Heq. rewrite Heq.
    destruct (user (getCurrentUser w).1) as [currentUser|]; [|split; [cbn; lia|reflexivity]].
    destruct (user_success (getCurrentUser w).1); [|split; [cbn; lia|reflexivity]].
    destruct (notFoundFailure _); cbn [events].
    + rewrite !callCount_app, !sleepsOf_app.
      destruct (Honce (user_id currentUser) (getCurrentUser w).2) as [H1 ->].
      match goal with
      | |- context [likesTryOnce _ _ (refreshQueryIds ?w0)] =>
          destruct (Honce (user_id currentUser) (refreshQueryIds w0)) as [H2 ->]
      end.
      change (callCount [EvRefresh]) with 0%nat. split; [lia|reflexivity].
    + destruct (Honce (user_id currentUser) (getCurrentUser w).2) as [H1 H2].
      split; [lia|exact H2].
Qed.

Lemma hintless_app (a b : list Ev') : hintless (a ++ b) <-> hintless a /\ hintless b.
Proof. unfold hintless. rewrite fetchesOf_app, fmap_app. apply Forall_app. Qed.

(** X3.  When no response carries a Retry-After header, one call of
    [fetchWithRetry] waits 0 ms if it sent one request, at least 500 and
    less than 1000 ms if it sent two, and at least 1500 and less than 2500
    ms if it sent three. *)
Theorem backoff_total_without_hints request (w : W) :
  hintless (events (fetchWithRetry request w)) ->
  let evs := events (fetchWithRetry request w) in
  match callCount evs with
  | 1%nat => totalSleep evs = 0
  | 2%nat => 500 <= totalSleep evs < 1000
  | _ => 1500 <= totalSleep evs < 2500
  end.
Proof.
  intros Hh evs. subst evs.
  destruct (fetchWithRetry_run request w) as (retried & Hevs & Hlen & Hall & _).
  rewrite Hevs in *. clear Hevs.
  destruct (retryEvents_measures request retried (val (fetchWithRetry request w)))
    as [Hf Hs].
  unfold callCount, totalSleep. unfold hintless in Hh. rewrite Hf in *. rewrite Hs.
  rewrite length_app, length_fmap. cbn [length].
  assert (Hd : forall i response ms, retried !! i = Some (response, ms) ->
                 500 * 2 ^ Z.of_nat i <= ms < 500 * 2 ^ Z.of_nat i + 500).
  { intros i response ms Hi. destruct (Hall i response ms Hi) as [_ Hd].
    unfold delayOk in Hd. rewrite retryAfterMs_absent in Hd; [exact Hd|].
    rewrite fmap_app, Forall_app in Hh. destruct Hh as [Hh _].
    rewrite <- list_fmap_compose in Hh. rewrite Forall_fmap in Hh.
    rewrite Forall_lookup in Hh. apply (Hh i (response, ms) Hi). }
  change (Z.to_nat maxRetries) with 2%nat in Hlen.
  destruct retried as [|[r0 d0] [|[r1 d1] [|? ?]]]; cbn [length] in *; try lia.
  - reflexivity.
  - pose proof (Hd 0%nat r0 d0 eq_refl). cbn in *. lia.
  - pose proof (Hd 0%nat r0 d0 eq_refl). pose proof (Hd 1%nat r1 d1 eq_refl).
    cbn in *. lia.
Qed.

(** ** Merging pages *)

Lemma elem_of_idsOf i (items : list TweetData) :
  i ∈ idsOf items <-> exists t, t ∈ items /\ id t = i.
Proof.
  unfold idsOf. rewrite elem_of_list_to_set, list_elem_of_fmap.
  split; intros (t & H1 & H2); exists t; auto.
Qed.

Lemma mergePage_added limit (page : list TweetData) seen collected :
  exists added,
    (mergePage limit page seen collected).2 = collected ++ added
    /\ (mergePage limit page seen collected).1 = seen ∪ idsOf added
    /\ added `sublist_of` page
    /\ (forall t, t ∈ added -> id t ∉ seen)
    /\ NoDup (id <$> added).
Proof.
  revert seen collected. induction page as [|x page IH]; intros seen collected.
  - exists []. cbn [mergePage fst snd]. rewrite app_nil_r, idsOf_nil, union_nothing.
    repeat split; [constructor | intros t Ht; inversion Ht | constructor].
  - cbn [mergePage]. destruct (bool_decide (id x ∈ seen)) eqn:Hin.
    + destruct (IH seen collected) as (added & H1 & H2 & H3 & H4 & H5).
      exists added. repeat split; try assumption. apply sublist_cons, H3.
    + apply bool_decide_eq_false in Hin.
      destruct (negb (unlimited limit) && reached limit (collected ++ [x])).
      * exists [x]. cbn [fst snd]. rewrite idsOf_cons, idsOf_nil, union_nothing.
        repeat split.
        -- apply set_eq. intros i. rewrite !elem_of_union. tauto.
        -- apply sublist_skip, sublist_nil_l.
        -- intros t Ht. apply list_elem_of_singleton in Ht. subst t. exact Hin.
        -- repeat constructor. intros Hx. inversion Hx.
      * destruct (IH ({[id x]} ∪ seen) (collected ++ [x]))
          as (added & H1 & H2 & H3 & H4 & H5).
        exists (x :: added). rewrite H1, H2, <- app_assoc, idsOf_cons.
        repeat split.
        -- apply set_eq. intros i. rewrite !elem_of_union. tauto.
        -- apply sublist_skip, H3.
        -- intros t Ht. apply elem_of_cons in Ht as [->|Ht]; [exact Hin|].
           specialize (H4 t Ht). rewrite elem_of_union in H4. tauto.
        -- cbn [fmap list_fmap]. constructor; [|exact H5].
           intros Hx. apply list_elem_of_fmap in Hx as (t & Hid & Ht).
           specialize (H4 t Ht). rewrite elem_of_union, elem_of_singleton in H4.
           apply H4. left. congruence.
Qed.

(** X4.  Merging a page never removes or reorders what was collected: the
    result is the collected list followed by items of the page, in page
    order, whose identities are new and pairwise distinct; the identity set
    grows by exactly these identities, so it stays the set of identities of
    the collected list, and the identities of the collected list stay
    pairwise distinct. *)
Theorem mergePage_appends_new_identities limit (page : list TweetData) seen collected :
  let merged := mergePage limit page seen collected in
  collected `prefix_of` merged.2
  /\ (exists added, merged.2 = collected ++ added
                    /\ added `sublist_of` page
                    /\ merged.1 = seen ∪ idsOf added
                    /\ forall t, t ∈ added -> id t ∉ seen)
  /\ (seen = idsOf collected -> merged.1 = idsOf merged.2)
  /\ (seen = idsOf collected -> NoDup (id <$> collected) -> NoDup (id <$> merged.2)).
Proof.
  cbv zeta.
  destruct (mergePage_added limit page seen collected) as (added & H1 & H2 & H3 & H4 & H5).
  split; [exists added; exact H1|]. split; [exists added; auto|]. split.
  - intros ->. rewrite H1, H2, idsOf_app. reflexivity.
  - intros -> Hnd. rewrite H1, fmap_app. apply NoDup_app. split; [exact Hnd|].
    split; [|exact H5].
    intros i Hi Hi'. apply list_elem_of_fmap in Hi' as (t & -> & Ht).
    apply (H4 t Ht). apply elem_of_idsOf.
    apply list_elem_of_fmap in Hi as (t' & Hid & Ht'). exists t'. auto.
Qed.

(** X5.  Merging is idempotent as long as the limit is not reached:
    merging the same page again, from the merged state, changes neither the
    identity set nor the collected list. *)
Theorem mergePage_idempotent limit (page : list TweetData) seen collected :
  let merged := mergePage limit page seen collected in
  match limit with
  | NotFinite => True
  | Finite n => Z.of_nat (length merged.2) < n
  end ->
  mergePage limit page merged.1 merged.2 = merged.
Proof.
  cbv zeta. destruct limit as [n|].
  - intros Hshort.
    destruct (mergePage_added (Finite n) page seen collected) as (added & H1 & _).
    assert (Hlt : Z.of_nat (length collected) < n).
    { rewrite H1, length_app in Hshort. lia. }
    destruct (mergePage_finite n page seen collected Hlt) as [_ Hseen].
    cbv zeta in Hseen. specialize (Hseen Hshort).
    destruct (mergePage_finite n page
                (mergePage (Finite n) page seen collected).1
                (mergePage (Finite n) page seen collected).2 Hshort) as [Hm Hs].
    cbv zeta in Hm, Hs.
    assert (Hknown : dedupById (mergePage (Finite n) page seen collected).1 page = []).
    { apply dedupById_known. apply Forall_forall. intros t Ht.
      rewrite Hseen, elem_of_union, elem_of_idsOf. right. exists t. auto. }
    rewrite Hknown, app_nil_r in Hm.
    rewrite take_ge in Hm by lia.
    rewrite Hm in Hs. specialize (Hs Hshort).
    destruct (mergePage (Finite n) page (mergePage (Finite n) page seen collected).1
                (mergePage (Finite n) page seen collected).2) as [s' c'].
    cbn [fst snd] in *. subst c' s'.
    destruct (mergePage (Finite n) page seen collected) as [s c]. cbn [fst snd] in *.
    f_equal. rewrite Hseen. apply set_eq. intros i. rewrite !elem_of_union. tauto.
  - intros _. rewrite !mergePage_unlimited. cbn [fst snd].
    rewrite (dedupById_known (seen ∪ idsOf page) page), app_nil_r.
    + f_equal. apply set_eq. intros i. rewrite !elem_of_union. tauto.
    + apply Forall_forall. intros t Ht.
      rewrite elem_of_union, elem_of_idsOf. right. exists t. auto.
Qed.

(** ** Whole runs of the pagination loop *)

Lemma dedupById_distinct seen (items : list TweetData) :
  NoDup (id <$> dedupById seen items)
  /\ dedupById seen items `sublist_of` items
  /\ forall t, t ∈ dedupById seen items -> id t ∉ seen.
Proof.
  revert seen. induction items as [|x items IH]; intros seen.
  - cbn. repeat split; [constructor | constructor | intros t Ht; inversion Ht].
  - cbn [dedupById]. destruct (bool_decide (id x ∈ seen)) eqn:Hin.
    + destruct (IH seen) as (H1 & H2 & H3). repeat split; try assumption.
      apply sublist_cons, H2.
    + apply bool_decide_eq_false in Hin.
      destruct (IH ({[id x]} ∪ seen)) as (H1 & H2 & H3). repeat split.
      * cbn [fmap list_fmap]. constructor; [|exact H1].
        intros Hx. apply list_elem_of_fmap in Hx as (t & Hid & Ht).
        specialize (H3 t Ht). rewrite elem_of_union, elem_of_singleton in H3.
        apply H3. left. congruence.
      * apply sublist_skip, H2.
      * intros t Ht. apply elem_of_cons in Ht as [->|Ht]; [exact Hin|].
        specialize (H3 t Ht). rewrite elem_of_union in H3. tauto.
Qed.

Lemma pagedLoop_unbounded (fetch : Z -> option string -> Run' PageResult)
    options fuel st (w : W) prefix :
  st_tweets st = dedupById ∅ (concat prefix) ->
  st_seen st = idsOf (concat prefix) ->
  let history := pagesOf fetch NotFinite options fuel st w in
  (forall r, val (pagedLoop fetch NotFinite options fuel st w) = Some r ->
     success r = true ->
     tweets r = Some (dedupById ∅ (concat (prefix ++ (log_tweets <$> history))))
     /\ exists entry, last history = Some entry
          /\ (endOfCollection entry
              || pageCeilingHit options
                   (st_pagesFetched st + Z.of_nat (length history))) = true)
  /\ Forall (fun entry => log_pageCount entry = 20) history.
Proof.
  revert st w prefix. induction fuel as [|fuel IH]; intros st w prefix Htweets Hseen;
    cbv zeta.
  - cbn. split; [intros; discriminate|constructor].
  - assert (Hc : loopCondition NotFinite st = true) by reflexivity.
    pose proof (pagedLoop_step fetch NotFinite options fuel st w Hc) as Hloop.
    pose proof (pagesOf_step fetch NotFinite options fuel st w Hc) as Hpages.
    cbv zeta in Hloop, Hpages. rewrite Hloop, Hpages. clear Hloop Hpages.
    unfold after. cbn [val].
    destruct (val (fetch (pageCountFor NotFinite st) (st_cursor st) w))
      as [pageTweets nextCursor flag|message flag].
    2:{ cbn. split; [intros; simplify_eq/=|constructor]. }
    set (entry := {| log_pageCount := pageCountFor NotFinite st;
                     log_cursor := st_cursor st;
                     log_tweets := pageTweets; log_next := nextCursor |}).
    assert (Hnew : (mergePage NotFinite pageTweets (st_seen st) (st_tweets st)).2
                   = dedupById ∅ (concat (prefix ++ [pageTweets]))
                   /\ (mergePage NotFinite pageTweets (st_seen st) (st_tweets st)).1
                      = idsOf (concat (prefix ++ [pageTweets]))).
    { rewrite mergePage_unlimited, concat_snoc, dedupById_snoc, idsOf_app,
        Htweets, Hseen. split; reflexivity. }
    destruct Hnew as [Hnew Hids].
    destruct (endOfCollection entry || pageCeilingHit options (st_pagesFetched st + 1))
      eqn:Hstop.
    + cbn [ret val fmap list_fmap log_tweets entry]. split; [|repeat constructor].
      intros r [= <-] _. cbn [tweets succeed]. rewrite Hnew. split; [reflexivity|].
      exists entry. split; [reflexivity|]. exact Hstop.
    + destruct (IH (nextState NotFinite st pageTweets nextCursor)
                  (world (fetch (pageCountFor NotFinite st) (st_cursor st) w))
                  (prefix ++ [pageTweets]) Hnew Hids) as (IH1 & IH2).
      cbv zeta in IH1, IH2.
      set (history := pagesOf fetch NotFinite options fuel _ _) in *.
      cbn [fmap list_fmap log_tweets entry].
      change (list_fmap PageLog (list TweetData) log_tweets history)
        with (log_tweets <$> history).
      split; [|constructor; [reflexivity|exact IH2]].
      intros r Hval Hok. destruct (IH1 r Hval Hok) as (Ht & e & Hlast & Hend).
      split; [rewrite Ht, <- app_assoc; reflexivity|].
      exists e. split; [rewrite last_cons, Hlast; reflexivity|].
      cbn [nextState st_pagesFetched length] in Hend |- *.
      replace (st_pagesFetched st + Z.of_nat (S (length history)))
        with (st_pagesFetched st + 1 + Z.of_nat (length history)) by lia.
      exact Hend.
Qed.

(** X6.  An unbounded run ([getAllBookmarks], [getAllBookmarkFolderTimeline])
    that succeeds returns every distinct item of the pages it obtained, in
    order of first appearance; it asked 20 items for each page; and it
    stopped because its last page ended the collection or because the page
    ceiling was reached with that page. *)
Theorem unbounded_fetch_returns_every_distinct_item
    (fetch : Z -> option string -> Run' PageResult) options fuel (w : W) r :
  val (pagedLoop fetch NotFinite options fuel initialState w) = Some r ->
  success r = true ->
  let history := pagesOf fetch NotFinite options fuel initialState w in
  tweets r = Some (dedupById ∅ (concat (log_tweets <$> history)))
  /\ Forall (fun entry => log_pageCount entry = 20) history
  /\ exists entry, last history = Some entry
       /\ (endOfCollection entry = true
           \/ exists m, maxPages options = Some m /\ m <> 0
                        /\ m <= Z.of_nat (length history)).
Proof.
  intros Hval Hok history.
  destruct (pagedLoop_unbounded fetch options fuel initialState w [] eq_refl eq_refl)
    as [H1 H2]. cbv zeta in H1, H2. fold history in H1, H2.
  destruct (H1 r Hval Hok) as (Ht & e & Hlast & Hend).
  split; [exact Ht|]. split; [exact H2|]. exists e. split; [exact Hlast|].
  apply orb_true_iff in Hend as [Hend|Hend]; [left; exact Hend|right].
  unfold pageCeilingHit in Hend. destruct (maxPages options) as [m|]; [|discriminate].
  apply andb_true_iff in Hend as [Hnz Hle]. exists m.
  apply negb_true_iff, Z.eqb_neq in Hnz. apply Z.leb_le in Hle.
  cbn in Hle. auto.
Qed.

Lemma pagedLoop_success_shape (fetch : Z -> option string -> Run' PageResult)
    limit options fuel st (w : W) r :
  val (pagedLoop fetch limit options fuel st w) = Some r ->
  (exists items, r = succeed items) \/ (exists message, r = failWith (Some message)).
Proof.
  revert st w. induction fuel as [|fuel IH]; intros st w Hval.
  - destruct (loopCondition limit st) eqn:Hc.
    + cbn [pagedLoop] in Hval. rewrite Hc in Hval. discriminate Hval.
    + rewrite (pagedLoop_done _ _ _ _ _ _ Hc) in Hval. injection Hval as <-. eauto.
  - destruct (loopCondition limit st) eqn:Hc.
    + pose proof (pagedLoop_step fetch limit options fuel st w Hc) as Heq.
      cbv zeta in Heq. rewrite Heq in Hval. clear Heq.
      unfold after in Hval. cbn [val] in Hval.
      destruct (val (fetch (pageCountFor limit st) (st_cursor st) w)).
      * destruct (endOfCollection _ || pageCeilingHit _ _).
        -- injection Hval as <-. eauto.
        -- apply (IH _ _ Hval).
      * injection Hval as <-. eauto.
    + rewrite (pagedLoop_done _ _ _ _ _ _ Hc) in Hval. injection Hval as <-. eauto.
Qed.

Lemma pagedLoop_items
    (fetch : Z -> option string -> Run' PageResult) limit options fuel (w : W) r items :
  val (pagedLoop fetch limit options fuel initialState w) = Some r ->
  tweets r = Some items ->
  NoDup (id <$> items)
  /\ forall t, t ∈ items ->
       exists entry, entry ∈ pagesOf fetch limit options fuel initialState w
                     /\ t ∈ log_tweets entry.
Proof.
  intros Hval Hitems.
  assert (Hok : success r = true).
  { destruct (pagedLoop_success_shape _ _ _ _ _ _ _ Hval) as [[? ->]|[? ->]];
      [reflexivity|discriminate Hitems]. }
  set (history := pagesOf fetch limit options fuel initialState w).
  assert (Hsub : items `sublist_of` dedupById ∅ (concat (log_tweets <$> history))).
  { destruct limit as [n|].
    - destruct (pagedLoop_bounded fetch n options fuel initialState w [])
        as (H1 & _).
      { cbn. symmetry. apply take_nil. }
      { intros _. reflexivity. }
      cbv zeta in H1. specialize (H1 r Hval Hok). cbn [app] in H1.
      rewrite Hitems in H1. injection H1 as ->. apply sublist_take.
    - destruct (pagedLoop_unbounded fetch options fuel initialState w [] eq_refl eq_refl)
        as [H1 _]. cbv zeta in H1. destruct (H1 r Hval Hok) as [Ht _].
      cbn [app] in Ht. rewrite Hitems in Ht. injection Ht as ->. reflexivity. }
  destruct (dedupById_distinct ∅ (concat (log_tweets <$> history))) as (Hnd & Hfrom & _).
  split.
  - exact (sublist_NoDup _ _ Hnd (fmap_sublist id _ _ Hsub)).
  - intros t Ht.
    assert (Hin : t ∈ concat (log_tweets <$> history)).
    { eapply elem_of_sublist; [|exact Hfrom]. eapply elem_of_sublist; eassumption. }
    apply list_elem_of_In, in_concat in Hin as (pg & Hpg & Htpg).
    apply list_elem_of_In, list_elem_of_fmap in Hpg as (entry & -> & Hentry).
    exists entry. split; [exact Hentry|]. apply list_elem_of_In. exact Htpg.
Qed.

(** X7.  Whatever the limit, the items of a result of the pagination loop
    have pairwise distinct identities, and each of them was delivered by
    one of the pages obtained. *)
Theorem result_items_distinct_and_from_pages
    (fetch : Z -> option string -> Run' PageResult) limit options fuel (w : W) r items :
  val (pagedLoop fetch limit options fuel initialState w) = Some r ->
  tweets r = Some items ->
  NoDup (id <$> items)
  /\ forall t, t ∈ items ->
       exists entry, entry ∈ pagesOf fetch limit options fuel initialState w
                     /\ t ∈ log_tweets entry.
Proof. apply pagedLoop_items. Qed.

Lemma pagesOf_chain (fetch : Z -> option string -> Run' PageResult)
    limit options fuel st (w : W) :
  let history := pagesOf fetch limit options fuel st w in
  (forall entry, history !! 0%nat = Some entry ->
     log_cursor entry = st_cursor st /\ log_pageCount entry = pageCountFor limit st)
  /\ (forall i e1 e2, history !! i = Some e1 -> history !! S i = Some e2 ->
        log_cursor e2 = log_next e1 /\ endOfCollection e1 = false).
Proof.
  revert st w. induction fuel as [|fuel IH]; intros st w; cbv zeta.
  - assert (Hnil : pagesOf fetch limit options 0 st w = []).
    { cbn. destruct (negb (loopCondition limit st)); reflexivity. }
    rewrite Hnil. split; intros; discriminate.
  - destruct (loopCondition limit st) eqn:Hc.
    2:{ rewrite (pagesOf_done _ _ _ _ _ _ Hc). split; intros; discriminate. }
    pose proof (pagesOf_step fetch limit options fuel st w Hc) as Hpages.
    cbv zeta in Hpages. rewrite Hpages. clear Hpages.
    destruct (val (fetch (pageCountFor limit st) (st_cursor st) w))
      as [pageTweets nextCursor flag|message flag]; [|split; intros; discriminate].
    set (entry := {| log_pageCount := pageCountFor limit st;
                     log_cursor := st_cursor st;
                     log_tweets := pageTweets; log_next := nextCursor |}).
    destruct (endOfCollection entry || pageCeilingHit options (st_pagesFetched st + 1))
      eqn:Hstop.
    + split.
      * intros e [= <-]. split; reflexivity.
      * intros [|i] e1 e2 _ H2; discriminate H2.
    + apply orb_false_iff in Hstop as [Hend _].
      destruct (IH (nextState limit st pageTweets nextCursor)
                  (world (fetch (pageCountFor limit st) (st_cursor st) w)))
        as [IH1 IH2].
      split.
      * intros e [= <-]. split; reflexivity.
      * intros [|i] e1 e2 H1 H2.
        -- cbn in H1, H2. injection H1 as <-.
           destruct (IH1 e2 H2) as [Hcur _]. split; [exact Hcur|exact Hend].
        -- cbn in H1, H2. apply (IH2 i e1 e2 H1 H2).
Qed.

(** X8.  Pages are requested in a chain: the first page is requested
    without a cursor, every later page with the cursor that the page before
    it returned, and a page is followed by another only if it was not empty
    and returned a non-empty cursor different from the one it was requested
    with.  Every HTTP request of a page fetch carries exactly the cursor of
    that page (none when it is absent or empty). *)
Theorem pages_are_chained_by_cursor :
  (forall (fetch : Z -> option string -> Run' PageResult) limit options fuel (w : W),
     let history := pagesOf fetch limit options fuel initialState w in
     (forall entry, head history = Some entry -> log_cursor entry = None)
     /\ (forall i e1 e2, history !! i = Some e1 -> history !! S i = Some e2 ->
           log_cursor e2 = log_next e1
           /\ Js.truthy (log_next e1) = true
           /\ log_next e1 <> log_cursor e1
           /\ log_tweets e1 <> []))
  /\ (forall pageCount pageCursor (w : W),
        Forall (fun rq => req_cursor rq = if Js.truthy pageCursor then pageCursor else None)
          (requestsOf (events (fetchWithRefresh bookmarksFetchPage pageCount pageCursor w))))
  /\ (forall folderId pageCount pageCursor (w : W),
        Forall (fun rq => req_cursor rq = if Js.truthy pageCursor then pageCursor else None)
          (requestsOf (events (fetchWithRefresh (folderFetchPage folderId)
                                 pageCount pageCursor w)))).
Proof.
  split; [|split].
  - intros fetch limit options fuel w history.
    destruct (pagesOf_chain fetch limit options fuel initialState w) as [H1 H2].
    cbv zeta in H1, H2. fold history in H1, H2. split.
    + intros entry He. rewrite head_lookup in He. apply (H1 entry He).
    + intros i e1 e2 He1 He2. destruct (H2 i e1 e2 He1 He2) as [Hcur Hend].
      split; [exact Hcur|]. unfold endOfCollection in Hend.
      apply orb_false_iff in Hend as [Hend Hlen].
      apply orb_false_iff in Hend as [Htruthy Hsame].
      apply negb_false_iff in Htruthy. apply bool_decide_eq_false in Hsame.
      apply Z.eqb_neq in Hlen.
      repeat split; [exact Htruthy|exact Hsame|].
      intros Hnil. rewrite Hnil in Hlen. apply Hlen. reflexivity.
  - intros pageCount pageCursor w. apply fetchWithRefresh_requests. intros w'.
    eapply Forall_impl; [apply (bookmarksFetchPage_facts pageCount pageCursor w')|].
    intros rq [_ Hc]. exact Hc.
  - intros folderId pageCount pageCursor w. apply fetchWithRefresh_requests. intros w'.
    apply (folderFetchPage_facts folderId pageCount pageCursor w').
Qed.

Lemma pagedLoop_ceiling (fetch : Z -> option string -> Run' PageResult)
    limit options m bound fuel st (w : W) :
  maxPages options = Some m -> 0 < m ->
  (forall n c w', (callCount (events (fetch n c w')) <= bound)%nat) ->
  let k := Nat.max 1 (Z.to_nat (m - st_pagesFetched st)) in
  (length (pagesOf fetch limit options fuel st w) <= k)%nat
  /\ (callCount (events (pagedLoop fetch limit options fuel st w)) <= bound * k)%nat
  /\ ((k <= fuel)%nat -> is_Some (val (pagedLoop fetch limit options fuel st w))).
Proof.
  intros Hm Hpos Hbound. revert st w.
  induction fuel as [|fuel IH]; intros st w; cbv zeta.
  - destruct (loopCondition limit st) eqn:Hc.
    + cbn [pagedLoop pagesOf]. rewrite Hc. cbn. repeat split; try lia.
    + rewrite (pagedLoop_done _ _ _ _ _ _ Hc), (pagesOf_done _ _ _ _ _ _ Hc). cbn.
      repeat split; try lia; eauto.
  - destruct (loopCondition limit st) eqn:Hc.
    2:{ rewrite (pagedLoop_done _ _ _ _ _ _ Hc), (pagesOf_done _ _ _ _ _ _ Hc). cbn.
        repeat split; try lia; eauto. }
    pose proof (pagedLoop_step fetch limit options fuel st w Hc) as Hloop.
    pose proof (pagesOf_step fetch limit options fuel st w Hc) as Hpages.
    cbv zeta in Hloop, Hpages. rewrite Hloop, Hpages. clear Hloop Hpages.
    unfold after. cbn [val events].
    pose proof (Hbound (pageCountFor limit st) (st_cursor st) w) as Hfirst.
    rewrite callCount_app.
    destruct (val (fetch (pageCountFor limit st) (st_cursor st) w))
      as [pageTweets nextCursor flag|message flag].
    2:{ cbn. change (callCount []) with 0%nat. repeat split; try nia; eauto. }
    destruct (endOfCollection _ || pageCeilingHit options (st_pagesFetched st + 1))
      eqn:Hstop.
    + cbn. change (callCount []) with 0%nat. repeat split; try nia; eauto.
    + apply orb_false_iff in Hstop as [_ Hceil].
      unfold pageCeilingHit in Hceil. rewrite Hm in Hceil.
      apply andb_false_iff in Hceil as [Hz|Hle];
        [apply negb_false_iff, Z.eqb_eq in Hz; lia|].
      apply Z.leb_gt in Hle.
      destruct (IH (nextState limit st pageTweets nextCursor)
                  (world (fetch (pageCountFor limit st) (st_cursor st) w)))
        as (IH1 & IH2 & IH3).
      cbv zeta in IH1, IH2, IH3. cbn [nextState st_pagesFetched] in IH1, IH2, IH3.
      cbn [length].
      assert (Hk : Nat.max 1 (Z.to_nat (m - st_pagesFetched st))
                   = S (Nat.max 1 (Z.to_nat (m - (st_pagesFetched st + 1))))) by lia.
      rewrite Hk. repeat split; [lia|nia|].
      intros Hfuel. apply IH3. lia.
Qed.

(** X9.  A page ceiling [maxPages = m > 0] bounds an unbounded run: it
    obtains at most [m] pages, sends at most [18 m] HTTP requests for
    bookmarks ([24 m] for a folder), and returns a result within [m]
    iterations. *)
Theorem page_ceiling_bounds_the_run m fuel (w : W) :
  0 < m ->
  (let run := getAllBookmarks fuel {| maxPages := Some m |} w in
   (length (pagesOf (fetchWithRefresh bookmarksFetchPage) NotFinite
              {| maxPages := Some m |} fuel initialState w) <= Z.to_nat m)%nat
   /\ (callCount (events run) <= 18 * Z.to_nat m)%nat
   /\ ((Z.to_nat m <= fuel)%nat -> is_Some (val run)))
  /\ (forall folderId,
        let run := getAllBookmarkFolderTimeline fuel folderId {| maxPages := Some m |} w in
        (length (pagesOf (fetchWithRefresh (folderFetchPage folderId)) NotFinite
                   {| maxPages := Some m |} fuel initialState w) <= Z.to_nat m)%nat
        /\ (callCount (events run) <= 24 * Z.to_nat m)%nat
        /\ ((Z.to_nat m <= fuel)%nat -> is_Some (val run))).
Proof.
  intros Hpos.
  assert (Hk : Nat.max 1 (Z.to_nat (m - st_pagesFetched initialState)) = Z.to_nat m).
  { cbn [initialState st_pagesFetched]. lia. }
  split.
  - destruct (pagedLoop_ceiling (fetchWithRefresh bookmarksFetchPage) NotFinite
                {| maxPages := Some m |} m 18%nat fuel initialState w eq_refl Hpos)
      as (H1 & H2 & H3).
    { intros n c w'. apply (fetchWithRefresh_calls bookmarksFetchPage 9).
      intros w''. apply bookmarksFetchPage_calls. }
    cbv zeta in H1, H2, H3. rewrite Hk in H1, H2, H3. auto.
  - intros folderId.
    destruct (pagedLoop_ceiling (fetchWithRefresh (folderFetchPage folderId)) NotFinite
                {| maxPages := Some m |} m 24%nat fuel initialState w eq_refl Hpos)
      as (H1 & H2 & H3).
    { intros n c w'. apply (fetchWithRefresh_calls (folderFetchPage folderId) 12).
      intros w''. apply folderFetchPage_calls. }
    cbv zeta in H1, H2, H3. rewrite Hk in H1, H2, H3. auto.
Qed.

(** ** Where failures and successes come from *)

Lemma allRejected_app (a b : list Ev') : allRejected (a ++ b) <-> allRejected a /\ allRejected b.
Proof. unfold allRejected. rewrite fetchesOf_app, fmap_app. apply Forall_app. Qed.

Lemma RetryRun_rejected request (evs : list Ev') final :
  RetryRun request evs final -> allRejected evs ->
  exists message, final = Rejected message /\ evs = [EvFetch request final].
Proof.
  intros (retried & -> & _ & _ & _) Hall.
  destruct (retryEvents_measures request retried final) as [Hf _].
  unfold allRejected in Hall. rewrite Hf, fmap_app, Forall_app in Hall.
  destruct Hall as [Hretried Hfinal].
  destruct retried as [|[response ms] retried].
  - inversion Hfinal as [|? ? Hm _]; subst. destruct final as [message|response];
      [|contradiction]. exists message. split; reflexivity.
  - inversion Hretried as [|? ? Hm _]; subst. contradiction.
Qed.

Lemma tryCandidates_rejected mkRequest unknownError queryIds vars (w : W) :
  let run := tryCandidates mkRequest unknownError queryIds vars w in
  allRejected (events run) ->
  exists messages,
    (fetchesOf (events run)).*2 = Rejected <$> messages
    /\ length messages = length queryIds
    /\ (val run).1
       = Failure (default unknownError
                    (match last messages with
                     | Some message => Some message
                     | None => lastError vars
                     end))
           (Some (had404 vars))
    /\ sleepsOf (events run) = [].
Proof.
  revert vars w. induction queryIds as [|queryId rest IH]; intros vars w; cbv zeta.
  - intros _. exists []. repeat split.
  - rewrite tryCandidates_cons. cbv zeta.
    set (first := fetchWithRetry (mkRequest queryId) w).
    pose proof (fetchWithRetry_run (mkRequest queryId) w) as Hrun. fold first in Hrun.
    unfold after at 1. cbn [events]. intros Hall.
    apply allRejected_app in Hall as [Hfirst Hrest].
    destruct (RetryRun_rejected _ _ _ Hrun Hfirst) as (message & Hval & Hev).
    rewrite Hval in *. cbn [judge] in *.
    destruct (IH {| lastError := Some message; had404 := had404 vars |} (world first) Hrest)
      as (messages & H1 & H2 & H3 & H4).
    exists (message :: messages). unfold after. cbn [events val].
    rewrite fetchesOf_app, fmap_app, sleepsOf_app, H1, H3, H4, Hev.
    cbn [length had404 lastError]. repeat split.
    + lia.
    + rewrite last_cons. destruct (last messages); reflexivity.
Qed.

(** X10.  When every request of a bookmarks page fetch is rejected by the
    transport, each candidate was tried exactly once without waiting, the
    fetch fails with the message of the last rejection and without the
    not-found flag, so the wrapper neither refreshes nor tries again, and a
    bounded driver returns that message as its error. *)
Theorem network_failure_surfaces_last_error pageCount pageCursor (w : W) :
  allRejected (events (bookmarksFetchPage pageCount pageCursor w)) ->
  exists messages message,
    (fetchesOf (events (bookmarksFetchPage pageCount pageCursor w))).*2
    = Rejected <$> messages
    /\ last messages = Some message
    /\ length messages = length (val (getBookmarksQueryIds w))
    /\ val (bookmarksFetchPage pageCount pageCursor w) = Failure message (Some false)
    /\ fetchWithRefresh bookmarksFetchPage pageCount pageCursor w
       = mkOut (Failure message None)
           (world (bookmarksFetchPage pageCount pageCursor w))
           (events (bookmarksFetchPage pageCount pageCursor w))
    /\ sleepsOf (events (bookmarksFetchPage pageCount pageCursor w)) = [].
Proof.
  intros Hall.
  pose proof (bookmarksFetchPage_unfold pageCount pageCursor w) as Heq.
  cbv zeta in Heq. rewrite Heq in Hall |- *. cbn [events val world] in Hall |- *.
  rewrite app_nil_r in Hall |- *.
  destruct (tryCandidates_rejected _ _ _ _ _ Hall) as (messages & H1 & H2 & H3 & H4).
  assert (Hne : exists message, last messages = Some message).
  { destruct messages as [|m0 messages] using rev_ind.
    - pose proof (candidate_ids_nonempty w) as Hlen. cbn in H2. lia.
    - exists m0. apply last_snoc. }
  destruct Hne as [message Hlast]. rewrite Hlast in H3. cbn [default initially had404] in H3.
  exists messages, message.
  split; [exact H1|]. split; [exact Hlast|]. split; [exact H2|]. split; [exact H3|].
  split; [|exact H4].
  pose proof (fetchWithRefresh_unfold bookmarksFetchPage pageCount pageCursor w) as Hw.
  cbv zeta in Hw. rewrite Hw, Heq. cbn [val events world]. rewrite H3, app_nil_r.
  reflexivity.
Qed.

Lemma tryCandidates_success mkRequest unknownError queryIds vars (w : W)
    pageTweets nextCursor flag :
  (val (tryCandidates mkRequest unknownError queryIds vars w)).1
  = Success pageTweets nextCursor flag ->
  exists rq response data,
    last (fetchesOf (events (tryCandidates mkRequest unknownError queryIds vars w)))
    = Some (rq, Resolved response)
    /\ ok response = true
    /\ json response = JsonValue data
    /\ pageTweets = parseTweetsFromInstructions (instructions data)
    /\ nextCursor = extractCursorFromInstructions (instructions data)
    /\ (hasErrors data = true -> is_Some (instructions data)).
Proof.
  revert vars w. induction queryIds as [|queryId rest IH]; intros vars w.
  - intros Hval. discriminate Hval.
  - rewrite tryCandidates_cons. cbv zeta.
    set (first := fetchWithRetry (mkRequest queryId) w).
    pose proof (fetchWithRetry_run (mkRequest queryId) w) as Hrun. fold first in Hrun.
    destruct (RetryRun_measures _ _ _ Hrun) as (_ & _ & Hlast).
    unfold after. cbn [val events]. rewrite fetchesOf_app, last_app.
    unfold judge.
    destruct (val first) as [message|response] eqn:Hfirst.
    { intros Hval. destruct (IH _ _ Hval) as (rq & r & d & H1 & H2). rewrite H1. eauto 10. }
    destruct (status response =? 404).
    { intros Hval. destruct (IH _ _ Hval) as (rq & r & d & H1 & H2). rewrite H1. eauto 10. }
    destruct (ok response) eqn:Hok; cbn [negb]; [|intros Hval; discriminate Hval].
    destruct (json response) as [message|data] eqn:Hjson.
    { intros Hval. destruct (IH _ _ Hval) as (rq & r & d & H1 & H2). rewrite H1. eauto 10. }
    destruct (hasErrors data && negb (bool_decide (is_Some (instructions data)))) eqn:He.
    { intros Hval. destruct (IH _ _ Hval) as (rq & r & d & H1 & H2). rewrite H1. eauto 10. }
    cbn [ret val events fst]. intros [= <- <- <-].
    exists (mkRequest queryId), response, data.
    change (last (fetchesOf [])) with (@None (Request * FetchResult Instructions)).
    split; [exact Hlast|]. repeat split; try assumption.
    intros Herr. rewrite Herr in He. cbn in He.
    apply negb_false_iff, bool_decide_eq_true in He. exact He.
Qed.

Lemma likesCandidates_success mkRequest queryIds vars (w : W) pageTweets nextCursor flag :
  val (likesCandidates mkRequest queryIds vars w) = Success pageTweets nextCursor flag ->
  exists rq response data,
    last (fetchesOf (events (likesCandidates mkRequest queryIds vars w)))
    = Some (rq, Resolved response)
    /\ ok response = true
    /\ json response = JsonValue data
    /\ pageTweets = parseTweetsFromInstructions (instructions data)
    /\ hasErrors data = false.
Proof.
  revert vars w. induction queryIds as [|queryId rest IH]; intros vars w.
  - intros Hval. discriminate Hval.
  - rewrite likesCandidates_cons. cbv zeta.
    set (first := doFetch (mkRequest queryId) w).
    assert (Hev : events first = [EvFetch (mkRequest queryId) (val first)]) by reflexivity.
    unfold after. cbn [val events]. rewrite fetchesOf_app, last_app, Hev.
    unfold judgeLikes.
    destruct (val first) as [message|response] eqn:Hfirst.
    { intros Hval. destruct (IH _ _ Hval) as (rq & r & d & H1 & H2). rewrite H1. eauto 10. }
    destruct (status response =? 404).
    { intros Hval. destruct (IH _ _ Hval) as (rq & r & d & H1 & H2). rewrite H1. eauto 10. }
    destruct (ok response) eqn:Hok; cbn [negb]; [|intros Hval; discriminate Hval].
    destruct (json response) as [message|data] eqn:Hjson.
    { intros Hval. destruct (IH _ _ Hval) as (rq & r & d & H1 & H2). rewrite H1. eauto 10. }
    destruct (hasErrors data) eqn:He; [intros Hval; discriminate Hval|].
    cbn [ret val events]. intros [= <- <- <-].
    exists (mkRequest queryId), response, data. repeat split; assumption.
Qed.

(** X11.  A success is never made up.  When the bookmarks wrapper returns a
    page, the last HTTP call of its trace was answered with a 2xx status
    and a decodable body, the items and the cursor are what the extractor
    reads from that body, and a provider error list in it came with an
    instructions tree.  When [getLikes] succeeds, the last HTTP call was
    answered with a 2xx status and a decodable body without errors, and the
    items are what the extractor reads from it. *)
Theorem success_comes_from_last_response :
  (forall pageCount pageCursor (w : W) pageTweets nextCursor flag,
     let run := fetchWithRefresh bookmarksFetchPage pageCount pageCursor w in
     val run = Success pageTweets nextCursor flag ->
     exists rq response data,
       last (fetchesOf (events run)) = Some (rq, Resolved response)
       /\ 200 <= status response <= 299
       /\ json response = JsonValue data
       /\ pageTweets = parseTweetsFromInstructions (instructions data)
       /\ nextCursor = extractCursorFromInstructions (instructions data)
       /\ (hasErrors data = true -> is_Some (instructions data)))
  /\ (forall count (w : W) items,
        let run := getLikes count w in
        val run = succeed items ->
        exists rq response data,
          last (fetchesOf (events run)) = Some (rq, Resolved response)
          /\ 200 <= status response <= 299
          /\ json response = JsonValue data
          /\ items = parseTweetsFromInstructions (instructions data)
          /\ hasErrors data = false).
Proof.
  assert (Hrange : forall response : Response Instructions,
             ok response = true -> 200 <= status response <= 299).
  { intros response Hok. unfold ok in Hok. lia. }
  split.
  - intros pageCount pageCursor w pageTweets nextCursor flag run Hval. subst run.
    assert (Hpage : forall w' ts c b,
               val (bookmarksFetchPage pageCount pageCursor w') = Success ts c b ->
               exists rq response data,
                 last (fetchesOf (events (bookmarksFetchPage pageCount pageCursor w')))
                 = Some (rq, Resolved response)
                 /\ ok response = true /\ json response = JsonValue data
                 /\ ts = parseTweetsFromInstructions (instructions data)
                 /\ c = extractCursorFromInstructions (instructions data)
                 /\ (hasErrors data = true -> is_Some (instructions data))).
    { intros w' ts c b Hs.
      pose proof (bookmarksFetchPage_unfold pageCount pageCursor w') as Heq.
      cbv zeta in Heq. rewrite Heq in Hs |- *. cbn [val events] in Hs |- *.
      rewrite app_nil_r. apply (tryCandidates_success _ _ _ _ _ _ _ _ Hs). }
    pose proof (fetchWithRefresh_unfold bookmarksFetchPage pageCount pageCursor w) as Hw.
    cbv zeta in Hw. rewrite Hw in Hval |- *.
    destruct (notFoundFailure _); cbn [val events] in Hval |- *.
    + destruct (val (bookmarksFetchPage pageCount pageCursor (refreshQueryIds _)))
        as [ts c b|? ?] eqn:Hsecond; [|discriminate Hval].
      cbn in Hval. injection Hval as -> -> ->.
      destruct (Hpage _ _ _ _ Hsecond) as (rq & r & d & H1 & H2 & H3 & H4 & H5 & H6).
      exists rq, r, d. rewrite !fetchesOf_app, !last_app, H1. auto 10.
    + destruct (val (bookmarksFetchPage pageCount pageCursor w))
        as [ts c b|? ?] eqn:Hfirst; [|discriminate Hval].
      cbn in Hval. injection Hval as -> -> ->.
      destruct (Hpage _ _ _ _ Hfirst) as (rq & r & d & H1 & H2 & H3 & H4 & H5 & H6).
      exists rq, r, d. auto 10.
  - intros count w items run Hval. subst run.
    assert (Honce : forall userId w' ts c b,
               val (likesTryOnce userId count w') = Success ts c b ->
               exists rq response data,
                 last (fetchesOf (events (likesTryOnce userId count w')))
                 = Some (rq, Resolved response)
                 /\ ok response = true /\ json response = JsonValue data
                 /\ ts = parseTweetsFromInstructions (instructions data)
                 /\ hasErrors data = false).
    { intros userId w' ts c b Hs.
      apply (likesCandidates_success _ _ _ _ _ _ _ Hs). }
    pose proof (getLikes_unfold count w) as Heq. cbv zeta in Heq.
    rewrite Heq in Hval |- *.
    destruct (user (getCurrentUser w).1) as [currentUser|]; [|discriminate Hval].
    destruct (user_success (getCurrentUser w).1); [|discriminate Hval].
    destruct (notFoundFailure _); cbn [val events] in Hval |- *.
    + destruct (val (likesTryOnce (user_id currentUser) count (refreshQueryIds _)))
        as [ts c b|? ?] eqn:Hsecond; [|discriminate Hval].
      cbn in Hval. injection Hval as ->.
      destruct (Honce _ _ _ _ _ Hsecond) as (rq & r & d & H1 & H2 & H3 & H4 & H5).
      exists rq, r, d. rewrite !fetchesOf_app, !last_app, H1. auto 10.
    + destruct (val (likesTryOnce (user_id currentUser) count (getCurrentUser w).2))
        as [ts c b|? ?] eqn:Hfirst; [|discriminate Hval].
      cbn in Hval. injection Hval as ->.
      destruct (Honce _ _ _ _ _ Hfirst) as (rq & r & d & H1 & H2 & H3 & H4 & H5).
      exists rq, r, d. auto 10.
Qed.

(** X12.  Results are well formed: a result of the paged fetchers or of
    [getLikes] either reports success with a list of items and no error, or
    reports failure with an error string and no items. *)
Theorem results_carry_items_or_error :
  (forall (fetch : Z -> option string -> Run' PageResult) limit options fuel st (w : W) r,
     val (pagedLoop fetch limit options fuel st w) = Some r ->
     (success r = true /\ is_Some (tweets r) /\ error r = None)
     \/ (success r = false /\ tweets r = None /\ is_Some (error r)))
  /\ (forall count (w : W),
        let r := val (getLikes count w) in
        (success r = true /\ is_Some (tweets r) /\ error r = None)
        \/ (success r = false /\ tweets r = None /\ is_Some (error r))).
Proof.
  split.
  - intros fetch limit options fuel st w r Hval.
    destruct (pagedLoop_success_shape _ _ _ _ _ _ _ Hval) as [[items ->]|[message ->]];
      [left|right]; cbn; eauto.
  - intros count w. cbv zeta.
    pose proof (getLikes_unfold count w) as Heq. cbv zeta in Heq. rewrite Heq.
    destruct (user (getCurrentUser w).1) as [currentUser|]; [|right; cbn; eauto].
    destruct (user_success (getCurrentUser w).1); [|right; cbn; eauto].
    destruct (notFoundFailure _); cbn [val];
      match goal with
      | |- context [likesResult ?a] => destruct a; [left|right]; cbn; eauto
      end.
Qed.

End Further.

(** * Removing a bookmark *)

Section UnbookmarkFacts.

Context {Instructions : Type}.
Context {W : Type} `{Base : TwitterClientBase Instructions W}.
Context (postWithTimeout : MutationRequest -> W -> FetchResult Instructions * W).

(** The trace, the world and the answer of [unbookmark], by the two
    tests of [response.status === 404]. *)
Lemma unbookmark_trace tweetId (w : W) :
  let run := unbookmark postWithTimeout tweetId w in
  let resolved := getQueryId "DeleteBookmark" w in
  let first := {| mut_url := OperationUrl resolved.1; mut_tweetId := tweetId;
                  mut_queryId := resolved.1 |} in
  let sent1 := postWithTimeout first resolved.2 in
  let again := getQueryId "DeleteBookmark" (refreshQueryIds sent1.2) in
  let second := {| mut_url := OperationUrl again.1; mut_tweetId := tweetId;
                   mut_queryId := again.1 |} in
  let sent2 := postWithTimeout second again.2 in
  let third := {| mut_url := GraphqlPostUrl; mut_tweetId := tweetId;
                  mut_queryId := again.1 |} in
  let sent3 := postWithTimeout third sent2.2 in
  if answered404 sent1.1
  then if answered404 sent2.1
       then mutation_events run
            = [EvPost first sent1.1; EvRefreshIds; EvPost second sent2.1;
               EvPost third sent3.1]
            /\ mutation_val run = decided sent3.1
            /\ mutation_world run = sent3.2
       else mutation_events run
            = [EvPost first sent1.1; EvRefreshIds; EvPost second sent2.1]
            /\ mutation_val run = decided sent2.1
            /\ mutation_world run = sent2.2
  else mutation_events run = [EvPost first sent1.1]
       /\ mutation_val run = decided sent1.1
       /\ mutation_world run = sent1.2.
Proof.
  cbv zeta. unfold unbookmark.
  set (first := {| mut_url := OperationUrl (getQueryId "DeleteBookmark" w).1;
                   mut_tweetId := tweetId;
                   mut_queryId := (getQueryId "DeleteBookmark" w).1 |}).
  set (sent1 := postWithTimeout first (getQueryId "DeleteBookmark" w).2).
  destruct (sent1.1) as [m1|r1] eqn:H1; cbn [answered404]; [repeat split|].
  destruct (status r1 =? 404) eqn:Hs1; [|repeat split].
  set (again := getQueryId "DeleteBookmark" (refreshQueryIds sent1.2)).
  set (second := {| mut_url := OperationUrl again.1; mut_tweetId := tweetId;
                    mut_queryId := again.1 |}).
  set (sent2 := postWithTimeout second again.2).
  destruct (sent2.1) as [m2|r2] eqn:H2; cbn [answered404]; [repeat split|].
  destruct (status r2 =? 404) eqn:Hs2; [|repeat split].
  set (third := {| mut_url := GraphqlPostUrl; mut_tweetId := tweetId;
                   mut_queryId := again.1 |}).
  destruct ((postWithTimeout third sent2.2).1) as [m3|r3] eqn:H3; repeat split.
Qed.


(** X13.  [unbookmark] posts one, two or three times and refreshes the
    query ids at most once.  The first POST goes to the operation URL of
    the id that [getQueryId] resolves.  A second POST is made exactly when
    the first was answered 404: the query ids are refreshed after the
    first POST, the id is resolved again in the refreshed world, and the
    second POST goes to the operation URL of that id, with that id in its
    body.  A third POST is made exactly when the second was answered 404
    too; it goes to the generic GraphQL URL with the body of the second.
    Every POST names the tweet id it was called with, and the world left
    is the one after the last POST. *)
Theorem unbookmark_posts_at_most_three_times tweetId (w : W) :
  let run := unbookmark postWithTimeout tweetId w in
  let posts := postsOf (mutation_events run) in
  let resolved := getQueryId "DeleteBookmark" w in
  let first := {| mut_url := OperationUrl resolved.1; mut_tweetId := tweetId;
                  mut_queryId := resolved.1 |} in
  let sent1 := postWithTimeout first resolved.2 in
  let again := getQueryId "DeleteBookmark" (refreshQueryIds sent1.2) in
  let second := {| mut_url := OperationUrl again.1; mut_tweetId := tweetId;
                   mut_queryId := again.1 |} in
  let sent2 := postWithTimeout second again.2 in
  let third := {| mut_url := GraphqlPostUrl; mut_tweetId := tweetId;
                  mut_queryId := again.1 |} in
  let sent3 := postWithTimeout third sent2.2 in
  (1 <= length posts <= 3)%nat
  /\ Forall (fun p => mut_tweetId p.1 = tweetId) posts
  /\ posts !! 0%nat = Some (first, sent1.1)
  /\ (answered404 sent1.1 = true <-> (2 <= length posts)%nat)
  /\ ((2 <= length posts)%nat ->
      posts !! 1%nat = Some (second, sent2.1)
      /\ (exists later,
            mutation_events run
            = EvPost first sent1.1 :: EvRefreshIds :: EvPost second sent2.1 :: later)
      /\ (answered404 sent2.1 = true <-> length posts = 3%nat))
  /\ (length posts = 3%nat -> posts !! 2%nat = Some (third, sent3.1))
  /\ idRefreshes (mutation_events run)
     = (if decide (2 <= length posts)%nat then 1 else 0)%nat
  /\ mutation_world run
     = (if answered404 sent1.1
        then if answered404 sent2.1 then sent3.2 else sent2.2
        else sent1.2).
Proof.
  cbv zeta. pose proof (unbookmark_trace tweetId w) as H. cbv zeta in H.
  revert H.
  match goal with |- (if ?a then _ else _) -> _ => destruct a eqn:H1 end;
    [match goal with |- (if ?a then _ else _) -> _ => destruct a eqn:H2 end|];
    intros (-> & _ & ->); unfold postsOf, idRefreshes;
    cbn [omap list_omap length lookup list_lookup fst snd].
  - split; [lia|]. split; [repeat constructor|]. split; [reflexivity|].
    split; [split; [lia|reflexivity]|]. split.
    + intros _. split; [reflexivity|]. split; [eexists; reflexivity|].
      split; reflexivity.
    + split; [reflexivity|]. split; reflexivity.
  - split; [lia|]. split; [repeat constructor|]. split; [reflexivity|].
    split; [split; [lia|reflexivity]|]. split.
    + intros _. split; [reflexivity|]. split; [eexists; reflexivity|].
      split; [discriminate|lia].
    + split; [lia|]. split; reflexivity.
  - split; [lia|]. split; [repeat constructor|]. split; [reflexivity|].
    split; [split; [discriminate|lia]|]. split; [lia|].
    split; [lia|]. split; reflexivity.
Qed.


End UnbookmarkFacts.

(** * The bookmarks command *)

Section CommandFacts.

Context {Instructions : Type} `{Extractor : ResponseExtractor Instructions}.
Context {W : Type} `{Base : TwitterClientBase Instructions W}.
Context (p : string -> string).
Context (extractBookmarkFolderId : string -> option string).

Abbreviation plan := (planBookmarks p extractBookmarkFolderId).
Abbreviation action := (bookmarksAction p extractBookmarkFolderId).

(** X15.  A command line that fails validation sends nothing: the action
    writes the warnings and the error line, exits with code 1, and leaves
    the world and the trace untouched.  In particular, with credentials
    present, [--max-pages] without [--all] is always refused with the line
    ['--max-pages requires --all.'], whatever the other options. *)
Theorem invalid_command_line_sends_nothing :
  (forall fuel cookies warnings opts message (w : W),
     plan cookies opts = Reject message ->
     let run := action fuel cookies warnings opts w in
     val run = Some {| stderr := ((fun warning => p "warn" +:+ warning) <$> warnings)
                                 ++ [message];
                       outcome := Exit 1 |}
     /\ events run = []
     /\ world run = w)
  /\ (forall cookies opts,
        Js.truthy (authToken cookies) = true -> Js.truthy (ct0 cookies) = true ->
        Js.truthy (opt_maxPages opts) = true -> opt_all opts = false ->
        plan cookies opts = Reject (p "err" +:+ "--max-pages requires --all.")).
Proof.
  split.
  - intros fuel cookies warnings opts message w Hplan run. subst run.
    unfold bookmarksAction. rewrite Hplan. repeat split.
  - intros cookies opts Ha Hc Hm Hall. unfold planBookmarks, parsedMaxPages.
    rewrite Ha, Hc, Hm, Hall. reflexivity.
Qed.

Lemma planBookmarks_call cookies opts folder limit options :
  plan cookies opts = Call folder limit options ->
  Js.truthy (authToken cookies) = true /\ Js.truthy (ct0 cookies) = true
  /\ (if opt_all opts
      then limit = NotFinite
           /\ (maxPages options = None /\ Js.truthy (opt_maxPages opts) = false
               \/ exists m, maxPages options = Some m /\ 0 < m
                            /\ opt_maxPages opts ≫= Js.parseInt10 = Some m)
      else exists n, limit = Finite n /\ 0 < n
                     /\ Js.parseInt10 (orElse (opt_count opts) "20") = Some n
                     /\ maxPages options = None
                     /\ Js.truthy (opt_maxPages opts) = false)
  /\ match folder with
     | Some folderId =>
         Js.truthy (Some folderId) = true
         /\ opt_folderId opts ≫= extractBookmarkFolderId = Some folderId
     | None => Js.truthy (opt_folderId opts) = false
     end.
Proof.
  unfold planBookmarks, parsedMaxPages, parsedCount.
  destruct (Js.truthy (authToken cookies)); [|intros H; discriminate H].
  destruct (Js.truthy (ct0 cookies)); [|intros H; discriminate H].
  cbn [negb orb].
  destruct (Js.truthy (opt_maxPages opts)) eqn:Hmp;
    destruct (opt_all opts) eqn:Hall; cbn [negb andb];
    rewrite ?bool_decide_eq_true_2 by discriminate;
    rewrite ?bool_decide_eq_false_2 by (intros Hx; apply Hx; reflexivity);
    cbn [negb andb mjoin option_join].
  - destruct (opt_maxPages opts ≫= Js.parseInt10) as [m|] eqn:Hm;
      cbn [notPositive]; [|intros H; discriminate H].
    destruct (m <=? 0) eqn:Hle; [intros H; discriminate H|]. apply Z.leb_gt in Hle.
    destruct (Js.truthy (opt_folderId opts)) eqn:Hf; cbn [andb].
    + destruct (Js.truthy (opt_folderId opts ≫= extractBookmarkFolderId)) eqn:Hx;
        cbn [negb]; intros [= <- <- <-].
      * split; [reflexivity|]. split; [reflexivity|]. split.
        -- split; [reflexivity|]. right. exists m. auto.
        -- destruct (opt_folderId opts ≫= extractBookmarkFolderId); [auto|discriminate Hx].
    + intros [= <- <- <-]. split; [reflexivity|]. split; [reflexivity|]. split.
      * split; [reflexivity|]. right. exists m. auto.
      * reflexivity.
  - intros H. discriminate H.
  - destruct (Js.truthy (opt_folderId opts)) eqn:Hf; cbn [andb].
    + destruct (Js.truthy (opt_folderId opts ≫= extractBookmarkFolderId)) eqn:Hx;
        cbn [negb]; intros [= <- <- <-].
      * split; [reflexivity|]. split; [reflexivity|]. split.
        -- split; [reflexivity|]. left. auto.
        -- destruct (opt_folderId opts ≫= extractBookmarkFolderId); [auto|discriminate Hx].
    + intros [= <- <- <-]. split; [reflexivity|]. split; [reflexivity|]. split.
      * split; [reflexivity|]. left. auto.
      * reflexivity.
  - destruct (Js.parseInt10 (orElse (opt_count opts) "20")) as [n|] eqn:Hn;
      cbn [notPositive]; [|intros H; discriminate H].
    destruct (n <=? 0) eqn:Hle; [intros H; discriminate H|]. apply Z.leb_gt in Hle.
    destruct (Js.truthy (opt_folderId opts)) eqn:Hf; cbn [andb].
    + destruct (Js.truthy (opt_folderId opts ≫= extractBookmarkFolderId)) eqn:Hx;
        cbn [negb]; intros [= <- <- <-].
      * split; [reflexivity|]. split; [reflexivity|]. split.
        -- exists n. auto.
        -- destruct (opt_folderId opts ≫= extractBookmarkFolderId); [auto|discriminate Hx].
    + intros [= <- <- <-]. split; [reflexivity|]. split; [reflexivity|]. split.
      * exists n. auto.
      * reflexivity.
Qed.

(** X16.  When validation lets the command through, the call it makes is
    well formed: the credentials are present; without [--all] the limit is
    the positive integer read from [--count] (20 when the option is absent
    or empty) and there is no page ceiling; with [--all] the limit is
    unbounded and the page ceiling, if any, is the positive integer read
    from [--max-pages]; and the folder, if any, is the non-empty id that
    [extractBookmarkFolderId] returned for [--folder-id]. *)
Theorem accepted_command_line_is_well_formed cookies opts folder limit options :
  plan cookies opts = Call folder limit options ->
  Js.truthy (authToken cookies) = true /\ Js.truthy (ct0 cookies) = true
  /\ (if opt_all opts
      then limit = NotFinite
           /\ (maxPages options = None /\ Js.truthy (opt_maxPages opts) = false
               \/ exists m, maxPages options = Some m /\ 0 < m
                            /\ opt_maxPages opts ≫= Js.parseInt10 = Some m)
      else exists n, limit = Finite n /\ 0 < n
                     /\ Js.parseInt10 (orElse (opt_count opts) "20") = Some n
                     /\ maxPages options = None
                     /\ Js.truthy (opt_maxPages opts) = false)
  /\ match folder with
     | Some folderId =>
         Js.truthy (Some folderId) = true
         /\ opt_folderId opts ≫= extractBookmarkFolderId = Some folderId
     | None => Js.truthy (opt_folderId opts) = false
     end.
Proof. apply planBookmarks_call. Qed.

Lemma callClient_loop fuel folder limit options :
  exists fetch : Z -> option string -> M Instructions W PageResult,
    callClient fuel folder limit options
    = pagedLoop fetch limit options fuel initialState.
Proof.
  destruct folder as [folderId|]; eexists; reflexivity.
Qed.

(** X17.  What the action ends with is decided by the validation and by
    the result of the client call.  A command line that fails validation
    ends with its error line and exit code 1.  Otherwise the client is
    called once: when its result is a success, the command prints the
    items of that result, which have pairwise distinct identities and,
    without [--all], are at most as many as [--count] asks for, and writes
    nothing but the warnings to the error stream; when its result is a
    failure, the command prints no item, writes
    ['Failed to fetch bookmarks: '] followed by the error of that result
    after the warnings, and exits with code 1. *)
Theorem command_prints_distinct_items_within_count
    fuel cookies warnings opts (w : W) run :
  val (action fuel cookies warnings opts w) = Some run ->
  let warnLines := (fun warning => p "warn" +:+ warning) <$> warnings in
  match plan cookies opts with
  | Reject line => run = {| stderr := warnLines ++ [line]; outcome := Exit 1 |}
  | Call folder limit options =>
      exists result,
        val (callClient fuel folder limit options w) = Some result
        /\ ((success result = true
             /\ exists items,
                  tweets result = Some items
                  /\ run = {| stderr := warnLines;
                              outcome := PrintTweets items (emptyMessageFor folder) |}
                  /\ NoDup (id <$> items)
                  /\ (opt_all opts = false ->
                      exists n, Js.parseInt10 (orElse (opt_count opts) "20") = Some n
                                /\ Z.of_nat (length items) <= n))
            \/ (success result = false
                /\ exists message,
                     error result = Some message
                     /\ run = {| stderr := warnLines
                                           ++ [p "err" +:+ "Failed to fetch bookmarks: "
                                               +:+ message];
                                 outcome := Exit 1 |}))
  end.
Proof.
  cbv zeta. unfold bookmarksAction.
  destruct (planBookmarks p extractBookmarkFolderId cookies opts)
    as [message|folder limit options] eqn:Hplan.
  - intros [= <-]. reflexivity.
  - rewrite val_bind. cbn [ret val].
    destruct (callClient_loop fuel folder limit options) as [fetch Hloop].
    rewrite Hloop.
    destruct (val (pagedLoop fetch limit options fuel initialState w))
      as [r|] eqn:Hval; [|intros H; discriminate H].
    cbn [fmap option_fmap option_map]. intros [= <-]. exists r.
    split; [reflexivity|]. unfold report.
    destruct (pagedLoop_success_shape _ _ _ _ _ _ _ Hval) as [[items ->]|[message ->]].
    + left. cbn. split; [reflexivity|]. exists items. split; [reflexivity|].
      split; [reflexivity|].
      destruct (pagedLoop_items fetch limit options fuel w _ items Hval eq_refl)
        as [Hnd _].
      split; [exact Hnd|]. intros Hall.
      destruct (planBookmarks_call _ _ _ _ _ Hplan) as (_ & _ & Hshape & _).
      rewrite Hall in Hshape. destruct Hshape as (n & -> & Hpos & Hparse & _).
      exists n. split; [exact Hparse|].
      destruct (pagedLoop_bounded fetch n options fuel initialState w []) as (H1 & _).
      { cbn. symmetry. apply take_nil. }
      { intros _. reflexivity. }
      cbv zeta in H1. specialize (H1 _ Hval eq_refl). cbn [tweets succeed] in H1.
      injection H1 as ->. rewrite length_take. lia.
    + right. cbn. split; [reflexivity|]. exists message. split; reflexivity.
Qed.

End CommandFacts.

(** * Tweet ids from URLs *)

Module TweetIdFacts.
Import TweetId.

Lemma append_cons a (s t : string) : String a s +:+ t = String a (s +:+ t).
Proof. reflexivity. Qed.

Lemma append_nil (t : string) : EmptyString +:+ t = t.
Proof. reflexivity. Qed.

Lemma stripPrefix_app literal s rest :
  stripPrefix literal s = Some rest -> s = literal +:+ rest.
Proof.
  revert s. induction literal as [|a literal IH]; intros s; cbn [stripPrefix].
  - intros [= ->]. reflexivity.
  - destruct s as [|b s]; [discriminate|].
    destruct (Ascii.eqb a b) eqn:Hab; [|discriminate].
    apply Ascii.eqb_eq in Hab. subst b. intros H.
    rewrite (IH _ H), append_cons. reflexivity.
Qed.

Lemma stripPrefix_self literal rest : stripPrefix literal (literal +:+ rest) = Some rest.
Proof.
  induction literal as [|a literal IH]; [reflexivity|].
  rewrite append_cons. cbn [stripPrefix]. rewrite Ascii.eqb_refl. exact IH.
Qed.

Lemma spanWhile_app class s :
  s = (spanWhile class s).1 +:+ (spanWhile class s).2
  /\ allChars class (spanWhile class s).1 = true
  /\ startsWith class (spanWhile class s).2 = false.
Proof.
  induction s as [|c s (IH1 & IH2 & IH3)]; cbn [spanWhile]; [auto|].
  destruct (class c) eqn:Hc; cbn [fst snd allChars startsWith].
  - rewrite append_cons, Hc, IH2, <- IH1. auto.
  - rewrite Hc. auto.
Qed.

Lemma spanWhile_exact class a b :
  allChars class a = true -> startsWith class b = false ->
  spanWhile class (a +:+ b) = (a, b).
Proof.
  intros Ha Hb. induction a as [|c a IH].
  - rewrite append_nil. destruct b as [|c b]; [reflexivity|].
    cbn in Hb |- *. rewrite Hb. reflexivity.
  - cbn [allChars] in Ha. apply andb_true_iff in Ha as [Hc Ha].
    rewrite append_cons. cbn [spanWhile]. rewrite Hc, (IH Ha). reflexivity.
Qed.

Lemma append_assoc (a b c : string) : (a +:+ b) +:+ c = a +:+ (b +:+ c).
Proof.
  induction a as [|x a IH]; [reflexivity|].
  rewrite !append_cons, IH. reflexivity.
Qed.

Lemma matchPath_digits s digits :
  matchPath s = Some digits ->
  digits <> EmptyString /\ allChars isDigit digits = true
  /\ exists before after, s = before +:+ digits +:+ after.
Proof.
  unfold matchPath.
  destruct (stripPrefix "/" s) as [afterSlash|] eqn:H1; [|discriminate].
  destruct (spanWhile_app isWord afterSlash) as (Hu & _ & _).
  destruct (spanWhile isWord afterSlash) as [user afterUser]. cbn [fst snd] in Hu.
  destruct user as [|u user]; [discriminate|].
  destruct (stripPrefix "/status/" afterUser) as [afterStatus|] eqn:H2; [|discriminate].
  destruct (spanWhile_app isDigit afterStatus) as (Hd & Hall & _).
  destruct (spanWhile isDigit afterStatus) as [ds after]. cbn [fst snd] in Hd, Hall.
  destruct ds as [|d ds]; [discriminate|]. intros [= <-].
  split; [discriminate|]. split; [exact Hall|].
  apply stripPrefix_app in H1, H2. subst.
  exists ("/" +:+ String u user +:+ "/status/"), after.
  rewrite !append_assoc. reflexivity.
Qed.

Lemma search_digits s digits :
  search s = Some digits ->
  digits <> EmptyString /\ allChars isDigit digits = true
  /\ exists before after, s = before +:+ digits +:+ after.
Proof.
  induction s as [|c s IH]; cbn [search]; unfold matchAt, stripDomain.
  - cbn. discriminate.
  - destruct (stripPrefix "twitter.com" (String c s)) as [rest|] eqn:Ht.
    + cbn [mbind option_bind]. destruct (matchPath rest) as [ds|] eqn:Hm.
      * intros [= <-]. destruct (matchPath_digits _ _ Hm) as (H1 & H2 & before & after & ->).
        split; [exact H1|]. split; [exact H2|].
        apply stripPrefix_app in Ht. rewrite Ht.
        exists ("twitter.com" +:+ before), after. rewrite append_assoc. reflexivity.
      * intros H. destruct (IH H) as (H1 & H2 & before & after & ->).
        split; [exact H1|]. split; [exact H2|]. exists (String c before), after.
        reflexivity.
    + destruct (stripPrefix "x.com" (String c s)) as [rest|] eqn:Hx;
        cbn [mbind option_bind].
      * destruct (matchPath rest) as [ds|] eqn:Hm.
        -- intros [= <-].
           destruct (matchPath_digits _ _ Hm) as (H1 & H2 & before & after & ->).
           split; [exact H1|]. split; [exact H2|].
           apply stripPrefix_app in Hx. rewrite Hx.
           exists ("x.com" +:+ before), after. rewrite append_assoc. reflexivity.
        -- intros H. destruct (IH H) as (H1 & H2 & before & after & ->).
           split; [exact H1|]. split; [exact H2|]. exists (String c before), after.
           reflexivity.
      * intros H. destruct (IH H) as (H1 & H2 & before & after & ->).
        split; [exact H1|]. split; [exact H2|]. exists (String c before), after.
        reflexivity.
Qed.

(** No match starts in a string without a dot. *)
Lemma search_no_dot s :
  allChars (fun c => negb (Ascii.eqb c ".")) s = true -> search s = None.
Proof.
  induction s as [|c s IH]; [reflexivity|].
  intros Hs. cbn [search]. cbn [allChars] in Hs.
  apply andb_true_iff in Hs as [Hc Hs].
  assert (Hd : forall literal rest t,
             stripPrefix literal t = Some rest ->
             allChars (fun c => negb (Ascii.eqb c ".")) t = true ->
             allChars (fun c => negb (Ascii.eqb c ".")) literal = true).
  { induction literal as [|a literal IHl]; intros rest t Hp Ht; [reflexivity|].
    destruct t as [|b t]; [discriminate Hp|]. cbn in Hp, Ht |- *.
    destruct (Ascii.eqb a b) eqn:Hab; [|discriminate Hp].
    apply Ascii.eqb_eq in Hab. subst b. apply andb_true_iff in Ht as [Ha Ht].
    rewrite Ha. cbn. apply (IHl _ _ Hp Ht). }
  assert (Hall : allChars (fun c => negb (Ascii.eqb c ".")) (String c s) = true).
  { cbn. rewrite Hc, Hs. reflexivity. }
  unfold matchAt, stripDomain.
  destruct (stripPrefix "twitter.com" (String c s)) as [rest|] eqn:Ht.
  { pose proof (Hd _ _ _ Ht Hall) as Hbad. discriminate Hbad. }
  destruct (stripPrefix "x.com" (String c s)) as [rest|] eqn:Hx.
  { pose proof (Hd _ _ _ Hx Hall) as Hbad. discriminate Hbad. }
  cbn [mbind option_bind]. apply (IH Hs).
Qed.

Lemma allChars_impl (p q : ascii -> bool) s :
  (forall c, p c = true -> q c = true) -> allChars p s = true -> allChars q s = true.
Proof.
  intros Hpq. induction s as [|c s IH]; [reflexivity|]. cbn.
  intros H. apply andb_true_iff in H as [Hc Hs]. rewrite (Hpq c Hc), (IH Hs). reflexivity.
Qed.

Lemma digit_not_dot c : isDigit c = true -> negb (Ascii.eqb c ".") = true.
Proof. destruct c as [[] [] [] [] [] [] [] []]; intros H; try discriminate H; reflexivity. Qed.

(** X18.  [extractTweetId] returns its input unchanged or a non-empty run
    of decimal digits that occurs in the input; it is idempotent; and an
    input without a dot, a bare id in particular, is returned unchanged. *)
Theorem extractTweetId_digits_or_unchanged input :
  (extractTweetId input = input
   \/ (extractTweetId input <> EmptyString
       /\ allChars isDigit (extractTweetId input) = true
       /\ exists before after, input = before +:+ extractTweetId input +:+ after))
  /\ extractTweetId (extractTweetId input) = extractTweetId input
  /\ (allChars (fun c => negb (Ascii.eqb c ".")) input = true ->
      extractTweetId input = input).
Proof.
  split; [|split].
  - unfold extractTweetId. destruct (search input) as [digits|] eqn:Hs; [right|left; reflexivity].
    apply (search_digits _ _ Hs).
  - unfold extractTweetId at 2 3. destruct (search input) as [digits|] eqn:Hs.
    + destruct (search_digits _ _ Hs) as (_ & Hd & _).
      unfold extractTweetId. rewrite search_no_dot; [reflexivity|].
      apply (allChars_impl isDigit); [apply digit_not_dot|exact Hd].
    + unfold extractTweetId. rewrite Hs. reflexivity.
  - intros Hno. unfold extractTweetId. rewrite (search_no_dot _ Hno). reflexivity.
Qed.

Lemma search_skip c s : matchAt (String c s) = None -> search (String c s) = search s.
Proof. intros H. cbn [search]. rewrite H. reflexivity. Qed.

Lemma search_hit s digits : matchAt s = Some digits -> search s = Some digits.
Proof. intros H. destruct s; cbn [search]; rewrite H; reflexivity. Qed.

Lemma matchPath_status user tweet rest :
  user <> EmptyString -> allChars isWord user = true ->
  tweet <> EmptyString -> allChars isDigit tweet = true ->
  startsWith isDigit rest = false ->
  matchPath ("/" +:+ user +:+ "/status/" +:+ tweet +:+ rest) = Some tweet.
Proof.
  intros Hu Hw Ht Hd Hr. unfold matchPath.
  rewrite (stripPrefix_self "/" _).
  rewrite (spanWhile_exact isWord user ("/status/" +:+ tweet +:+ rest) Hw eq_refl).
  destruct user as [|u user]; [congruence|].
  rewrite (stripPrefix_self "/status/" _).
  rewrite (spanWhile_exact isDigit tweet rest Hd Hr).
  destruct tweet as [|d tweet]; [congruence|]. reflexivity.
Qed.

(** X19.  From a status link, [extractTweetId] returns the id: for every
    user name made of word characters and every id made of digits, with or
    without the scheme and a [www.] or [mobile.] host prefix, on either
    domain, and whatever follows the id (a query string, a path) as long
    as it does not start with a digit. *)
Theorem extractTweetId_reads_status_links scheme domain user tweet rest :
  scheme ∈ schemes -> domain ∈ domains ->
  user <> EmptyString -> allChars isWord user = true ->
  tweet <> EmptyString -> allChars isDigit tweet = true ->
  startsWith isDigit rest = false ->
  extractTweetId (scheme +:+ domain +:+ "/" +:+ user +:+ "/status/" +:+ tweet +:+ rest)
  = tweet.
Proof.
  intros Hscheme Hdomain Hu Hw Ht Hd Hr.
  pose proof (matchPath_status user tweet rest Hu Hw Ht Hd Hr) as Hm.
  revert Hm. generalize ("/" +:+ user +:+ "/status/" +:+ tweet +:+ rest) as path.
  intros path Hm. unfold extractTweetId.
  assert (Hfound : search (scheme +:+ domain +:+ path) = Some tweet).
  { unfold schemes, domains in *.
    repeat (apply elem_of_cons in Hscheme as [->|Hscheme]);
      [| | | | |inversion Hscheme];
      (repeat (apply elem_of_cons in Hdomain as [->|Hdomain]);
       [| |inversion Hdomain]);
      repeat (rewrite append_cons || rewrite append_nil);
      repeat (rewrite search_skip by reflexivity);
      apply search_hit; exact Hm. }
  rewrite Hfound. reflexivity.
Qed.

(** X18 on a bare id. *)
Lemma extractTweetId_digits_or_unchanged_witness :
  allChars (fun c => negb (Ascii.eqb c ".")) "1234567890123456789" = true
  /\ extractTweetId "1234567890123456789" = "1234567890123456789".
Proof.
  assert (Hplain : allChars (fun c => negb (Ascii.eqb c ".")) "1234567890123456789" = true)
    by reflexivity.
  split; [exact Hplain|].
  exact (proj2 (proj2 (extractTweetId_digits_or_unchanged "1234567890123456789")) Hplain).
Defined.

(** X19 on a link with a query string. *)
Lemma extractTweetId_reads_status_links_witness :
  "https://" ∈ schemes /\ "x.com" ∈ domains
  /\ extractTweetId "https://x.com/steipete/status/1234567890123456789?s=20"
     = "1234567890123456789".
Proof.
  assert (Hscheme : "https://" ∈ schemes) by (unfold schemes; repeat constructor).
  assert (Hdomain : "x.com" ∈ domains) by (unfold domains; repeat constructor).
  assert (Huser : "steipete" <> EmptyString) by discriminate.
  assert (Htweet : "1234567890123456789" <> EmptyString) by discriminate.
  split; [exact Hscheme|]. split; [exact Hdomain|].
  exact (extractTweetId_reads_status_links "https://" "x.com" "steipete"
           "1234567890123456789" "?s=20" Hscheme Hdomain Huser eq_refl Htweet
           eq_refl eq_refl).
Defined.

End TweetIdFacts.

(** * Tweet ids from URLs, with [TWEET_URL_REGEX] *)

Module TweetUrlFacts.
Import TweetId TweetIdFacts.
Import TweetUrl.

Lemma canonicalize_dot c : canonicalize c = "."%char -> c = "."%char.
Proof. destruct c as [[] [] [] [] [] [] [] []]; intros H; try discriminate H; reflexivity. Qed.

Lemma stripPrefixI_split literal s rest :
  stripPrefixI literal s = Some rest -> exists consumed, s = consumed +:+ rest.
Proof.
  revert s. induction literal as [|a literal IH]; intros s; cbn [stripPrefixI].
  - intros [= ->]. exists EmptyString. reflexivity.
  - destruct s as [|b s]; [discriminate|].
    destruct (Ascii.eqb (canonicalize a) (canonicalize b)); [|discriminate].
    intros H. destruct (IH _ H) as [consumed ->]. exists (String b consumed). reflexivity.
Qed.

Lemma stripPrefixI_self literal rest : stripPrefixI literal (literal +:+ rest) = Some rest.
Proof.
  induction literal as [|a literal IH]; [reflexivity|].
  rewrite append_cons. cbn [stripPrefixI]. rewrite Ascii.eqb_refl. exact IH.
Qed.

Lemma stripPrefix_stripPrefixI literal s rest :
  stripPrefix literal s = Some rest -> stripPrefixI literal s = Some rest.
Proof. intros H. apply stripPrefix_app in H. subst s. apply stripPrefixI_self. Qed.

(** A literal matched in a dotless string is dotless. *)
Lemma stripPrefixI_dotless literal s rest :
  stripPrefixI literal s = Some rest -> dotless s = true -> dotless literal = true.
Proof.
  unfold dotless. revert s.
  induction literal as [|a literal IH]; intros s Hp Hs; [reflexivity|].
  destruct s as [|b s]; [discriminate Hp|]. cbn [stripPrefixI] in Hp.
  destruct (Ascii.eqb (canonicalize a) (canonicalize b)) eqn:Hab; [|discriminate Hp].
  apply Ascii.eqb_eq in Hab. cbn [allChars] in Hs |- *.
  apply andb_true_iff in Hs as [Hb Hs]. rewrite (IH _ Hp Hs), andb_true_r.
  destruct (Ascii.eqb a ".") eqn:Ha; [|reflexivity].
  apply Ascii.eqb_eq in Ha. subst a. symmetry in Hab. apply canonicalize_dot in Hab.
  subst b. discriminate Hb.
Qed.

Lemma digitsWithin_after digits consumed s :
  digitsWithin digits s -> digitsWithin digits (consumed +:+ s).
Proof.
  intros (Hne & Hall & before & after & ->). split; [exact Hne|]. split; [exact Hall|].
  exists (consumed +:+ before), after. rewrite append_assoc. reflexivity.
Qed.

Lemma idAfterSlash_digits s digits : idAfterSlash s = Some digits -> digitsWithin digits s.
Proof.
  unfold idAfterSlash.
  destruct (stripPrefix "/" s) as [afterSlash|] eqn:H1; [|discriminate].
  destruct (spanWhile_app isDigit afterSlash) as (Hd & Hall & _).
  destruct (spanWhile isDigit afterSlash) as [ds after]. cbn [fst snd] in Hd, Hall.
  destruct ds as [|d ds]; [discriminate|]. intros [= <-].
  apply stripPrefix_app in H1. subst s. apply digitsWithin_after.
  split; [discriminate|]. split; [exact Hall|].
  exists EmptyString, after. rewrite append_nil. exact Hd.
Qed.

Lemma bind_idAfterSlash_digits literal s digits :
  stripPrefixI literal s ≫= idAfterSlash = Some digits -> digitsWithin digits s.
Proof.
  destruct (stripPrefixI literal s) as [rest|] eqn:Hp; [|discriminate].
  cbn [mbind option_bind]. intros H.
  destruct (stripPrefixI_split _ _ _ Hp) as [consumed ->].
  apply digitsWithin_after, idAfterSlash_digits, H.
Qed.

Lemma matchPathI_digits s digits : matchPathI s = Some digits -> digitsWithin digits s.
Proof.
  unfold matchPathI.
  destruct (stripPrefix "/" s) as [afterSlash|] eqn:H1; [|discriminate].
  apply stripPrefix_app in H1. subst s. intros H. apply digitsWithin_after.
  destruct (viaUser afterSlash) as [ds|] eqn:Huser.
  - injection H as ->. revert Huser. unfold viaUser.
    destruct (spanWhile_app isWord afterSlash) as (Hu & _ & _).
    destruct (spanWhile isWord afterSlash) as [user afterUser]. cbn [fst snd] in Hu.
    destruct user as [|u user]; [discriminate|]. intros H.
    rewrite Hu. apply digitsWithin_after. exact (bind_idAfterSlash_digits _ _ _ H).
  - exact (bind_idAfterSlash_digits _ _ _ H).
Qed.

Lemma bind_matchPathI_digits literal s digits :
  stripPrefixI literal s ≫= matchPathI = Some digits -> digitsWithin digits s.
Proof.
  destruct (stripPrefixI literal s) as [rest|] eqn:Hp; [|discriminate].
  cbn [mbind option_bind]. intros H.
  destruct (stripPrefixI_split _ _ _ Hp) as [consumed ->].
  apply digitsWithin_after, matchPathI_digits, H.
Qed.

Lemma matchAtI_digits s digits : matchAtI s = Some digits -> digitsWithin digits s.
Proof.
  unfold matchAtI.
  destruct (stripPrefixI "twitter.com" s ≫= matchPathI) as [ds|] eqn:Ht.
  - intros [= <-]. exact (bind_matchPathI_digits _ _ _ Ht).
  - apply bind_matchPathI_digits.
Qed.

Lemma exec_digits s digits : exec s = Some digits -> digitsWithin digits s.
Proof.
  induction s as [|c s IH]; cbn [exec].
  - destruct (matchAtI EmptyString) as [ds|] eqn:Hm; [|discriminate].
    intros [= <-]. exact (matchAtI_digits _ _ Hm).
  - destruct (matchAtI (String c s)) as [ds|] eqn:Hm.
    + intros [= <-]. exact (matchAtI_digits _ _ Hm).
    + intros H. exact (digitsWithin_after _ (String c EmptyString) _ (IH H)).
Qed.

Lemma matchAtI_dotless s : dotless s = true -> matchAtI s = None.
Proof.
  intros Hs. unfold matchAtI.
  destruct (stripPrefixI "twitter.com" s) as [rest|] eqn:Ht.
  { pose proof (stripPrefixI_dotless _ _ _ Ht Hs) as Hbad. discriminate Hbad. }
  destruct (stripPrefixI "x.com" s) as [rest|] eqn:Hx.
  { pose proof (stripPrefixI_dotless _ _ _ Hx Hs) as Hbad. discriminate Hbad. }
  reflexivity.
Qed.

Lemma exec_dotless s : dotless s = true -> exec s = None.
Proof.
  induction s as [|c s IH]; intros Hs; cbn [exec]; rewrite (matchAtI_dotless _ Hs).
  - reflexivity.
  - apply IH. unfold dotless in Hs |- *. cbn [allChars] in Hs.
    apply andb_true_iff in Hs as [_ Hs]. exact Hs.
Qed.

Lemma digits_dotless s : allChars isDigit s = true -> dotless s = true.
Proof. apply allChars_impl, digit_not_dot. Qed.

Lemma dotless_app a b : dotless a = true -> dotless b = true -> dotless (a +:+ b) = true.
Proof.
  unfold dotless. intros Ha Hb. induction a as [|c a IH]; [exact Hb|].
  rewrite append_cons. cbn [allChars] in Ha |- *.
  apply andb_true_iff in Ha as [Hc Ha]. rewrite Hc, (IH Ha). reflexivity.
Qed.

(** X25.  The version with [TWEET_URL_REGEX] keeps the shape of the
    result: it returns its input unchanged or a non-empty run of decimal
    digits that occurs in the input; it is idempotent; and an input without
    a dot, a bare id in particular, is returned unchanged. *)
Theorem extractTweetId_with_regex_digits_or_unchanged input :
  (TweetUrl.extractTweetId input = input
   \/ digitsWithin (TweetUrl.extractTweetId input) input)
  /\ TweetUrl.extractTweetId (TweetUrl.extractTweetId input)
     = TweetUrl.extractTweetId input
  /\ (dotless input = true -> TweetUrl.extractTweetId input = input).
Proof.
  split; [|split].
  - unfold TweetUrl.extractTweetId.
    destruct (exec input) as [digits|] eqn:Hs; [right|left; reflexivity].
    exact (exec_digits _ _ Hs).
  - unfold TweetUrl.extractTweetId at 2 3. destruct (exec input) as [digits|] eqn:Hs.
    + destruct (exec_digits _ _ Hs) as (_ & Hd & _).
      unfold TweetUrl.extractTweetId. rewrite (exec_dotless _ (digits_dotless _ Hd)).
      reflexivity.
    + unfold TweetUrl.extractTweetId. rewrite Hs. reflexivity.
  - intros Hno. unfold TweetUrl.extractTweetId. rewrite (exec_dotless _ Hno). reflexivity.
Qed.

Lemma exec_skip c s : matchAtI (String c s) = None -> exec (String c s) = exec s.
Proof. intros H. cbn [exec]. rewrite H. reflexivity. Qed.

Lemma exec_hit s digits : matchAtI s = Some digits -> exec s = Some digits.
Proof. intros H. destruct s; cbn [exec]; rewrite H; reflexivity. Qed.

Lemma idAfterSlash_id tweet rest :
  tweet <> EmptyString -> allChars isDigit tweet = true ->
  startsWith isDigit rest = false ->
  idAfterSlash ("/" +:+ tweet +:+ rest) = Some tweet.
Proof.
  intros Ht Hd Hr. unfold idAfterSlash. rewrite (stripPrefix_self "/" _).
  rewrite (spanWhile_exact isDigit tweet rest Hd Hr).
  destruct tweet as [|d tweet]; [congruence|]. reflexivity.
Qed.

Lemma matchPathI_web tweet rest :
  tweet <> EmptyString -> allChars isDigit tweet = true ->
  startsWith isDigit rest = false ->
  matchPathI ("/i/web/status/" +:+ tweet +:+ rest) = Some tweet.
Proof.
  intros Ht Hd Hr.
  change (matchPathI ("/i/web/status/" +:+ tweet +:+ rest))
    with (idAfterSlash ("/" +:+ tweet +:+ rest)).
  exact (idAfterSlash_id tweet rest Ht Hd Hr).
Qed.

Lemma matchPath_matchPathI s digits :
  matchPath s = Some digits -> matchPathI s = Some digits.
Proof.
  unfold matchPath, matchPathI.
  destruct (stripPrefix "/" s) as [afterSlash|]; [|discriminate].
  unfold viaUser.
  destruct (spanWhile isWord afterSlash) as [user afterUser].
  destruct user as [|u user]; [discriminate|].
  destruct (stripPrefix "/status/" afterUser) as [afterStatus|] eqn:H2; [|discriminate].
  apply stripPrefix_app in H2. subst afterUser.
  change (stripPrefixI "/status" ("/status/" +:+ afterStatus) ≫= idAfterSlash)
    with (match spanWhile isDigit afterStatus with
          | (EmptyString, _) => None
          | (ds, _) => Some ds
          end).
  destruct (spanWhile isDigit afterStatus) as [ds after].
  destruct ds as [|d ds]; [discriminate|]. intros [= <-]. reflexivity.
Qed.

Lemma matchAt_matchAtI s digits : matchAt s = Some digits -> matchAtI s = Some digits.
Proof.
  unfold matchAt, stripDomain, matchAtI.
  destruct (stripPrefix "twitter.com" s) as [rest|] eqn:Ht.
  - cbn [mbind option_bind]. intros Hm.
    rewrite (stripPrefix_stripPrefixI _ _ _ Ht). cbn [mbind option_bind].
    rewrite (matchPath_matchPathI _ _ Hm). reflexivity.
  - destruct (stripPrefix "x.com" s) as [rest|] eqn:Hx; [|discriminate].
    cbn [mbind option_bind]. intros Hm.
    apply stripPrefix_app in Hx. subst s.
    change (stripPrefixI "twitter.com" ("x.com" +:+ rest) ≫= matchPathI)
      with (@None string).
    change (stripPrefixI "x.com" ("x.com" +:+ rest) ≫= matchPathI)
      with (matchPathI rest).
    exact (matchPath_matchPathI _ _ Hm).
Qed.

Lemma search_exec s digits : search s = Some digits -> is_Some (exec s).
Proof.
  induction s as [|c s IH]; cbn [search exec].
  - destruct (matchAt EmptyString) as [ds|] eqn:Hm; [|discriminate].
    rewrite (matchAt_matchAtI _ _ Hm). eauto.
  - destruct (matchAt (String c s)) as [ds|] eqn:Hm.
    + rewrite (matchAt_matchAtI _ _ Hm). eauto.
    + intros H. destruct (matchAtI (String c s)); [eauto|exact (IH H)].
Qed.

(** X26.  The version with [TWEET_URL_REGEX] also reads the links of the
    form [/i/web/status/<id>], which the library version returns unchanged
    (when no dot follows the id); and it accepts whatever the library
    version accepts: a match of the library's pattern at a position is a
    match of [TWEET_URL_REGEX] there with the same capture, so an input in
    which the library's pattern matches is one in which [TWEET_URL_REGEX]
    matches. *)
Theorem regex_version_reads_web_links :
  (forall scheme domain tweet rest,
     scheme ∈ schemes -> domain ∈ domains ->
     tweet <> EmptyString -> allChars isDigit tweet = true ->
     startsWith isDigit rest = false ->
     let link := scheme +:+ domain +:+ "/i/web/status/" +:+ tweet +:+ rest in
     TweetUrl.extractTweetId link = tweet
     /\ (dotless rest = true -> TweetId.extractTweetId link = link))
  /\ (forall s digits, matchAt s = Some digits -> matchAtI s = Some digits)
  /\ (forall input digits, search input = Some digits -> is_Some (exec input)).
Proof.
  split; [|split; [exact matchAt_matchAtI | exact search_exec]].
  intros scheme domain tweet rest Hscheme Hdomain Ht Hd Hr. cbv zeta. split.
  - pose proof (matchPathI_web tweet rest Ht Hd Hr) as Hm.
    revert Hm. generalize ("/i/web/status/" +:+ tweet +:+ rest) as path.
    intros path Hm. unfold TweetUrl.extractTweetId.
    assert (Hfound : exec (scheme +:+ domain +:+ path) = Some tweet).
    { unfold schemes, domains in *.
      repeat (apply elem_of_cons in Hscheme as [->|Hscheme]);
        [| | | | |inversion Hscheme];
        (repeat (apply elem_of_cons in Hdomain as [->|Hdomain]);
         [| |inversion Hdomain]);
        repeat (rewrite append_cons || rewrite append_nil);
        repeat (rewrite exec_skip by reflexivity);
        apply exec_hit; lazy -[matchPathI]; rewrite Hm; reflexivity. }
    rewrite Hfound. reflexivity.
  - intros Hrest.
    assert (Htail : search (tweet +:+ rest) = None).
    { apply search_no_dot. apply (dotless_app _ _ (digits_dotless _ Hd) Hrest). }
    unfold TweetId.extractTweetId.
    assert (Hnone : search (scheme +:+ domain +:+ "/i/web/status/" +:+ tweet +:+ rest)
                    = None).
    { revert Htail. generalize (tweet +:+ rest) as tail. intros tail Htail.
      unfold schemes, domains in *.
      repeat (apply elem_of_cons in Hscheme as [->|Hscheme]);
        [| | | | |inversion Hscheme];
        (repeat (apply elem_of_cons in Hdomain as [->|Hdomain]);
         [| |inversion Hdomain]);
        repeat (rewrite append_cons || rewrite append_nil);
        repeat (rewrite search_skip by reflexivity);
        exact Htail. }
    rewrite Hnone. reflexivity.
Qed.

(** X25 on a bare id. *)
Lemma extractTweetId_with_regex_digits_or_unchanged_witness :
  dotless "1234567890123456789" = true
  /\ TweetUrl.extractTweetId "1234567890123456789" = "1234567890123456789".
Proof.
  assert (Hplain : dotless "1234567890123456789" = true) by reflexivity.
  split; [exact Hplain|].
  exact (proj2 (proj2 (extractTweetId_with_regex_digits_or_unchanged
                         "1234567890123456789")) Hplain).
Defined.

(** X26 on a web link. *)
Lemma regex_version_reads_web_links_witness :
  "https://" ∈ schemes /\ "x.com" ∈ domains
  /\ TweetUrl.extractTweetId "https://x.com/i/web/status/1234567890123456789?s=20"
     = "1234567890123456789"
  /\ TweetId.extractTweetId "https://x.com/i/web/status/1234567890123456789?s=20"
     = "https://x.com/i/web/status/1234567890123456789?s=20".
Proof.
  assert (Hscheme : "https://" ∈ schemes) by (unfold schemes; repeat constructor).
  assert (Hdomain : "x.com" ∈ domains) by (unfold domains; repeat constructor).
  assert (Htweet : "1234567890123456789" <> EmptyString) by discriminate.
  assert (Hrest : dotless "?s=20" = true) by reflexivity.
  pose proof (proj1 regex_version_reads_web_links "https://" "x.com"
                "1234567890123456789" "?s=20" Hscheme Hdomain Htweet eq_refl eq_refl)
    as H.
  cbv zeta in H. destruct H as [Hnew Hold].
  split; [exact Hscheme|]. split; [exact Hdomain|].
  split; [exact Hnew | exact (Hold Hrest)].
Defined.

End TweetUrlFacts.

(** * The further properties at concrete exchanges *)

Import ScriptedCommand.

(** X3 on [busy]: one recoverable answer without a hint, then the page. *)
Lemma backoff_total_without_hints_witness :
  let evs := events (fetchWithRetry (bookmarksRequest 20 None "q") busy) in
  hintless evs /\ callCount evs = 2%nat /\ 500 <= totalSleep evs < 1000.
Proof.
  cbv zeta.
  assert (Hh : hintless (events (fetchWithRetry (bookmarksRequest 20 None "q") busy)))
    by (vm_compute; repeat constructor).
  split; [exact Hh|]. split; [reflexivity|].
  exact (backoff_total_without_hints (bookmarksRequest 20 None "q") busy Hh).
Defined.

(** X4 on a page that overlaps the 20 items collected so far. *)
Lemma mergePage_appends_new_identities_witness :
  let collected := tweetsFrom 1 20 in
  let merged := mergePage NotFinite (tweetsFrom 18 5) (idsOf collected) collected in
  NoDup (id <$> collected)
  /\ merged.1 = idsOf merged.2
  /\ NoDup (id <$> merged.2).
Proof.
  cbv zeta.
  assert (Hnd : NoDup (id <$> tweetsFrom 1 20))
    by (apply (bool_decide_unpack _); vm_compute; exact I).
  pose proof (mergePage_appends_new_identities NotFinite (tweetsFrom 18 5)
                (idsOf (tweetsFrom 1 20)) (tweetsFrom 1 20)) as H.
  cbv zeta in H. destruct H as (_ & _ & Hset & Hdistinct).
  split; [exact Hnd|]. split; [exact (Hset eq_refl) | exact (Hdistinct eq_refl Hnd)].
Defined.

(** X5 on a first page of 5 items under a limit of 50. *)
Lemma mergePage_idempotent_witness :
  let merged := mergePage (Finite 50) (tweetsFrom 1 5) ∅ [] in
  Z.of_nat (length merged.2) < 50
  /\ mergePage (Finite 50) (tweetsFrom 1 5) merged.1 merged.2 = merged.
Proof.
  cbv zeta.
  assert (Hroom : Z.of_nat (length (mergePage (Finite 50) (tweetsFrom 1 5) ∅ []).2) < 50)
    by (vm_compute; reflexivity).
  split; [exact Hroom|].
  exact (mergePage_idempotent (Finite 50) (tweetsFrom 1 5) ∅ [] Hroom).
Defined.

(** X6 on [echoedCursor]: the 20 distinct items of the two pages. *)
Lemma unbounded_fetch_returns_every_distinct_item_witness :
  let fetch := fetchWithRefresh bookmarksFetchPage in
  let history := pagesOf fetch NotFinite {| maxPages := None |} 3 initialState
                   echoedCursor in
  val (pagedLoop fetch NotFinite {| maxPages := None |} 3 initialState echoedCursor)
  = Some (succeed (tweetsFrom 1 20))
  /\ success (succeed (tweetsFrom 1 20)) = true
  /\ tweets (succeed (tweetsFrom 1 20))
     = Some (dedupById ∅ (concat (log_tweets <$> history)))
  /\ length history = 2%nat.
Proof.
  cbv zeta.
  assert (Hval : val (pagedLoop (fetchWithRefresh bookmarksFetchPage) NotFinite
                        {| maxPages := None |} 3 initialState echoedCursor)
                 = Some (succeed (tweetsFrom 1 20)))
    by (vm_compute; reflexivity).
  assert (Hok : success (succeed (tweetsFrom 1 20)) = true) by reflexivity.
  split; [exact Hval|]. split; [exact Hok|]. split.
  - exact (proj1 (unbounded_fetch_returns_every_distinct_item
                    (fetchWithRefresh bookmarksFetchPage) {| maxPages := None |}
                    3%nat echoedCursor (succeed (tweetsFrom 1 20)) Hval Hok)).
  - vm_compute. reflexivity.
Defined.

(** X7 on [twoPages] with a limit of 25. *)
Lemma result_items_distinct_and_from_pages_witness :
  val (pagedLoop (fetchWithRefresh bookmarksFetchPage) (Finite 25)
         {| maxPages := None |} 5 initialState twoPages)
  = Some (succeed (tweetsFrom 1 25))
  /\ tweets (succeed (tweetsFrom 1 25)) = Some (tweetsFrom 1 25)
  /\ NoDup (id <$> tweetsFrom 1 25).
Proof.
  assert (Hval : val (pagedLoop (fetchWithRefresh bookmarksFetchPage) (Finite 25)
                        {| maxPages := None |} 5 initialState twoPages)
                 = Some (succeed (tweetsFrom 1 25)))
    by (vm_compute; reflexivity).
  assert (Hitems : tweets (succeed (tweetsFrom 1 25)) = Some (tweetsFrom 1 25))
    by reflexivity.
  split; [exact Hval|]. split; [exact Hitems|].
  exact (proj1 (result_items_distinct_and_from_pages
                  (fetchWithRefresh bookmarksFetchPage) (Finite 25)
                  {| maxPages := None |} 5%nat twoPages (succeed (tweetsFrom 1 25))
                  (tweetsFrom 1 25) Hval Hitems)).
Defined.

(** X8 on [twoPages] with a limit of 25: the second page is requested
    with the cursor of the first. *)
Lemma pages_are_chained_by_cursor_witness :
  let history := pagesOf (fetchWithRefresh bookmarksFetchPage) (Finite 25)
                   {| maxPages := None |} 5 initialState twoPages in
  let e1 := {| log_pageCount := 20; log_cursor := None;
               log_tweets := tweetsFrom 1 20; log_next := Some "c1" |} in
  let e2 := {| log_pageCount := 5; log_cursor := Some "c1";
               log_tweets := tweetsFrom 21 20; log_next := Some "c2" |} in
  head history = Some e1
  /\ history !! 0%nat = Some e1
  /\ history !! 1%nat = Some e2
  /\ log_cursor e1 = None
  /\ log_cursor e2 = log_next e1
  /\ log_next e1 <> log_cursor e1.
Proof.
  cbv zeta.
  set (history := pagesOf (fetchWithRefresh bookmarksFetchPage) (Finite 25)
                    {| maxPages := None |} 5 initialState twoPages).
  set (e1 := {| log_pageCount := 20; log_cursor := None;
                log_tweets := tweetsFrom 1 20; log_next := Some "c1" |}).
  set (e2 := {| log_pageCount := 5; log_cursor := Some "c1";
                log_tweets := tweetsFrom 21 20; log_next := Some "c2" |}).
  assert (Hhead : head history = Some e1) by (vm_compute; reflexivity).
  assert (Hfirst : history !! 0%nat = Some e1) by (vm_compute; reflexivity).
  assert (Hsecond : history !! 1%nat = Some e2) by (vm_compute; reflexivity).
  pose proof (proj1 pages_are_chained_by_cursor
                (fetchWithRefresh bookmarksFetchPage) (Finite 25)
                {| maxPages := None |} 5%nat twoPages) as H.
  cbv zeta in H. destruct H as [Hstart Hchain].
  destruct (Hchain 0%nat e1 e2 Hfirst Hsecond) as (Hnext & _ & Hmoved & _).
  split; [exact Hhead|]. split; [exact Hfirst|]. split; [exact Hsecond|].
  split; [exact (Hstart e1 Hhead)|]. split; [exact Hnext | exact Hmoved].
Defined.

(** X9 on [twoPages] with a ceiling of one page. *)
Lemma page_ceiling_bounds_the_run_witness :
  0 < 1
  /\ (Z.to_nat 1%Z <= 3)%nat
  /\ is_Some (val (getAllBookmarks 3 {| maxPages := Some 1 |} twoPages))
  /\ (callCount (events (getAllBookmarks 3 {| maxPages := Some 1%Z |} twoPages))
      <= 18 * Z.to_nat 1%Z)%nat.
Proof.
  assert (Hpos : 0 < 1) by lia.
  assert (Hfuel : (Z.to_nat 1%Z <= 3)%nat) by (simpl; lia).
  pose proof (proj1 (page_ceiling_bounds_the_run 1 3 twoPages Hpos)) as H.
  cbv zeta in H. destruct H as (_ & Hcalls & Hsome).
  split; [exact Hpos|]. split; [exact Hfuel|].
  split; [exact (Hsome Hfuel) | exact Hcalls].
Defined.

(** X10 on a server that is out of reach. *)
Lemma network_failure_surfaces_last_error_witness :
  let run := bookmarksFetchPage 20 None (server []) in
  allRejected (events run)
  /\ exists message, val run = Failure message (Some false)
                     /\ sleepsOf (events run) = [].
Proof.
  cbv zeta.
  assert (Hdown : allRejected (events (bookmarksFetchPage 20 None (server []))))
    by (vm_compute; repeat constructor).
  split; [exact Hdown|].
  destruct (network_failure_surfaces_last_error 20 None (server []) Hdown)
    as (messages & message & _ & _ & _ & Hval & _ & Hsleeps).
  exists message. split; [exact Hval | exact Hsleeps].
Defined.

(** X11 on the first page of [twoPages]. *)
Lemma success_comes_from_last_response_witness :
  let run := fetchWithRefresh bookmarksFetchPage 20 None twoPages in
  val run = Success (tweetsFrom 1 20) (Some "c1") false
  /\ exists rq response data,
       last (fetchesOf (events run)) = Some (rq, Resolved response)
       /\ 200 <= status response <= 299
       /\ json response = JsonValue data
       /\ tweetsFrom 1 20 = parseTweetsFromInstructions (instructions data).
Proof.
  cbv zeta.
  assert (Hval : val (fetchWithRefresh bookmarksFetchPage 20 None twoPages)
                 = Success (tweetsFrom 1 20) (Some "c1") false)
    by (vm_compute; reflexivity).
  split; [exact Hval|].
  destruct (proj1 success_comes_from_last_response 20 None twoPages
              (tweetsFrom 1 20) (Some "c1") false Hval)
    as (rq & response & data & Hlast & Hstatus & Hjson & Hitems & _).
  exists rq, response, data.
  split; [exact Hlast|]. split; [exact Hstatus|]. split; [exact Hjson | exact Hitems].
Defined.

(** X12 on [forbidden], with 20 items already collected. *)
Lemma results_carry_items_or_error_witness :
  let r := {| success := false; tweets := None; error := Some "HTTP 403: forbidden" |} in
  val (pagedLoop (fetchWithRefresh bookmarksFetchPage) NotFinite
         {| maxPages := None |} 1 afterFirstPage forbidden) = Some r
  /\ ((success r = true /\ is_Some (tweets r) /\ error r = None)
      \/ (success r = false /\ tweets r = None /\ is_Some (error r))).
Proof.
  cbv zeta.
  assert (Hval : val (pagedLoop (fetchWithRefresh bookmarksFetchPage) NotFinite
                        {| maxPages := None |} 1 afterFirstPage forbidden)
                 = Some {| success := false; tweets := None;
                           error := Some "HTTP 403: forbidden" |})
    by (vm_compute; reflexivity).
  split; [exact Hval|].
  exact (proj1 results_carry_items_or_error
           (fetchWithRefresh bookmarksFetchPage) NotFinite {| maxPages := None |}
           1%nat afterFirstPage forbidden _ Hval).
Defined.

(** X13 on [staleDelete]: two answers of 404, so three POSTs; the second
    goes to the id resolved after the refresh, the third to the generic
    URL with that id. *)
Lemma unbookmark_posts_at_most_three_times_witness :
  let run := unbookmark post "1" staleDelete in
  let posts := postsOf (mutation_events run) in
  (2 <= length posts)%nat
  /\ posts !! 1%nat
     = Some ({| mut_url := OperationUrl "fresh-DeleteBookmark"; mut_tweetId := "1";
                mut_queryId := "fresh-DeleteBookmark" |}, reply 404 None "")
  /\ length posts = 3%nat
  /\ posts !! 2%nat
     = Some ({| mut_url := GraphqlPostUrl; mut_tweetId := "1";
                mut_queryId := "fresh-DeleteBookmark" |}, removed).
Proof.
  cbv zeta.
  assert (Htwo : (2 <= length (postsOf (mutation_events
                                          (unbookmark post "1" staleDelete))))%nat)
    by (vm_compute; lia).
  assert (Hthree : length (postsOf (mutation_events (unbookmark post "1" staleDelete)))
                   = 3%nat)
    by reflexivity.
  pose proof (unbookmark_posts_at_most_three_times post "1" staleDelete) as H.
  cbv zeta in H. destruct H as (_ & _ & _ & _ & Hsecond & Hthird & _).
  destruct (Hsecond Htwo) as (Hpost2 & _ & _).
  split; [exact Htwo|]. split; [exact Hpost2|].
  split; [exact Hthree | exact (Hthird Hthree)].
Defined.


(** X15 on [bird bookmarks --max-pages 2]. *)
Lemma invalid_command_line_sends_nothing_witness :
  let run := bookmarksAction noPrefix numericFolderId 3 session ["careful"]
               maxPagesOnly twoPages in
  Js.truthy (authToken session) = true
  /\ Js.truthy (ct0 session) = true
  /\ Js.truthy (opt_maxPages maxPagesOnly) = true
  /\ opt_all maxPagesOnly = false
  /\ planBookmarks noPrefix numericFolderId session maxPagesOnly
     = Reject "--max-pages requires --all."
  /\ val run = Some {| stderr := ["careful"; "--max-pages requires --all."];
                       outcome := Exit 1 |}
  /\ events run = []
  /\ world run = twoPages.
Proof.
  cbv zeta.
  assert (Hauth : Js.truthy (authToken session) = true) by reflexivity.
  assert (Hct0 : Js.truthy (ct0 session) = true) by reflexivity.
  assert (Hmax : Js.truthy (opt_maxPages maxPagesOnly) = true) by reflexivity.
  assert (Hall : opt_all maxPagesOnly = false) by reflexivity.
  pose proof (proj2 (invalid_command_line_sends_nothing (Instructions := Timeline)
                       (W := Server) noPrefix numericFolderId)
                session maxPagesOnly Hauth Hct0 Hmax Hall) as Hplan.
  pose proof (proj1 (invalid_command_line_sends_nothing (Instructions := Timeline)
                       (W := Server) noPrefix numericFolderId)
                3%nat session ["careful"] maxPagesOnly _ twoPages Hplan) as H.
  cbv zeta in H.
  split; [exact Hauth|]. split; [exact Hct0|]. split; [exact Hmax|].
  split; [exact Hall|]. split; [exact Hplan | exact H].
Defined.

(** X16 on [bird bookmarks -n 5]. *)
Lemma accepted_command_line_is_well_formed_witness :
  planBookmarks noPrefix numericFolderId session firstFive
  = Call None (Finite 5) {| maxPages := None |}
  /\ Js.truthy (authToken session) = true
  /\ Js.truthy (ct0 session) = true
  /\ Js.truthy (opt_folderId firstFive) = false.
Proof.
  assert (Hplan : planBookmarks noPrefix numericFolderId session firstFive
                  = Call None (Finite 5) {| maxPages := None |})
    by reflexivity.
  destruct (accepted_command_line_is_well_formed noPrefix numericFolderId
              session firstFive None (Finite 5) {| maxPages := None |} Hplan)
    as (Hauth & Hct0 & _ & Hfolder).
  split; [exact Hplan|]. split; [exact Hauth|]. split; [exact Hct0 | exact Hfolder].
Defined.

(** X17 on [bird bookmarks -n 5] against [twoPages]. *)
Lemma command_prints_distinct_items_within_count_witness :
  let run := {| stderr := []; outcome := PrintTweets (tweetsFrom 1 5) "No bookmarks found." |} in
  val (bookmarksAction noPrefix numericFolderId 3 session [] firstFive twoPages)
  = Some run
  /\ exists result,
       val (callClient 3 None (Finite 5) {| maxPages := None |} twoPages) = Some result
       /\ success result = true
       /\ tweets result = Some (tweetsFrom 1 5)
       /\ NoDup (id <$> tweetsFrom 1 5).
Proof.
  cbv zeta.
  assert (Hval : val (bookmarksAction noPrefix numericFolderId 3 session []
                        firstFive twoPages)
                 = Some {| stderr := [];
                           outcome := PrintTweets (tweetsFrom 1 5) "No bookmarks found." |})
    by (vm_compute; reflexivity).
  assert (Hplan : planBookmarks noPrefix numericFolderId session firstFive
                  = Call None (Finite 5) {| maxPages := None |})
    by reflexivity.
  split; [exact Hval|].
  pose proof (command_prints_distinct_items_within_count noPrefix numericFolderId
                3%nat session [] firstFive twoPages _ Hval) as H.
  cbv zeta in H. rewrite Hplan in H.
  destruct H as (result & Hresult & [(Hok & items & Hitems & Hrun & Hdistinct & _)
                                    |(_ & message & _ & Hrun)]);
    [|discriminate Hrun].
  assert (Hsame : tweetsFrom 1 5 = items) by congruence.
  exists result. rewrite Hsame.
  split; [exact Hresult|]. split; [exact Hok|]. split; [exact Hitems | exact Hdistinct].
Defined.

(** * The client for single tweets *)

Module TweetClientFacts.
Import TweetClient.

Lemma truthy_default o :
  Js.truthy o = true -> o = Some (default "" o) /\ default "" o <> EmptyString.
Proof. destruct o as [[|c s]|]; try discriminate. intros _. split; [reflexivity|discriminate]. Qed.

Lemma orElse_nonempty value fallback :
  fallback <> EmptyString -> orElse value fallback <> EmptyString.
Proof.
  unfold orElse. destruct value as [[|c s]|]; cbn; auto; intros _; discriminate.
Qed.

Lemma orElse_same value : orElse (Some value) value = value.
Proof. unfold orElse. destruct value; reflexivity. Qed.

Lemma FirstMatch_app tweetId l1 l2 r1 r2 :
  FirstMatch tweetId l1 r1 -> FirstMatch tweetId l2 r2 ->
  FirstMatch tweetId (l1 ++ l2) (match r1 with Some node => Some node | None => r2 end).
Proof.
  intros [before node after -> Hid Hbefore|Hnone1] H2.
  - apply (first_found _ _ before node (after ++ l2)); auto.
    rewrite <- app_assoc. reflexivity.
  - destruct H2 as [before node after -> Hid Hbefore|Hnone2].
    + apply (first_found _ _ (l1 ++ before) node after); auto.
      * rewrite <- app_assoc. reflexivity.
      * apply Forall_app. split; assumption.
    + apply first_none. apply Forall_app. split; assumption.
Qed.

Lemma FirstMatch_functional tweetId nodes r1 r2 :
  FirstMatch tweetId nodes r1 -> FirstMatch tweetId nodes r2 -> r1 = r2.
Proof.
  intros H1 H2.
  destruct H1 as [b1 n1 a1 E1 Hid1 Hb1|Hnone1];
    destruct H2 as [b2 n2 a2 E2 Hid2 Hb2|Hnone2].
  - subst nodes. revert b2 E2 Hb2.
    induction Hb1 as [|x b1 Hx Hb1 IH]; intros b2 E2 Hb2.
    + destruct b2 as [|y b2]; cbn in E2.
      * injection E2 as ->. reflexivity.
      * injection E2 as -> _. apply Forall_cons in Hb2 as [Hy _]. contradiction.
    + destruct b2 as [|y b2]; cbn in E2.
      * injection E2 as -> _. contradiction.
      * injection E2 as -> E2. apply Forall_cons in Hb2 as [_ Hb2].
        exact (IH b2 E2 Hb2).
  - subst nodes. apply Forall_app in Hnone2 as [_ Hn].
    apply Forall_cons in Hn as [Hn _]. contradiction.
  - subst nodes. apply Forall_app in Hnone1 as [_ Hn].
    apply Forall_cons in Hn as [Hn _]. contradiction.
  - reflexivity.
Qed.

Lemma findInEntries_first tweetId thread :
  FirstMatch tweetId (omap resultOf thread) (findInEntries tweetId thread).
Proof.
  induction thread as [|entry rest IH].
  - apply first_none. constructor.
  - cbn [findInEntries omap list_omap]. cbv zeta.
    destruct (resultOf entry) as [node|] eqn:Hentry.
    + cbn [mbind option_bind]. case_bool_decide as Hid.
      * apply (first_found _ _ [] node (omap resultOf rest)); auto.
      * assert (Hnode : FirstMatch tweetId [node] None)
          by (apply first_none; repeat constructor; exact Hid).
        exact (FirstMatch_app tweetId [node] _ None _ Hnode IH).
    + cbn [mbind option_bind]. case_bool_decide as Hid; [discriminate Hid|].
      exact IH.
Qed.

Lemma findInInstructions_first tweetId thread :
  FirstMatch tweetId (threadResults thread) (findInInstructions tweetId thread).
Proof.
  induction thread as [|instruction rest IH].
  - apply first_none. constructor.
  - cbn [findInInstructions].
    change (threadResults (instruction :: rest))
      with (omap resultOf (default [] (entries instruction)) ++ threadResults rest).
    exact (FirstMatch_app _ _ _ _ _ (findInEntries_first tweetId _) IH).
Qed.

Lemma findTweetInInstructions_id instructions tweetId node :
  findTweetInInstructions instructions tweetId = Some node -> rest_id node = Some tweetId.
Proof.
  destruct instructions as [thread|]; [|discriminate]. cbn [findTweetInInstructions].
  intros Hfound. pose proof (findInInstructions_first tweetId thread) as H.
  rewrite Hfound in H. inversion H; assumption.
Qed.

(** X20.  [findTweetInInstructions] returns the first tweet result of the
    thread, in document order, whose [rest_id] is the id looked for, and
    nothing exactly when no tweet result of the thread has that id (entries
    without a tweet result, instructions without entries and an absent
    instruction thread contribute nothing). *)
Theorem findTweetInInstructions_returns_first_match tweetId :
  findTweetInInstructions None tweetId = None
  /\ (forall thread node,
        findTweetInInstructions (Some thread) tweetId = Some node
        <-> exists before after,
              threadResults thread = before ++ node :: after
              /\ rest_id node = Some tweetId
              /\ Forall (fun other => rest_id other <> Some tweetId) before)
  /\ (forall thread,
        findTweetInInstructions (Some thread) tweetId = None
        <-> Forall (fun other => rest_id other <> Some tweetId) (threadResults thread)).
Proof.
  split; [reflexivity|]. split.
  - intros thread node. cbn [findTweetInInstructions].
    pose proof (findInInstructions_first tweetId thread) as H. split.
    + intros Hfound. rewrite Hfound in H.
      inversion H as [before node' after Heq Hid Hbefore|]; subst. eauto.
    + intros (before & after & Heq & Hid & Hbefore).
      exact (FirstMatch_functional _ _ _ _ H
               (first_found _ _ before node after Heq Hid Hbefore)).
  - intros thread. cbn [findTweetInInstructions].
    pose proof (findInInstructions_first tweetId thread) as H. split.
    + intros Hnone. rewrite Hnone in H. inversion H. assumption.
    + intros Hall. exact (FirstMatch_functional _ _ _ _ H (first_none _ _ Hall)).
Qed.

Lemma settle_cases {A} (read : option GraphqlData -> Result A) outcome :
  (exists response data,
     outcome = Resolved response /\ ok response = true
     /\ json response = JsonValue data /\ hasErrors data = false
     /\ settle read outcome = read (instructions data))
  \/ (exists message, settle read outcome = failure message).
Proof.
  unfold settle. destruct outcome as [message|response]; [right; eauto|].
  destruct (ok response) eqn:Hok; cbn [negb]; [|right; eauto].
  destruct (json response) as [message|data] eqn:Hjson; [right; eauto|].
  destruct (hasErrors data) eqn:Herrors; [right; eauto|].
  left. exists response, data. auto.
Qed.

Lemma readTweet_cases tweetId data :
  (exists node,
     match data ?> tweetResult ?> result with
     | Some direct => node = direct
     | None =>
         findTweetInInstructions
           (data ?> threaded_conversation_with_injections_v2 ?> thread_instructions)
           tweetId = Some node
     end
     /\ Js.truthy (legacy node ?> full_text) = true
     /\ Js.truthy (core node ?> user_results ?> user_result ?> user_legacy
                   ?> screen_name) = true
     /\ readTweet tweetId data
        = {| success := true;
             payload :=
               Some {| id := orElse (rest_id node) tweetId;
                       text := default "" (legacy node ?> full_text);
                       author :=
                         {| username :=
                              default "" (core node ?> user_results ?> user_result
                                          ?> user_legacy ?> screen_name);
                            author_name :=
                              orElse (core node ?> user_results ?> user_result
                                      ?> user_legacy ?> name)
                                (default "" (core node ?> user_results ?> user_result
                                             ?> user_legacy ?> screen_name)) |};
                       createdAt := legacy node ?> created_at;
                       replyCount := legacy node ?> reply_count;
                       retweetCount := legacy node ?> retweet_count;
                       likeCount := legacy node ?> favorite_count |};
             error := None |})
  \/ (exists message, readTweet tweetId data = failure message).
Proof.
  unfold readTweet.
  destruct (data ?> tweetResult ?> result) as [direct|] eqn:Hdirect.
  - destruct (Js.truthy (legacy direct ?> full_text)) eqn:Hfull; cbn [negb orb];
      [|right; eauto].
    destruct (Js.truthy (core direct ?> user_results ?> user_result ?> user_legacy
                         ?> screen_name)) eqn:Hscreen; cbn [negb];
      [|right; eauto].
    left. exists direct. auto.
  - destruct (findTweetInInstructions _ tweetId) as [node|] eqn:Hfound;
      [|right; eauto].
    destruct (Js.truthy (legacy node ?> full_text)) eqn:Hfull; cbn [negb orb];
      [|right; eauto].
    destruct (Js.truthy (core node ?> user_results ?> user_result ?> user_legacy
                         ?> screen_name)) eqn:Hscreen; cbn [negb];
      [|right; eauto].
    left. exists node. auto.
Qed.

Section MethodFacts.

Context {W : Type}.
Context (fetch : HttpRequest -> W -> FetchResult GraphqlData * W).

(** X21.  A result of [getTweet] is well formed: either it reports success
    without an error and carries a tweet whose text, user name and display
    name are non-empty (and whose id is non-empty when the id asked for
    is), or it reports failure with an error message and no tweet. *)
Theorem getTweet_result_is_well_formed client tweetId (w : W) :
  let r := (getTweet fetch client tweetId w).1 in
  (success r = true /\ error r = None
   /\ exists found, payload r = Some found
        /\ text found <> EmptyString
        /\ username (author found) <> EmptyString
        /\ author_name (author found) <> EmptyString
        /\ (tweetId <> EmptyString -> id found <> EmptyString))
  \/ (success r = false /\ payload r = None /\ is_Some (error r)).
Proof.
  cbv zeta. unfold getTweet. cbn [fst].
  destruct (settle_cases (readTweet tweetId) (fetch (tweetDetailRequest client tweetId) w).1)
    as [(response & data & _ & _ & _ & _ & ->)|[message ->]];
    [|right; cbn; eauto].
  destruct (readTweet_cases tweetId (instructions data))
    as [(node & _ & Hfull & Hscreen & ->)|[message ->]];
    [|right; cbn; eauto].
  left. cbn [success error payload]. split; [reflexivity|]. split; [reflexivity|].
  eexists. split; [reflexivity|]. cbn [text author username author_name id].
  destruct (truthy_default _ Hfull) as [_ Hfull'].
  destruct (truthy_default _ Hscreen) as [_ Hscreen'].
  split; [exact Hfull'|]. split; [exact Hscreen'|].
  split; [exact (orElse_nonempty _ _ Hscreen')|].
  intros Hid. exact (orElse_nonempty _ _ Hid).
Qed.

(** X22.  A tweet returned by [getTweet] comes from a 2xx response whose
    body decoded without errors.  It is read from the direct
    [tweetResult.result] whenever that is present, whatever its id: the
    thread is then not searched, and the id returned is the [rest_id] of
    that result when it is non-empty.  Only otherwise it is read from the
    first thread entry with the id asked for, and the id returned is then
    the id asked for.  Text, user name and counters are those of the node
    read. *)
Theorem getTweet_prefers_direct_result client tweetId (w : W) found :
  payload (getTweet fetch client tweetId w).1 = Some found ->
  exists response data node,
    (fetch (tweetDetailRequest client tweetId) w).1 = Resolved response
    /\ ok response = true
    /\ json response = JsonValue data
    /\ hasErrors data = false
    /\ match instructions data ?> tweetResult ?> result with
       | Some direct => node = direct
       | None =>
           findTweetInInstructions
             (instructions data ?> threaded_conversation_with_injections_v2
              ?> thread_instructions) tweetId = Some node
           /\ id found = tweetId
       end
    /\ id found = orElse (rest_id node) tweetId
    /\ legacy node ?> full_text = Some (text found)
    /\ core node ?> user_results ?> user_result ?> user_legacy ?> screen_name
       = Some (username (author found))
    /\ createdAt found = legacy node ?> created_at
    /\ replyCount found = legacy node ?> reply_count
    /\ retweetCount found = legacy node ?> retweet_count
    /\ likeCount found = legacy node ?> favorite_count.
Proof.
  unfold getTweet. cbn [fst].
  destruct (settle_cases (readTweet tweetId) (fetch (tweetDetailRequest client tweetId) w).1)
    as [(response & data & Hout & Hok & Hjson & Herrors & ->)|[message ->]];
    [|discriminate].
  destruct (readTweet_cases tweetId (instructions data))
    as [(node & Hnode & Hfull & Hscreen & ->)|[message ->]];
    [|discriminate].
  cbn [payload]. intros [= <-]. cbn [id text author username createdAt replyCount
                                      retweetCount likeCount].
  exists response, data, node.
  destruct (truthy_default _ Hfull) as [Hfull' _].
  destruct (truthy_default _ Hscreen) as [Hscreen' _].
  repeat (split; [first [assumption | reflexivity]|]).
  split; [|repeat split; first [assumption | reflexivity]].
  destruct (instructions data ?> tweetResult ?> result) as [direct|]; [exact Hnode|].
  split; [exact Hnode|].
  rewrite (findTweetInInstructions_id _ _ _ Hnode). apply orElse_same.
Qed.

(** X23.  [tweet] and [reply] report success exactly when the response is
    2xx, its body decodes without errors and carries a non-empty [rest_id]
    of the created tweet, which is then the [tweetId] returned; a decoded
    body without errors and without that id gives the error ['Tweet
    created but no ID returned']; every failure carries an error message
    and no id. *)
Theorem createTweet_succeeds_iff_id_returned client content replyTo (w : W) :
  let run := match replyTo with
             | Some replyToTweetId => reply fetch client content replyToTweetId w
             | None => tweet fetch client content w
             end in
  let outcome := (fetch (createTweetRequest client content replyTo) w).1 in
  let created data := instructions data ?> create_tweet ?> tweet_results
                      ?> result ?> rest_id in
  run.2 = (fetch (createTweetRequest client content replyTo) w).2
  /\ (success run.1 = true
      <-> exists response data tweetId,
            outcome = Resolved response /\ ok response = true
            /\ json response = JsonValue data /\ hasErrors data = false
            /\ created data = Some tweetId /\ tweetId <> EmptyString)
  /\ (success run.1 = true ->
      exists tweetId, payload run.1 = Some tweetId /\ tweetId <> EmptyString
                      /\ error run.1 = None)
  /\ (success run.1 = false -> payload run.1 = None /\ is_Some (error run.1))
  /\ (forall response data,
        outcome = Resolved response -> ok response = true ->
        json response = JsonValue data -> hasErrors data = false ->
        Js.truthy (created data) = false ->
        run.1 = failure "Tweet created but no ID returned").
Proof.
  cbv zeta.
  assert (Hrun : match replyTo with
                 | Some replyToTweetId => reply fetch client content replyToTweetId w
                 | None => tweet fetch client content w
                 end = createTweet fetch client content replyTo w)
    by (destruct replyTo; reflexivity).
  rewrite Hrun. clear Hrun. unfold createTweet. cbn [fst snd].
  set (outcome := (fetch (createTweetRequest client content replyTo) w).1).
  split; [reflexivity|].
  destruct (settle_cases readCreated outcome)
    as [(response & data & Hout & Hok & Hjson & Herrors & Hsettle)|[message Hsettle]];
    rewrite Hsettle.
  - unfold readCreated.
    destruct (Js.truthy (instructions data ?> create_tweet ?> tweet_results
                         ?> result ?> rest_id)) eqn:Hid.
    + destruct (truthy_default _ Hid) as [Hsome Hne].
      cbn [success payload error]. split; [|split; [|split]].
      * split; [|reflexivity]. intros _. exists response, data. eauto 10.
      * intros _. eexists. split; [exact Hsome|]. split; [exact Hne|reflexivity].
      * discriminate.
      * intros response' data' Hout'. rewrite Hout in Hout'. injection Hout' as <-.
        intros _ Hjson'. rewrite Hjson in Hjson'. injection Hjson' as <-.
        intros _ Hno. rewrite Hid in Hno. discriminate.
    + cbn [failure success payload error]. split; [|split; [|split]].
      * split; [discriminate|].
        intros (response' & data' & tweetId & Hout' & _ & Hjson' & _ & Hcreated & Hne).
        rewrite Hout in Hout'. injection Hout' as <-.
        rewrite Hjson in Hjson'. injection Hjson' as <-.
        rewrite Hcreated in Hid. destruct tweetId; [contradiction|discriminate].
      * discriminate.
      * intros _. split; [reflexivity|eauto].
      * reflexivity.
  - cbn [failure success payload error]. split; [|split; [|split]].
    + split; [discriminate|].
      intros (response & data & tweetId & Hout & Hok & Hjson & Herrors & Hcreated & Hne).
      exfalso. revert Hsettle. unfold settle. rewrite Hout, Hok. cbn [negb].
      rewrite Hjson, Herrors. unfold readCreated. rewrite Hcreated.
      destruct tweetId; [contradiction|]. discriminate.
    + discriminate.
    + intros _. split; [reflexivity|eauto].
    + intros response data Hout Hok Hjson Herrors Hno.
      revert Hsettle. unfold settle. rewrite Hout, Hok. cbn [negb].
      rewrite Hjson, Herrors. unfold readCreated. rewrite Hno.
      intros <-. reflexivity.
Qed.

End MethodFacts.

(** X24.  The constructor throws exactly when a cookie is missing or
    empty.  A client that was constructed holds the two cookies of its
    options, both non-empty, and a non-empty user agent (the one of the
    options unless that is absent or empty); so every request of
    [getTweet], [tweet] and [reply] carries the [ct0] cookie as CSRF token,
    both cookies in its cookie header, and a non-empty user agent. *)
Theorem constructed_client_sends_credentials options :
  match newTwitterClient options with
  | inl message =>
      message = "Both authToken and ct0 cookies are required"
      /\ (Js.truthy (authToken (cookies options)) = false
          \/ Js.truthy (ct0 (cookies options)) = false)
  | inr client =>
      exists auth csrf,
        authToken (cookies options) = Some auth /\ auth <> EmptyString
        /\ ct0 (cookies options) = Some csrf /\ csrf <> EmptyString
        /\ client_userAgent client <> EmptyString
        /\ (Js.truthy (userAgent options) = true ->
            userAgent options = Some (client_userAgent client))
        /\ forall tweetId content replyTo rq,
             rq ∈ [tweetDetailRequest client tweetId;
                   createTweetRequest client content replyTo] ->
             x_csrf_token (rq_headers rq) = csrf
             /\ cookie (rq_headers rq) = "auth_token=" +:+ auth +:+ "; ct0=" +:+ csrf
             /\ user_agent (rq_headers rq) = client_userAgent client
  end.
Proof.
  unfold newTwitterClient.
  destruct (Js.truthy (authToken (cookies options))) eqn:Hauth; cbn [negb orb];
    [|split; [reflexivity|left; reflexivity]].
  destruct (Js.truthy (ct0 (cookies options))) eqn:Hcsrf; cbn [negb];
    [|split; [reflexivity|right; reflexivity]].
  destruct (truthy_default _ Hauth) as [Hauth' Hauth''].
  destruct (truthy_default _ Hcsrf) as [Hcsrf' Hcsrf''].
  exists (default "" (authToken (cookies options))),
         (default "" (ct0 (cookies options))).
  cbn [client_userAgent].
  split; [exact Hauth'|]. split; [exact Hauth''|].
  split; [exact Hcsrf'|]. split; [exact Hcsrf''|].
  split; [apply orElse_nonempty; discriminate|]. split.
  - intros Hagent. unfold orElse. rewrite Hagent.
    destruct (userAgent options) as [agent|]; [reflexivity|discriminate Hagent].
  - intros tweetId content replyTo rq Hrq.
    apply elem_of_cons in Hrq as [->|Hrq];
      [|apply elem_of_cons in Hrq as [->|Hrq]; [|inversion Hrq]]; repeat split.
Qed.

Import ScriptedTweets.

(** X20 on [conversation]: the tweet 2 comes after the tweet 1. *)
Lemma findTweetInInstructions_returns_first_match_witness :
  threadResults conversation = [node "1" "first"] ++ node "2" "second" :: []
  /\ Forall (fun other => rest_id other <> Some "2") [node "1" "first"]
  /\ findTweetInInstructions (Some conversation) "2" = Some (node "2" "second").
Proof.
  assert (Hthread : threadResults conversation
                    = [node "1" "first"] ++ node "2" "second" :: [])
    by reflexivity.
  assert (Hbefore : Forall (fun other => rest_id other <> Some "2") [node "1" "first"])
    by (constructor; [discriminate|constructor]).
  split; [exact Hthread|]. split; [exact Hbefore|].
  apply (proj2 (proj1 (proj2 (findTweetInInstructions_returns_first_match "2"))
                  conversation (node "2" "second"))).
  exists [node "1" "first"], []. split; [exact Hthread|]. split; [reflexivity|exact Hbefore].
Defined.

(** X21 on a body with the thread only. *)
Lemma getTweet_result_is_well_formed_witness :
  "2" <> EmptyString
  /\ exists found, payload (getTweet fetch steipete "2" [respond threadOnly]).1 = Some found
                   /\ id found <> EmptyString.
Proof.
  assert (Hne : "2" <> EmptyString) by discriminate.
  split; [exact Hne|].
  pose proof (getTweet_result_is_well_formed fetch steipete "2" [respond threadOnly]) as H.
  cbv zeta in H.
  destruct H as [(_ & _ & found & Hfound & _ & _ & _ & Hid)|(Hfailed & _)].
  - exists found. split; [exact Hfound | exact (Hid Hne)].
  - vm_compute in Hfailed. discriminate Hfailed.
Defined.

(** X22 on a body with the thread only: the id is the one asked for. *)
Lemma getTweet_prefers_direct_result_witness :
  payload (getTweet fetch steipete "2" [respond threadOnly]).1 = Some second
  /\ exists found, id second = orElse (rest_id found) "2"
                   /\ legacy found ?> full_text = Some (text second).
Proof.
  assert (Hfound : payload (getTweet fetch steipete "2" [respond threadOnly]).1
                   = Some second)
    by (vm_compute; reflexivity).
  split; [exact Hfound|].
  destruct (getTweet_prefers_direct_result fetch steipete "2" [respond threadOnly]
              second Hfound)
    as (response & data & found & _ & _ & _ & _ & _ & Hid & Htext & _).
  exists found. split; [exact Hid | exact Htext].
Defined.

(** X23 on a body with the id 99. *)
Lemma createTweet_succeeds_iff_id_returned_witness :
  success (tweet fetch steipete "hello" [respond (created "99")]).1 = true
  /\ exists tweetId,
       payload (tweet fetch steipete "hello" [respond (created "99")]).1 = Some tweetId
       /\ tweetId <> EmptyString.
Proof.
  assert (Hok : success (tweet fetch steipete "hello" [respond (created "99")]).1 = true)
    by reflexivity.
  split; [exact Hok|].
  pose proof (createTweet_succeeds_iff_id_returned fetch steipete "hello" None
                [respond (created "99")]) as H.
  cbv zeta in H. destruct H as (_ & _ & Hsuccess & _).
  destruct (Hsuccess Hok) as (tweetId & Hid & Hne & _).
  exists tweetId. split; [exact Hid | exact Hne].
Defined.

(** X24 on the cookies of the test suite. *)
Lemma constructed_client_sends_credentials_witness :
  newTwitterClient loggedIn = inr steipete
  /\ x_csrf_token (rq_headers (tweetDetailRequest steipete "2")) = "ct0"
  /\ cookie (rq_headers (tweetDetailRequest steipete "2")) = "auth_token=auth; ct0=ct0".
Proof.
  assert (Hnew : newTwitterClient loggedIn = inr steipete) by reflexivity.
  split; [exact Hnew|].
  pose proof (constructed_client_sends_credentials loggedIn) as H.
  rewrite Hnew in H.
  destruct H as (auth & csrf & Hauth & _ & Hcsrf & _ & _ & _ & Hsent).
  vm_compute in Hauth. injection Hauth as <-.
  vm_compute in Hcsrf. injection Hcsrf as <-.
  destruct (Hsent "2" "" None (tweetDetailRequest steipete "2"))
    as (Htoken & Hcookie & _); [constructor|].
  split; [exact Htoken | exact Hcookie].
Defined.

End TweetClientFacts.
